(** * Pokellector card downloader: a shallow embedding of scraper.py

    The script searches a paginated catalogue, follows every result to its
    detail page, extracts an image address through three fallback tiers and
    stores the image on disk, skipping files that are already there.

    The embedding keeps the shape of the source:
    - Python strings are [string]s, read as the bytes of their UTF-8 form;
      the string primitives the script uses ([in], [split], [lower],
      [strip], [int]) are written out, [strip] with the white space and
      [int] with the decimal digits of Unicode;
    - the three regular expressions are terms of a small regex type, matched
      by derivatives, the class [\d] with the decimal digits of Unicode;
    - a parsed page (a BeautifulSoup tree) is a tree of tags whose attributes
      form a dictionary ([gmap string string]);
    - the remote site is a function from requests to responses, and the body
      of a response may break off while it is streamed; the disk is a
      dictionary from paths to contents, the directories are those that have
      been made, and every effect of the script (request, print, sleep,
      directory, file write, prompt) is recorded in a log;
    - the functions of the script live in a state-and-exception monad;
    - [download_pokemon_cards], the [main] nested in it and the loop of that
      [main] call each other and recurse on a fuel: a run that needs more
      than its fuel is cut off, and what it did until then stands.

    What the embedding leaves out: the parsing of HTML text (a response
    carries its parsed tree, so an error of the parser does not occur);
    [lower] beyond the letters A to Z; failures of the disk; the limit
    CPython sets to the depth of calls, where the fuel cuts a run off and
    Python raises [RecursionError]; and the different names one file or
    directory can have.

    The properties come in two parts: first the claims C1 to C10 of the
    specification, then further properties X1 to X21 of the same functions,
    read off the source: what a search returns, what the patterns accept,
    what a query requests, sleeps, reports and writes, and what the prompts
    do with the names they are given. *)

From Stdlib Require Import ZArith String Ascii List Lia Bool.
From stdpp Require Import base option list gmap sets strings sorting.

Set Warnings "-register-all".

Local Open Scope string_scope.
Local Open Scope bool_scope.
Local Open Scope list_scope.

(** ** Python string primitives *)

Module Py.

(** [needle in hay] *)
Fixpoint contains (needle hay : string) : bool :=
  String.prefix needle hay ||
  match hay with
  | EmptyString => false
  | String _ rest => contains needle rest
  end.

(** [s.split(sep)] for a one-character separator: never an empty list. *)
Fixpoint split (sep : ascii) (s : string) : list string :=
  match s with
  | EmptyString => [EmptyString]
  | String c rest =>
      if Ascii.eqb c sep then EmptyString :: split sep rest
      else match split sep rest with
           | piece :: pieces => String c piece :: pieces
           | [] => [String c EmptyString]
           end
  end.

(** [l[0]] and [l[-1]] on the result of a split *)
Definition first (l : list string) : string := List.hd EmptyString l.
Definition final (l : list string) : string := List.last l EmptyString.

Definition between (lo hi : nat) (c : ascii) : bool :=
  (lo <=? nat_of_ascii c)%nat && (nat_of_ascii c <=? hi)%nat.

Definition is_upper (c : ascii) : bool := between 65 90 c.
Definition is_lower (c : ascii) : bool := between 97 122 c.
Definition is_digit (c : ascii) : bool := between 48 57 c.

Definition lower_char (c : ascii) : ascii :=
  if is_upper c then ascii_of_nat (nat_of_ascii c + 32) else c.

(** [s.lower()] *)
Fixpoint lower (s : string) : string :=
  match s with
  | EmptyString => EmptyString
  | String c rest => String (lower_char c) (lower rest)
  end.

(** A string stands for a Python [str] through the bytes of its UTF-8 form;
    [utf8 c] is the form of the code point [c]. *)
Definition byte (n : N) : ascii := ascii_of_N n.

Definition utf8 (c : N) : string :=
  (if c <? 128 then String (byte c) ""
   else if c <? 2048 then
     String (byte (192 + c / 64)) (String (byte (128 + c mod 64)) "")
   else if c <? 65536 then
     String (byte (224 + c / 4096))
       (String (byte (128 + (c / 64) mod 64))
          (String (byte (128 + c mod 64)) ""))
   else
     String (byte (240 + c / 262144))
       (String (byte (128 + (c / 4096) mod 64))
          (String (byte (128 + (c / 64) mod 64))
             (String (byte (128 + c mod 64)) ""))))%N.

(** The string read from its end. *)
Fixpoint reverse_onto (s acc : string) : string :=
  match s with
  | EmptyString => acc
  | String c rest => reverse_onto rest (String c acc)
  end.

Definition reverse (s : string) : string := reverse_onto s "".

(** The characters [str.strip()] removes, which are those of [str.isspace()]
    and of the class [\s]: tab to carriage return, the separators 28 to 31,
    the space, U+0085, U+00A0, U+1680, U+2000 to U+200A, U+2028, U+2029,
    U+202F, U+205F and U+3000. *)
Definition white_space : list N :=
  [9; 10; 11; 12; 13; 28; 29; 30; 31; 32; 133; 160; 5760; 8192; 8193; 8194;
   8195; 8196; 8197; 8198; 8199; 8200; 8201; 8202; 8232; 8233; 8239; 8287;
   12288]%N.

Definition spaces : list string := Eval vm_compute in map utf8 white_space.

(** Whether the bytes [w] are one white space character. *)
Definition is_space (w : string) : bool := existsb (String.eqb w) spaces.

(** The string without the characters at its front that [space] accepts; such
    a character has one, two or three bytes. *)
Fixpoint lstrip_with (space : string → bool) (s : string) : string :=
  match s with
  | EmptyString => s
  | String a rest1 =>
      if space (String a "") then lstrip_with space rest1
      else
        match rest1 with
        | EmptyString => s
        | String b rest2 =>
            if space (String a (String b "")) then lstrip_with space rest2
            else
              match rest2 with
              | EmptyString => s
              | String c rest3 =>
                  if space (String a (String b (String c "")))
                  then lstrip_with space rest3
                  else s
              end
        end
  end.

Definition lstrip (s : string) : string := lstrip_with is_space s.

(** The same from the end. *)
Definition rstrip (s : string) : string :=
  reverse (lstrip_with (fun w => is_space (reverse w)) (reverse s)).

(** [s.strip()] *)
Definition strip (s : string) : string := rstrip (lstrip s).

(** The text of [s] after [prefix], when [s] starts with it. *)
Fixpoint after (prefix s : string) : option string :=
  match prefix, s with
  | EmptyString, _ => Some s
  | String a prefix', String b s' =>
      if Ascii.eqb a b then after prefix' s' else None
  | String _ _, EmptyString => None
  end.

(** The decimal digits, which are the characters of the class [\d] and the
    digits [int] reads: the digit zero of each script is listed (general
    category Nd of Unicode 14.0, as in Python 3.11), and the nine code
    points after a zero are the digits one to nine of its script. *)
Definition zeros : list N :=
  [48; 1632; 1776; 1984; 2406; 2534; 2662; 2790; 2918; 3046; 3174; 3302;
   3430; 3558; 3664; 3792; 3872; 4160; 4240; 6112; 6160; 6470; 6608; 6784;
   6800; 6992; 7088; 7232; 7248; 42528; 43216; 43264; 43472; 43504; 43600;
   44016; 65296; 66720; 68912; 69734; 69872; 69942; 70096; 70384; 70736;
   70864; 71248; 71360; 71472; 71904; 72016; 72784; 73040; 73120; 92768;
   92864; 93008; 120782; 120792; 120802; 120812; 120822; 123200; 123632;
   125264; 130032]%N.

(** Every decimal digit as its bytes, with its value. *)
Definition decimals : list (string * Z) :=
  Eval vm_compute in
  flat_map (fun zero => map (fun v => (utf8 (zero + v), Z.of_N v))
                            [0; 1; 2; 3; 4; 5; 6; 7; 8; 9]%N)
           zeros.

(** The decimal digit at the front of a string: its value and the text
    after it. *)
Definition decimal_at (s : string) : option (Z * string) :=
  head (omap (fun entry => match after (fst entry) s with
                           | Some rest => Some (snd entry, rest)
                           | None => None
                           end) decimals).

(** The values of the decimal digits at the front of a string, as far as
    they go; no string has more digits than bytes. *)
Fixpoint decimals_upto (n : nat) (s : string) : list Z :=
  match n with
  | O => []
  | S n' =>
      match decimal_at s with
      | Some (v, rest) => v :: decimals_upto n' rest
      | None => []
      end
  end.

Definition leading_decimals (s : string) : list Z :=
  decimals_upto (String.length s) s.

(** [int(digits)] for a text of decimal digits, given by their values; the
    [ValueError] that Python raises for more than 4300 digits is [None]. *)
Definition int_from (acc : Z) (digits : list Z) : Z :=
  fold_left (fun acc v => 10 * acc + v)%Z digits acc.

Definition int (digits : list Z) : option Z :=
  if (4300 <? length digits)%nat then None else Some (int_from 0 digits).

(** [os.path.join(a, b)] on POSIX *)
Definition ends_with_slash (s : string) : bool :=
  match String.get (String.length s - 1) s with
  | Some c => Ascii.eqb c "/"
  | None => false
  end.

Definition path_join (a b : string) : string :=
  if String.prefix "/" b then b
  else if String.eqb a "" then b
  else if ends_with_slash a then a +:+ b
  else a +:+ "/" +:+ b.

End Py.

(** ** Regular expressions *)

Module Re.

Inductive regex : Type :=
| Void
| Eps
| Class (p : ascii → bool)
| Seq (r1 r2 : regex)
| Alt (r1 r2 : regex)
| Star (r : regex).

Definition Plus (r : regex) : regex := Seq r (Star r).

(** A literal string. *)
Fixpoint Lit (s : string) : regex :=
  match s with
  | EmptyString => Eps
  | String c rest => Seq (Class (Ascii.eqb c)) (Lit rest)
  end.

(** [[abc]] and [[^abc]] over an explicit list of characters. *)
Definition one_of (cs : string) (c : ascii) : bool :=
  Py.contains (String c EmptyString) cs.
Definition none_of (cs : string) (c : ascii) : bool := negb (one_of cs c).

(** The words of a regex. *)
Inductive lang : regex → string → Prop :=
| lang_eps : lang Eps EmptyString
| lang_class p c : p c = true → lang (Class p) (String c EmptyString)
| lang_seq r1 r2 s1 s2 : lang r1 s1 → lang r2 s2 → lang (Seq r1 r2) (s1 +:+ s2)
| lang_alt_l r1 r2 s : lang r1 s → lang (Alt r1 r2) s
| lang_alt_r r1 r2 s : lang r2 s → lang (Alt r1 r2) s
| lang_star_nil r : lang (Star r) EmptyString
| lang_star_cons r s1 s2 :
    lang r s1 → lang (Star r) s2 → lang (Star r) (s1 +:+ s2).

Fixpoint nullable (r : regex) : bool :=
  match r with
  | Void => false
  | Eps => true
  | Class _ => false
  | Seq r1 r2 => nullable r1 && nullable r2
  | Alt r1 r2 => nullable r1 || nullable r2
  | Star _ => true
  end.

Fixpoint deriv (c : ascii) (r : regex) : regex :=
  match r with
  | Void => Void
  | Eps => Void
  | Class p => if p c then Eps else Void
  | Seq r1 r2 =>
      if nullable r1 then Alt (Seq (deriv c r1) r2) (deriv c r2)
      else Seq (deriv c r1) r2
  | Alt r1 r2 => Alt (deriv c r1) (deriv c r2)
  | Star r1 => Seq (deriv c r1) (Star r1)
  end.

(** The whole string is a word of [r]. *)
Fixpoint fullmatch (r : regex) (s : string) : bool :=
  match s with
  | EmptyString => nullable r
  | String c rest => fullmatch (deriv c r) rest
  end.

(** [re.match(r, s)] as a truth value: some prefix of [s] is a word. *)
Fixpoint prefixmatch (r : regex) (s : string) : bool :=
  nullable r ||
  match s with
  | EmptyString => false
  | String c rest => prefixmatch (deriv c r) rest
  end.

(** [re.match(r + "$", s)]: [$] holds at the end of the string and just
    before a line feed that ends it. *)
Fixpoint match_to_end (r : regex) (s : string) : bool :=
  match s with
  | EmptyString => nullable r
  | String c rest =>
      (nullable r && Ascii.eqb c "010" && String.eqb rest "")
      || match_to_end (deriv c r) rest
  end.

(** [re.search(r, s)]: the text from the leftmost position where a match
    starts. *)
Fixpoint search_from (r : regex) (s : string) : option string :=
  if prefixmatch r s then Some s
  else match s with
       | EmptyString => None
       | String _ rest => search_from r rest
       end.

(** The string without its first [n] characters. *)
Fixpoint skip (n : nat) (s : string) : string :=
  match n, s with
  | S n', String _ rest => skip n' rest
  | _, _ => s
  end.

(** One of several regular expressions. *)
Definition any_of (rs : list regex) : regex := fold_right Alt Void rs.

(** The class [\d]: a decimal digit of any script. *)
Definition decimal : regex :=
  any_of (map (fun entry => Lit (fst entry)) Py.decimals).

End Re.

(** ** Parsed pages *)

Module Soup.

(** A BeautifulSoup tree: text, or a tag with its attribute dictionary and
    its contents. *)
Inductive node : Type :=
| NavigableString (text : string)
| Tag (name : string) (attrs : gmap string string) (contents : list node).

(** Everything below a node, in document order. *)
Fixpoint descendants (n : node) : list node :=
  match n with
  | NavigableString _ => []
  | Tag _ _ contents =>
      (fix walk (l : list node) : list node :=
         match l with
         | [] => []
         | child :: siblings => child :: descendants child ++ walk siblings
         end) contents
  end.

Definition tag_name (n : node) : option string :=
  match n with
  | NavigableString _ => None
  | Tag name _ _ => Some name
  end.

(** [tag.get(key)] *)
Definition get (n : node) (key : string) : option string :=
  match n with
  | NavigableString _ => None
  | Tag _ attrs _ => attrs !! key
  end.

(** [tag.get(key, default)] *)
Definition get_or (n : node) (key default : string) : string :=
  match get n key with
  | Some v => v
  | None => default
  end.

(** The tokens of a multi-valued attribute such as [class]: its runs of
    characters that are not white space. *)
Fixpoint tokens_from (current : string) (s : string) : list string :=
  let close := if String.eqb current "" then [] else [current] in
  match s with
  | EmptyString => close
  | String a rest1 =>
      let more := tokens_from (current +:+ String a EmptyString) rest1 in
      if Py.is_space (String a "") then close ++ tokens_from "" rest1
      else
        match rest1 with
        | EmptyString => more
        | String b rest2 =>
            if Py.is_space (String a (String b ""))
            then close ++ tokens_from "" rest2
            else
              match rest2 with
              | EmptyString => more
              | String c rest3 =>
                  if Py.is_space (String a (String b (String c "")))
                  then close ++ tokens_from "" rest3
                  else more
              end
        end
  end.

Definition tokens (s : string) : list string := tokens_from "" s.

(** The keyword filters the script passes to [find] and [find_all]. *)
Inductive attr_filter : Type :=
| Present (key : string)            (* href=True *)
| Equals (key value : string)       (* property='og:image' *)
| HasClass (value : string).        (* class_='card' *)

Definition holds (n : node) (f : attr_filter) : bool :=
  match f with
  | Present key => bool_decide (is_Some (get n key))
  | Equals key value =>
      match get n key with
      | Some v => String.eqb v value
      | None => false
      end
  | HasClass value =>
      match get n "class" with
      | Some v => String.eqb v value || existsb (String.eqb value) (tokens v)
      | None => false
      end
  end.

Definition selects (name : string) (fs : list attr_filter) (n : node) : bool :=
  match tag_name n with
  | Some name' => String.eqb name' name && forallb (holds n) fs
  | None => false
  end.

(** [root.find(name, **filters)] *)
Definition find (root : node) (name : string) (fs : list attr_filter)
  : option node :=
  List.find (selects name fs) (descendants root).

(** [root.find_all(name, **filters)] *)
Definition find_all (root : node) (name : string) (fs : list attr_filter)
  : list node :=
  List.filter (selects name fs) (descendants root).

End Soup.

(** ** The remote site *)

Module Net.

(** A value of the [params] dictionary. *)
Inductive pyval : Type :=
| PyStr (s : string)
| PyInt (z : Z).

(** The arguments of one [requests.get] call. *)
Record Request : Type := {
  url : string;
  params : list (string * pyval);
  headers : list (string * string);
  stream : bool;
  timeout : option Z
}.

(** What a successful request gives: the page as [html.parser] reads its
    text, and the body as [iter_content] delivers it, chunk by chunk. The
    body of a streamed response is read after [requests.get] has returned: a
    connection that breaks or times out by then ends the chunks with an
    error, [broken]. *)
Record Response : Type := {
  soup : Soup.node;
  chunks : list string;
  broken : option string
}.

(** [requests.get] followed by [raise_for_status]: a connection error, a
    timeout or an error status on one side, a response on the other. *)
Inductive reply : Type :=
| Failure (reason : string)
| Success (response : Response).

Definition remote : Type := Request → reply.

End Net.

Import Net.

(** ** Effects *)

Inductive exn : Type :=
| EOFError
| RequestException (reason : string)
| SystemExit (code : Z).

(** [except Exception] catches everything but [SystemExit]. *)
Definition is_Exception (e : exn) : bool :=
  match e with
  | SystemExit _ => false
  | _ => true
  end.

(** One constructor per [print] of the script. *)
Inductive message : Type :=
| NetworkErrorDuringSearch (e : exn)
| NetworkErrorFetchingCardPage (e : exn)
| ErrorDownloadingImage (e : exn)
| NetworkErrorDuringPaginationCheck (e : exn)
| SearchingFor (pokemon_name : string)
| NoResultsFound (pokemon_name : string)
| FoundPages (total_pages : Z)
| ScrapingPage (page total_pages : Z)
| FoundUniqueCards (count : Z)
| ProcessingCard (idx count : Z) (card_url : string)
| AlreadyDownloaded (filename : string)
| Downloaded (filename : string)
| FailedToDownload (filename : string)
| NoImageFound
| Error (e : exn)
| Complete (downloaded : Z) (output_dir : string)
| InvalidInput
| Exiting
| NoNameProvided.

Inductive prompt : Type :=
| EnterNameOrQuit    (* the prompt of the nested loop *)
| EnterName.         (* the prompt of the script's last block *)

Inductive event : Type :=
| Requested (r : Request)
| Printed (m : message)
| Slept (milliseconds : Z)
| MadeDir (path : string)
| Opened (path : string)
| Wrote (path chunk : string)
| Asked (p : prompt) (answer : string).

(** The disk maps the path of each regular file to its content; [stdin] is
    the lines still to be typed; [log] is what has happened, oldest first.
    The directories that are there are those the log shows to have been
    made. *)
Record State : Type := {
  disk : gmap string string;
  stdin : list string;
  log : list event
}.

Inductive result (A : Type) : Type :=
| Returned (a : A)
| Raised (e : exn)
| OutOfFuel.

Arguments Returned {A} a.
Arguments Raised {A} e.
Arguments OutOfFuel {A}.

Definition Run (A : Type) : Type := State → result A * State.

Definition ret {A} (a : A) : Run A := fun st => (Returned a, st).

Definition bind {A B} (m : Run A) (k : A → Run B) : Run B :=
  fun st =>
    match m st with
    | (Returned a, st') => k a st'
    | (Raised e, st') => (Raised e, st')
    | (OutOfFuel, st') => (OutOfFuel, st')
    end.

Notation "x <- m ;; k" := (bind m (fun x => k))
  (at level 100, m at next level, right associativity).
Notation "m ;;; k" := (bind m (fun _ => k))
  (at level 100, right associativity).

Definition raise {A} (e : exn) : Run A := fun st => (Raised e, st).

Definition out_of_fuel {A} : Run A := fun st => (OutOfFuel, st).

(** [try: body] with the outcome handed to the code after it: the exception
    an [except Exception as e] clause would catch, or the value. *)
Definition attempt {A} (body : Run A) : Run (exn + A) :=
  fun st =>
    match body st with
    | (Returned a, st') => (Returned (inr a), st')
    | (Raised e, st') =>
        if is_Exception e then (Returned (inl e), st') else (Raised e, st')
    | (OutOfFuel, st') => (OutOfFuel, st')
    end.

(** [for item in items: acc = body(item, acc)] *)
Fixpoint for_each {A S} (items : list A) (body : A → S → Run S) (acc : S)
  : Run S :=
  match items with
  | [] => ret acc
  | item :: rest => acc' <- body item acc ;; for_each rest body acc'
  end.

Definition record (e : event) : Run unit :=
  fun st =>
    (Returned tt, {| disk := disk st; stdin := stdin st; log := log st ++ [e] |}).

Definition print (m : message) : Run unit := record (Printed m).

(** [time.sleep] *)
Definition sleep (milliseconds : Z) : Run unit := record (Slept milliseconds).

(** [Path(path).mkdir(parents=True, exist_ok=True)]: from here on the log
    shows the directory. *)
Definition mkdir (path : string) : Run unit := record (MadeDir path).

(** The directories a log shows to have been made, in order. *)
Definition made_dirs (events : list event) : list string :=
  omap (fun e => match e with
                 | MadeDir path => Some path
                 | _ => None
                 end) events.

(** Whether [path] names the directory [dir]: it is [dir], or what
    [os.path.join] makes of [dir] and an empty name, [.] or [..]. The empty
    path names nothing. *)
Definition names_dir (dir path : string) : bool :=
  negb (String.eqb path "")
  && existsb (String.eqb path)
       [dir; Py.path_join dir ""; Py.path_join dir "."; Py.path_join dir ".."].

(** What is there at a path: a regular file of the disk, or one of the
    directories [dirs]. *)
Definition present (dirs : list string) (d : gmap string string)
    (path : string) : bool :=
  bool_decide (is_Some (d !! path))
  || existsb (fun dir => names_dir dir path) dirs.

(** [os.path.exists], which holds of files and of directories *)
Definition path_exists (path : string) : Run bool :=
  fun st => (Returned (present (made_dirs (log st)) (disk st) path), st).

(** [open(path, 'wb')]: the file is created, or emptied. *)
Definition open_wb (path : string) : Run unit :=
  fun st =>
    (Returned tt,
     {| disk := <[path := ""]> (disk st);
        stdin := stdin st;
        log := log st ++ [Opened path] |}).

(** [f.write(chunk)] *)
Definition write (path chunk : string) : Run unit :=
  fun st =>
    (Returned tt,
     {| disk := <[path := default "" (disk st !! path) +:+ chunk]> (disk st);
        stdin := stdin st;
        log := log st ++ [Wrote path chunk] |}).

(** [input(prompt)]: the next line typed, or [EOFError] when there is none. *)
Definition input (p : prompt) : Run string :=
  fun st =>
    match stdin st with
    | [] => (Raised EOFError, st)
    | line :: rest =>
        (Returned line,
         {| disk := disk st; stdin := rest; log := log st ++ [Asked p line] |})
    end.

(** ** The script *)

(** [r'^/[^/]+-Expansion/[^/]+-Card-[^#]+'] (the anchor [^] is what
    [re.match] does anyway) *)
Definition card_link_pattern : Re.regex :=
  Re.Seq (Re.Lit "/")
    (Re.Seq (Re.Plus (Re.Class (Re.none_of "/")))
       (Re.Seq (Re.Lit "-Expansion/")
          (Re.Seq (Re.Plus (Re.Class (Re.none_of "/")))
             (Re.Seq (Re.Lit "-Card-")
                (Re.Plus (Re.Class (Re.none_of "#"))))))).

(** [r'[?&]p=(\d+)'] *)
Definition page_pattern : Re.regex :=
  Re.Seq (Re.Class (Re.one_of "?&"))
    (Re.Seq (Re.Lit "p=") (Re.Plus Re.decimal)).

(** [match = re.search(r'[?&]p=(\d+)', href)] and, when there is a match,
    [int(match.group(1))]: the group starts three characters into the match
    and takes every digit that follows. [None] stands for no match and for
    the [ValueError] of [int]. *)
Definition page_number (href : string) : option Z :=
  match Re.search_from page_pattern href with
  | Some matched => Py.int (Py.leading_decimals (Re.skip 3 matched))
  | None => None
  end.

(** The character class [[A-Za-z0-9\- '\.]] *)
Definition name_char (c : ascii) : bool :=
  Py.is_upper c || Py.is_lower c || Py.is_digit c || Re.one_of "- '." c.

(** [bool(re.match(r"^[A-Za-z0-9\- '\.]+$", pokemon_name))] *)
Definition is_valid_input (pokemon_name : string) : bool :=
  Re.match_to_end (Re.Plus (Re.Class name_char)) pokemon_name.

Definition user_agent : string :=
  "Mozilla/5.0 (X11; Linux x86_64) AppleWebKit/537.36".

Definition the_headers : list (string * string) :=
  [("User-Agent", user_agent)].

Definition image_host : string := "den-cards.pokellector.com".

(** [src.split('.')[-1].lower() in ('png', 'jpg', 'jpeg', 'webp')] *)
Definition has_image_extension (src : string) : bool :=
  let extension := Py.lower (Py.final (Py.split "." src)) in
  existsb (String.eqb extension) ["png"; "jpg"; "jpeg"; "webp"].

(** The [href] of every [<a>] that has one, in document order:
    [for link in soup.find_all('a', href=True): ... link['href'] ...] *)
Definition hrefs (page : Soup.node) : list string :=
  omap (fun link => Soup.get link "href")
       (Soup.find_all page "a" [Soup.Present "href"]).

(** The request of [search_pokemon_cards] and of [get_total_pages]. *)
Definition search_request (pokemon_name : string) (page : Z) : Request :=
  {| url := "https://www.pokellector.com/search";
     params := [("criteria", PyStr (Py.lower pokemon_name)); ("p", PyInt page)];
     headers := the_headers;
     stream := false;
     timeout := Some 10%Z |}.

(** The request of [get_card_image_url]. *)
Definition card_page_request (card_url : string) : Request :=
  {| url := card_url;
     params := [];
     headers := the_headers;
     stream := false;
     timeout := Some 10%Z |}.

(** The request of [download_image]. *)
Definition image_request (image_url : string) : Request :=
  {| url := image_url;
     params := [];
     headers := the_headers;
     stream := true;
     timeout := Some 10%Z |}.

(** The body of the link loop of [search_pokemon_cards]. *)
Definition keep_card_link (card_links : list string) (href : string)
  : list string :=
  if Re.prefixmatch card_link_pattern href then
    let clean_href := Py.first (Py.split "#" href) in
    let full_url := "https://www.pokellector.com" +:+ clean_href in
    if bool_decide (full_url ∈ card_links) then card_links
    else card_links ++ [full_url]
  else card_links.

(** The body of the link loop of [get_total_pages]. Without a match, and
    when [int] raises and the bare [except: pass] takes over, [max_page]
    stays as it is. *)
Definition keep_max_page (max_page : Z) (href : string) : Z :=
  if Py.contains "?p=" href || Py.contains "&p=" href then
    match page_number href with
    | Some page_num => Z.max max_page page_num
    | None => max_page
    end
  else max_page.

(** Python's order on strings, for [sorted]. *)
Definition string_le (a b : string) : Prop := String.leb a b = true.

#[global] Instance string_le_dec : RelDecision string_le.
Proof. intros a b. unfold string_le. apply _. Defined.

(** [sorted(all_card_urls)] *)
Definition sorted (urls : gset string) : list string :=
  merge_sort string_le (elements urls).

(** [enumerate(items, start)] *)
Fixpoint enumerate {A} (start : Z) (items : list A) : list (Z * A) :=
  match items with
  | [] => []
  | item :: rest => (start, item) :: enumerate (start + 1) rest
  end.

(** Whether an image address counts as true in [if image_url:]. *)
Definition truthy (s : string) : bool := negb (String.eqb s "").

Section Script.

(** The remote site, the command line, and whether the module runs as a
    script ([__name__ == "__main__"]). *)
Variable site : remote.
Variable argv : list string.
Variable dunder_main : bool.

(** [requests.get(...)] followed by [response.raise_for_status()] *)
Definition requests_get (r : Request) : Run Response :=
  record (Requested r) ;;;
  match site r with
  | Failure reason => raise (RequestException reason)
  | Success response => ret response
  end.

Definition search_pokemon_cards (pokemon_name : string) (page : Z)
  : Run (list string) :=
  outcome <- attempt (requests_get (search_request pokemon_name page)) ;;
  match outcome with
  | inl e => print (NetworkErrorDuringSearch e) ;;; ret []
  | inr response =>
      ret (fold_left keep_card_link (hrefs (soup response)) [])
  end.

(** The three tiers of [get_card_image_url] on a parsed page, each written
    as the source has it: a tier that does not return falls through. *)
Definition image_url_of (page : Soup.node) : option string :=
  let tier3 :=
    List.find
      (fun src => Py.contains image_host src && has_image_extension src)
      (map (fun img => Soup.get_or img "src" "")
           (Soup.find_all page "img" []))
  in
  let tier2b :=
    match Soup.find page "meta" [Soup.Equals "itemprop" "image"] with
    | Some meta_item =>
        match Soup.get meta_item "content" with
        | Some src =>
            if truthy src && Py.contains image_host src then Some src
            else tier3
        | None => tier3
        end
    | None => tier3
    end
  in
  let tier2 :=
    match Soup.find page "meta" [Soup.Equals "property" "og:image"] with
    | Some meta_og =>
        match Soup.get meta_og "content" with
        | Some src =>
            if truthy src && Py.contains image_host src then Some src
            else tier2b
        | None => tier2b
        end
    | None => tier2b
    end
  in
  match Soup.find page "div" [Soup.HasClass "card"] with
  | Some card_div =>
      match Soup.find card_div "img" [] with
      | Some img =>
          let src := Soup.get_or img "src" "" in
          if truthy src && Py.contains image_host src
             && has_image_extension src
          then Some src
          else tier2
      | None => tier2
      end
  | None => tier2
  end.

Definition get_card_image_url (card_url : string) (pokemon_name : string)
  : Run (option string) :=
  outcome <- attempt (requests_get (card_page_request card_url)) ;;
  match outcome with
  | inl e => print (NetworkErrorFetchingCardPage e) ;;; ret None
  | inr response => ret (image_url_of (soup response))
  end.

(** [for chunk in response.iter_content(chunk_size=8192): f.write(chunk)];
    a body that breaks off raises after the chunks that did arrive. *)
Definition write_body (output_path : string) (response : Response)
  : Run unit :=
  for_each (chunks response) (fun chunk _ => write output_path chunk) tt ;;;
  match broken response with
  | Some reason => raise (RequestException reason)
  | None => ret tt
  end.

(** Lines 87 to 96: the [try] block covers the request only; the file is
    opened and the body is read after it, so an error of the body leaves
    [download_image] as an exception, with the file already written to. *)
Definition download_image (image_url output_path : string) : Run bool :=
  outcome <- attempt (requests_get (image_request image_url)) ;;
  match outcome with
  | inl e => print (ErrorDownloadingImage e) ;;; ret false
  | inr response =>
      open_wb output_path ;;;
      write_body output_path response ;;;
      ret true
  end.

Definition get_total_pages (pokemon_name : string) : Run Z :=
  outcome <- attempt (requests_get (search_request pokemon_name 1)) ;;
  match outcome with
  | inl e => print (NetworkErrorDuringPaginationCheck e) ;;; ret 0%Z
  | inr response =>
      ret (fold_left keep_max_page (hrefs (soup response)) 1%Z)
  end.

(** The body of the page loop of [download_pokemon_cards]. *)
Definition scrape_page (pokemon_name : string) (total_pages : Z)
    (page : Z) (all_card_urls : gset string) : Run (gset string) :=
  print (ScrapingPage page total_pages) ;;;
  card_urls <- search_pokemon_cards pokemon_name page ;;
  sleep 1000 ;;;
  ret (all_card_urls ∪ list_to_set card_urls).

(** What the [try] block of the card loop does; it gives the new value of
    [downloaded]. *)
Definition fetch_card (pokemon_name output_dir card_url : string)
    (downloaded : Z) : Run Z :=
  image_url <- get_card_image_url card_url pokemon_name ;;
  match image_url with
  | Some image_url =>
      if truthy image_url then
        let filename := Py.final (Py.split "/" image_url) in
        let output_path := Py.path_join output_dir filename in
        present <- path_exists output_path ;;
        if present then
          print (AlreadyDownloaded filename) ;;; ret downloaded
        else
          ok <- download_image image_url output_path ;;
          if ok then print (Downloaded filename) ;;; ret (downloaded + 1)%Z
          else print (FailedToDownload filename) ;;; ret downloaded
      else print NoImageFound ;;; ret downloaded
  | None => print NoImageFound ;;; ret downloaded
  end.

(** The body of the card loop of [download_pokemon_cards], lines 144 to
    163: the last [print] is indented into the loop. The [except Exception]
    clause catches what [download_image] lets through, the error of a body
    that breaks off. *)
Definition process_card (pokemon_name output_dir : string) (count : Z)
    (item : Z * string) (downloaded : Z) : Run Z :=
  let '(idx, card_url) := item in
  print (ProcessingCard idx count card_url) ;;;
  outcome <- attempt (fetch_card pokemon_name output_dir card_url downloaded) ;;
  downloaded' <-
    match outcome with
    | inl e => print (Error e) ;;; ret downloaded
    | inr n => ret n
    end ;;
  sleep 500 ;;;
  print (Complete downloaded' output_dir) ;;;
  ret downloaded'.

(** Lines 128 to 163 of [download_pokemon_cards]: everything before the
    nested definitions. [None] is the early [return] of line 133. *)
Definition run_query (pokemon_name output_dir : string) : Run (option Z) :=
  mkdir output_dir ;;;
  print (SearchingFor pokemon_name) ;;;
  total_pages <- get_total_pages pokemon_name ;;
  if (total_pages =? 0)%Z then
    print (NoResultsFound pokemon_name) ;;; ret None
  else
    print (FoundPages total_pages) ;;;
    all_card_urls <-
      for_each (seqZ 1 total_pages) (scrape_page pokemon_name total_pages) ∅ ;;
    let count := Z.of_nat (size all_card_urls) in
    print (FoundUniqueCards count) ;;;
    downloaded <-
      for_each (enumerate 1 (sorted all_card_urls))
               (process_card pokemon_name output_dir count) 0%Z ;;
    ret (Some downloaded).

(** [download_pokemon_cards], with the [main] it defines and calls at its
    end and the [while True] loop of that [main]. The three call each
    other without bound, so they recurse on a fuel: a run that needs more is
    cut off with [OutOfFuel], in the state it had reached. CPython cuts such
    a run off as well, at its recursion limit; what the script does with the
    [RecursionError] is not described here. *)
Fixpoint download_pokemon_cards (fuel : nat)
    (pokemon_name output_dir : string) {struct fuel} : Run unit :=
  match fuel with
  | O => out_of_fuel
  | S fuel' =>
      finished <- run_query pokemon_name output_dir ;;
      match finished with
      | None => ret tt
      | Some _ => if dunder_main then main fuel' else ret tt
      end
  end

with main (fuel : nat) {struct fuel} : Run unit :=
  match fuel with
  | O => out_of_fuel
  | S fuel' =>
      (if (1 <? length argv)%nat then
         let pokemon_name := Py.strip (nth 1 argv "") in
         if negb (is_valid_input pokemon_name) then print InvalidInput
         else download_pokemon_cards fuel' pokemon_name "./cards"
       else ret tt) ;;;
      prompt_loop fuel'
  end

with prompt_loop (fuel : nat) {struct fuel} : Run unit :=
  match fuel with
  | O => out_of_fuel
  | S fuel' =>
      line <- input EnterNameOrQuit ;;
      let user_input := Py.strip line in
      if negb (truthy user_input) then print Exiting
      else if negb (is_valid_input user_input) then
        print InvalidInput ;;; prompt_loop fuel'
      else
        download_pokemon_cards fuel' user_input "./cards" ;;;
        prompt_loop fuel'
  end.

(** The last block of the file, lines 191 to 199. *)
Definition script (fuel : nat) : Run unit :=
  if dunder_main then
    pokemon_name <-
      (if (length argv <? 2)%nat then
         line <- input EnterName ;;
         let pokemon_name := Py.strip line in
         if negb (truthy pokemon_name) then
           print NoNameProvided ;;; raise (SystemExit 1)
         else ret pokemon_name
       else ret (nth 1 argv "")) ;;
    download_pokemon_cards fuel pokemon_name "./cards"
  else ret tt.

End Script.

(** ** The tiers of section 4.3, one function each *)

(** These three follow the words of the specification, not the control flow
    of [get_card_image_url]; [image_url_of] above is the source. *)
Module Tiers.

(** Tier 1: the card display region, its first image, accepted if it names
    the image host and has a recognised extension. *)
Definition card_region (page : Soup.node) : option string :=
  match Soup.find page "div" [Soup.HasClass "card"] with
  | Some region =>
      match Soup.find region "img" [] with
      | Some image =>
          let src := Soup.get_or image "src" "" in
          if Py.contains image_host src && has_image_extension src
          then Some src else None
      | None => None
      end
  | None => None
  end.

Definition meta_content (page : Soup.node) (f : Soup.attr_filter)
  : option string :=
  match Soup.find page "meta" [f] with
  | Some meta =>
      match Soup.get meta "content" with
      | Some content =>
          if Py.contains image_host content then Some content else None
      | None => None
      end
  | None => None
  end.

(** Tier 2: the [og:image] property tag, then the [itemprop=image] tag. *)
Definition metadata (page : Soup.node) : option string :=
  match meta_content page (Soup.Equals "property" "og:image") with
  | Some url => Some url
  | None => meta_content page (Soup.Equals "itemprop" "image")
  end.

(** Tier 3: every image of the page in document order. *)
Definition page_scan (page : Soup.node) : option string :=
  List.find
    (fun src => Py.contains image_host src && has_image_extension src)
    (map (fun image => Soup.get_or image "src" "")
         (Soup.find_all page "img" [])).

(** The first tier that gives an address. *)
Fixpoint first_success (tiers : list (Soup.node → option string))
    (page : Soup.node) : option string :=
  match tiers with
  | [] => None
  | tier :: others =>
      match tier page with
      | Some url => Some url
      | None => first_success others page
      end
  end.

Definition in_order : list (Soup.node → option string) :=
  [card_region; metadata; page_scan].

End Tiers.

(** ** Sample pages, sites and states *)

Module Sample.

Import Soup.

Definition document (contents : list node) : node :=
  Tag "[document]" ∅ contents.

Definition anchor (href : string) : node :=
  Tag "a" {[ "href" := href ]} [].

Definition image (src : string) : node :=
  Tag "img" {[ "src" := src ]} [].

Definition og_image (content : string) : node :=
  Tag "meta" {[ "property" := "og:image"; "content" := content ]} [].

Definition card_div (contents : list node) : node :=
  Tag "div" {[ "class" := "card" ]} contents.

Definition page (p : node) : reply :=
  Success {| soup := p; chunks := []; broken := None |}.

Definition body (pieces : list string) : reply :=
  Success {| soup := document []; chunks := pieces; broken := None |}.

Definition fresh (lines : list string) : State :=
  {| disk := ∅; stdin := lines; log := [] |}.

Definition pikachu_png : string :=
  "https://den-cards.pokellector.com/119/Pikachu.BS.58.png".






(** A detail page whose only image address ends in a slash. *)
Definition slash_page : node :=
  document [og_image "https://den-cards.pokellector.com/"].

Definition slash_site : remote := fun _ => page slash_page.

(** A detail page on which nothing names the image host. *)
Definition foreign_page : node :=
  document
    [og_image "https://example.org/preview.png";
     card_div [image "https://example.org/card.png"];
     image "/static/logo.png"].

Definition foreign_site : remote := fun _ => page foreign_page.

(** A site that is down. *)
Definition down : remote := fun _ => Failure "connection refused".

(** A result page whose only pagination link names page 0. *)
Definition page_zero : node :=
  document [anchor "/search?criteria=pikachu&p=0"].

Definition page_zero_site : remote := fun _ => page page_zero.

(** A result page with links to pages 3 and 7. *)
Definition three_and_seven : node :=
  document [anchor "/search?criteria=pikachu&p=3";
            anchor "/Base-Set-Expansion/Pikachu-Card-58";
            anchor "/search?criteria=pikachu&p=7"].

Definition three_and_seven_site : remote := fun _ => page three_and_seven.

(** A result page whose only pagination link names page 12 in Arabic-Indic
    digits, U+0661 and U+0662. *)
Definition page_twelve : node :=
  document [anchor ("/search?criteria=pikachu&p="
                    +:+ Py.utf8 1633 +:+ Py.utf8 1634)].

Definition page_twelve_site : remote := fun _ => page page_twelve.

(** A result page with a link whose second segment holds a [#]. *)
Definition fragment_page : node :=
  document [anchor "/Base-Set-Expansion/Pikachu#top-Card-58"].

Definition fragment_site : remote := fun _ => page fragment_page.

(** The catalogue of the end-to-end scenario of the specification: two
    result pages for "pikachu", three cards on the first and two on the
    second, one of them on both; every card has its image. *)
Definition card_1 : string := "/Base-Set-Expansion/Pikachu-Card-58".
Definition card_2 : string := "/Jungle-Expansion/Pikachu-Card-60".
Definition card_3 : string := "/Base-Set-2-Expansion/Pikachu-Card-87".
Definition card_4 : string := "/Neo-Genesis-Expansion/Pikachu-Card-70".

Definition images : list (string * string) :=
  [("https://www.pokellector.com" +:+ card_1,
    "https://den-cards.pokellector.com/119/Pikachu.BS.58.png");
   ("https://www.pokellector.com" +:+ card_2,
    "https://den-cards.pokellector.com/120/Pikachu.JU.60.png");
   ("https://www.pokellector.com" +:+ card_3,
    "https://den-cards.pokellector.com/122/Pikachu.B2.87.png");
   ("https://www.pokellector.com" +:+ card_4,
    "https://den-cards.pokellector.com/130/Pikachu.N1.70.png")].

Definition results_1 : node :=
  document [anchor card_1; anchor card_2; anchor card_3;
            anchor "/search?criteria=pikachu&p=2"].

Definition results_2 : node :=
  document [anchor card_3; anchor card_4;
            anchor "/search?criteria=pikachu&p=1"].

Definition page_asked (r : Request) : Z :=
  match params r with
  | [_; (_, PyInt p)] => p
  | _ => 1%Z
  end.

Definition catalogue : remote := fun r =>
  if String.eqb (url r) "https://www.pokellector.com/search" then
    page (if (page_asked r =? 2)%Z then results_2 else results_1)
  else if String.prefix "https://den-cards.pokellector.com/" (url r) then
    body ["PNG"; "IDAT"]
  else
    match List.find (fun entry => String.eqb (fst entry) (url r)) images with
    | Some entry => page (document [card_div [image (snd entry)]])
    | None => Failure "404 Not Found"
    end.

(** A disk that already holds the image of the first card. *)
Definition stocked : State :=
  {| disk := {[ "./cards/Pikachu.BS.58.png" := "PNGIDAT" ]};
     stdin := [];
     log := [] |}.


(** A catalogue that answers every search with a page without links. *)
Definition bare : remote := fun _ => page (document []).


End Sample.

(** ** Vocabulary of the properties *)

(** A state with more events in its log. *)
Definition logged (new : list event) (st : State) : State :=
  {| disk := disk st; stdin := stdin st; log := log st ++ new |}.

(** The disk after [f.write] of each chunk to one path. *)
Definition written (path : string) (pieces : list string)
    (d : gmap string string) : gmap string string :=
  fold_left (fun d piece => <[path := default "" (d !! path) +:+ piece]> d)
            pieces d.

(** The counts the run reports, in the order it prints them. *)
Definition reports (events : list event) : list Z :=
  omap (fun e => match e with
                 | Printed (Complete downloaded _) => Some downloaded
                 | _ => None
                 end) events.

(** The requests of a log, in order. *)
Definition requests (events : list event) : list Request :=
  omap (fun e => match e with
                 | Requested r => Some r
                 | _ => None
                 end) events.

(** The page numbers read from the links of a page: for each link, what
    [int] makes of what [r'[?&]p=(\d+)'] finds in its [href], when it finds
    something and [int] does not raise. *)
Definition pages_observed (page : Soup.node) : list Z :=
  omap page_number (hrefs page).

(** The largest number of a list, [fallback] when the list is empty. *)
Definition maximum (fallback : Z) (numbers : list Z) : Z :=
  match numbers with
  | [] => fallback
  | n :: rest => fold_left Z.max rest n
  end.

(** Every character of a string satisfies a test. *)
Fixpoint all_chars (p : ascii → bool) (s : string) : bool :=
  match s with
  | EmptyString => true
  | String c rest => p c && all_chars p rest
  end.

(** ** What one query does, as lists of events *)

(** The functions below say, without the monad, what each loop of
    [download_pokemon_cards] returns, logs and writes; the properties part
    proves that the script computes exactly these. *)
Section Trace.

Variable site : remote.

(** The links [search_pokemon_cards] returns for one page. *)
Definition page_links (pokemon_name : string) (page : Z) : list string :=
  match site (search_request pokemon_name page) with
  | Failure _ => []
  | Success response => fold_left keep_card_link (hrefs (soup response)) []
  end.

(** What a failed request adds to the log after the request itself. *)
Definition complaint (r : Request) (m : exn → message) : list event :=
  match site r with
  | Failure reason => [Printed (m (RequestException reason))]
  | Success _ => []
  end.

(** The events of one turn of the page loop. *)
Definition page_events (pokemon_name : string) (total_pages page : Z)
  : list event :=
  Printed (ScrapingPage page total_pages)
  :: Requested (search_request pokemon_name page)
  :: complaint (search_request pokemon_name page) NetworkErrorDuringSearch
  ++ [Slept 1000].

(** The set the page loop builds. *)
Definition links_of_pages (pokemon_name : string) (pages : list Z)
    (start : gset string) : gset string :=
  fold_left (fun urls page => urls ∪ list_to_set (page_links pokemon_name page))
            pages start.

(** The address [get_card_image_url] returns for a card. *)
Definition image_of (card_url : string) : option string :=
  match site (card_page_request card_url) with
  | Failure _ => None
  | Success response => image_url_of (soup response)
  end.

(** Where the image of a card goes. *)
Definition filename_of (image_url : string) : string :=
  Py.final (Py.split "/" image_url).

Definition output_path_of (output_dir image_url : string) : string :=
  Py.path_join output_dir (filename_of image_url).

(** One turn of the card loop after the detail page was read, with the
    directories [made] and the files [d] there: the new count, the new disk,
    and the events up to the pause. *)
Definition card_step (made : list string) (output_dir card_url : string)
    (downloaded : Z) (d : gmap string string)
  : Z * gmap string string * list event :=
  match image_of card_url with
  | Some image_url =>
      if truthy image_url then
        let filename := filename_of image_url in
        let output_path := output_path_of output_dir image_url in
        if present made d output_path then
          (downloaded, d, [Printed (AlreadyDownloaded filename)])
        else
          match site (image_request image_url) with
          | Failure reason =>
              (downloaded, d,
               [Requested (image_request image_url);
                Printed (ErrorDownloadingImage (RequestException reason));
                Printed (FailedToDownload filename)])
          | Success response =>
              let d' :=
                written output_path (chunks response)
                        (<[output_path := ""]> d) in
              let transfer :=
                Requested (image_request image_url)
                :: Opened output_path
                :: map (Wrote output_path) (chunks response) in
              match broken response with
              | Some reason =>
                  (downloaded, d',
                   transfer ++ [Printed (Error (RequestException reason))])
              | None =>
                  ((downloaded + 1)%Z, d',
                   transfer ++ [Printed (Downloaded filename)])
              end
          end
      else (downloaded, d, [Printed NoImageFound])
  | None => (downloaded, d, [Printed NoImageFound])
  end.

(** All the events of one turn of the card loop. *)
Definition card_events (made : list string) (output_dir : string)
    (count : Z) (item : Z * string) (downloaded : Z) (d : gmap string string)
  : list event :=
  Printed (ProcessingCard (fst item) count (snd item))
  :: Requested (card_page_request (snd item))
  :: complaint (card_page_request (snd item)) NetworkErrorFetchingCardPage
  ++ snd (card_step made output_dir (snd item) downloaded d)
  ++ [Slept 500;
      Printed (Complete (fst (fst (card_step made output_dir (snd item)
                                     downloaded d))) output_dir)].

(** The card loop. *)
Fixpoint cards_run (made : list string) (output_dir : string) (count : Z)
    (items : list (Z * string)) (downloaded : Z) (d : gmap string string)
  : Z * gmap string string * list event :=
  match items with
  | [] => (downloaded, d, [])
  | item :: rest =>
      let '(downloaded', d', _) :=
        card_step made output_dir (snd item) downloaded d in
      let '(final, d'', later) :=
        cards_run made output_dir count rest downloaded' d' in
      (final, d'',
       card_events made output_dir count item downloaded d ++ later)
  end.

(** The cards a query works on, in the order it takes them. *)
Definition cards_of (pokemon_name : string) (total_pages : Z)
  : list (Z * string) :=
  enumerate 1 (sorted (links_of_pages pokemon_name (seqZ 1 total_pages) ∅)).

(** The page count [get_total_pages] returns. *)
Definition total_pages_of (pokemon_name : string) : Z :=
  match site (search_request pokemon_name 1) with
  | Failure _ => 0%Z
  | Success response => fold_left keep_max_page (hrefs (soup response)) 1%Z
  end.

(** Lines 128 to 163 as a whole, with the directories [made] before. *)
Definition query_run (made : list string) (pokemon_name output_dir : string)
    (d : gmap string string) : option Z * gmap string string * list event :=
  let total_pages := total_pages_of pokemon_name in
  let opening :=
    MadeDir output_dir
    :: Printed (SearchingFor pokemon_name)
    :: Requested (search_request pokemon_name 1)
    :: complaint (search_request pokemon_name 1)
         NetworkErrorDuringPaginationCheck in
  if (total_pages =? 0)%Z then
    (None, d, opening ++ [Printed (NoResultsFound pokemon_name)])
  else
    let items := cards_of pokemon_name total_pages in
    let count :=
      Z.of_nat (size (links_of_pages pokemon_name (seqZ 1 total_pages) ∅)) in
    let '(downloaded, d', card_log) :=
      cards_run (made ++ [output_dir]) output_dir count items 0%Z d in
    (Some downloaded, d',
     opening
     ++ Printed (FoundPages total_pages)
     :: concat (map (page_events pokemon_name total_pages)
                    (seqZ 1 total_pages))
     ++ Printed (FoundUniqueCards count)
     :: card_log).

End Trace.

(** How many lines that count as blank a log shows to have been typed. *)
Definition blank_answers (events : list event) : nat :=
  length (List.filter
            (fun e => match e with
                      | Asked _ answer => negb (truthy (Py.strip answer))
                      | _ => false
                      end) events).

(** How many times a log announces the number of result pages, which is once
    for every query that gets past the early return. *)
Definition queries_under_way (events : list event) : nat :=
  length (List.filter
            (fun e => match e with
                      | Printed (FoundPages _) => true
                      | _ => false
                      end) events).




(** An event that is neither an answer typed at a prompt nor the
    announcement of a page count. *)
Definition plain (e : event) : bool :=
  match e with
  | Asked _ _ | Printed (FoundPages _) => false
  | _ => true
  end.

(** A line the nested loop accepts as a name. *)
Definition accepted (line : string) : Prop :=
  truthy (Py.strip line) = true ∧ is_valid_input (Py.strip line) = true.

(** ** Vocabulary of the further properties *)

(** The tag an address was read from: the [src] of an [img] that passes the
    extension test, or the [content] of a [meta]. *)
Definition read_from (page : Soup.node) (image_url : string) : Prop :=
  ∃ tag, In tag (Soup.descendants page)
         ∧ ((Soup.tag_name tag = Some "img"
             ∧ Soup.get tag "src" = Some image_url
             ∧ has_image_extension image_url = true)
            ∨ (Soup.tag_name tag = Some "meta"
               ∧ Soup.get tag "content" = Some image_url)).

(** The values of the digits of a text, taken as digits 0 to 9, and the
    number they write. *)
Fixpoint digit_values (digits : string) : list Z :=
  match digits with
  | EmptyString => []
  | String c rest => (Z.of_nat (nat_of_ascii c) - 48)%Z :: digit_values rest
  end.

Fixpoint number_from (acc : Z) (digits : string) : Z :=
  match digits with
  | EmptyString => acc
  | String c rest =>
      number_from (10 * acc + (Z.of_nat (nat_of_ascii c) - 48))%Z rest
  end.

Definition number (digits : string) : Z := number_from 0 digits.

(** The requests of a log that carry parameters, in order: those for result
    pages. *)
Definition searches (events : list event) : list Request :=
  List.filter (fun r => match params r with [] => false | _ => true end)
              (requests events).

(** The cards a log shows to have been taken up, in order, each with its
    number and the count announced with it. *)
Definition processed (events : list event) : list (Z * Z * string) :=
  omap (fun e => match e with
                 | Printed (ProcessingCard idx count card_url) =>
                     Some (idx, count, card_url)
                 | _ => None
                 end) events.

(** The paths a log shows to have been opened for writing, in order. *)
Definition opened (events : list event) : list string :=
  omap (fun e => match e with
                 | Opened path => Some path
                 | _ => None
                 end) events.

(** The files a log reports as downloaded, and the errors it reports from
    the card loop, in order. *)
Definition downloads (events : list event) : list string :=
  omap (fun e => match e with
                 | Printed (Downloaded filename) => Some filename
                 | _ => None
                 end) events.

Definition failures (events : list event) : list exn :=
  omap (fun e => match e with
                 | Printed (Error e) => Some e
                 | _ => None
                 end) events.

(** The time a log shows to have been slept, in milliseconds. *)
Definition slept (events : list event) : Z :=
  fold_right Z.add 0%Z
    (omap (fun e => match e with
                    | Slept milliseconds => Some milliseconds
                    | _ => None
                    end) events).

(** A line the nested loop refuses as a name. *)
Definition refused (line : string) : Prop :=
  truthy (Py.strip line) = true ∧ is_valid_input (Py.strip line) = false.

(** What the nested loop logs for a line it refuses. *)
Definition refusal (line : string) : list event :=
  [Asked EnterNameOrQuit line; Printed InvalidInput].

(** A request as the script makes them: with the fixed [User-Agent], a
    timeout of ten seconds, and for the search page with its parameters, or
    without parameters for an address of the site, or without parameters and
    streamed for an address that names the image host. *)
Definition expected (r : Request) : Prop :=
  headers r = [("User-Agent", user_agent)]
  ∧ timeout r = Some 10%Z
  ∧ ((url r = "https://www.pokellector.com/search" ∧ stream r = false)
     ∨ (String.prefix "https://www.pokellector.com/" (url r) = true
        ∧ params r = [] ∧ stream r = false)
     ∨ (Py.contains image_host (url r) = true
        ∧ params r = [] ∧ stream r = true)).

(** Counts that stay or go up by one, from a start. *)
Fixpoint running (start : Z) (counts : list Z) : Prop :=
  match counts with
  | [] => True
  | n :: rest => (n = start ∨ n = (start + 1)%Z) ∧ running n rest
  end.

(** * Properties *)

(** ** The monad *)

Lemma logged_nil st : logged [] st = st.
Proof. destruct st; unfold logged; simpl. by rewrite app_nil_r. Qed.

Lemma logged_logged a b st : logged b (logged a st) = logged (a ++ b) st.
Proof. unfold logged; simpl. by rewrite app_assoc. Qed.

Lemma record_logged e st : record e st = (Returned tt, logged [e] st).
Proof. reflexivity. Qed.

Lemma print_logged m st : print m st = (Returned tt, logged [Printed m] st).
Proof. reflexivity. Qed.

Lemma bind_returned {A B} (m : Run A) (k : A → Run B) st a st' :
  m st = (Returned a, st') → bind m k st = k a st'.
Proof. intros H. unfold bind. by rewrite H. Qed.

Lemma bind_raised {A B} (m : Run A) (k : A → Run B) st e st' :
  m st = (Raised e, st') → bind m k st = (Raised e, st').
Proof. intros H. unfold bind. by rewrite H. Qed.

(** What [requests.get] does, by the answer of the site. *)
Lemma requests_get_failure site r reason st :
  site r = Failure reason →
  requests_get site r st
  = (Raised (RequestException reason), logged [Requested r] st).
Proof. intros H. unfold requests_get, bind. simpl. by rewrite H. Qed.

Lemma requests_get_success site r response st :
  site r = Success response →
  requests_get site r st = (Returned response, logged [Requested r] st).
Proof. intros H. unfold requests_get, bind. simpl. by rewrite H. Qed.

Lemma attempt_get_failure site r reason st :
  site r = Failure reason →
  attempt (requests_get site r) st
  = (Returned (inl (RequestException reason)), logged [Requested r] st).
Proof.
  intros H. unfold attempt. by rewrite (requests_get_failure _ _ _ _ H).
Qed.

Lemma attempt_get_success site r response st :
  site r = Success response →
  attempt (requests_get site r) st
  = (Returned (inr response), logged [Requested r] st).
Proof.
  intros H. unfold attempt. by rewrite (requests_get_success _ _ _ _ H).
Qed.

(** ** Strings *)

Lemma host_in_nonempty (s : string) :
  Py.contains image_host s = true → truthy s = true.
Proof. destruct s; [discriminate | reflexivity]. Qed.

(** ** The detail page extractor *)

Lemma get_card_image_url_success site card_url pokemon_name st response :
  site (card_page_request card_url) = Success response →
  get_card_image_url site card_url pokemon_name st
  = (Returned (image_url_of (soup response)),
     logged [Requested (card_page_request card_url)] st).
Proof.
  intros H. unfold get_card_image_url.
  by rewrite (bind_returned _ _ _ _ _ (attempt_get_success _ _ _ _ H)).
Qed.

Lemma get_card_image_url_failure site card_url pokemon_name st reason :
  site (card_page_request card_url) = Failure reason →
  get_card_image_url site card_url pokemon_name st
  = (Returned None,
     logged [Requested (card_page_request card_url);
             Printed (NetworkErrorFetchingCardPage (RequestException reason))]
            st).
Proof.
  intros H. unfold get_card_image_url.
  rewrite (bind_returned _ _ _ _ _ (attempt_get_failure _ _ _ _ H)).
  unfold bind. rewrite print_logged. by rewrite logged_logged.
Qed.

(** The nested conditionals of the source are the three tiers in order. *)
Lemma image_url_of_tiers page :
  image_url_of page = Tiers.first_success Tiers.in_order page.
Proof.
  unfold image_url_of, Tiers.in_order, Tiers.first_success,
    Tiers.card_region, Tiers.metadata, Tiers.meta_content.
  fold (Tiers.page_scan page).
  assert (Hscan : match Tiers.page_scan page with
                  | Some url => Some url | None => None end
                  = Tiers.page_scan page) by (by destruct (Tiers.page_scan page)).
  rewrite Hscan. clear Hscan.
  assert (Htruthy : ∀ s, truthy s && Py.contains image_host s
                         = Py.contains image_host s).
  { intros s. destruct (Py.contains image_host s) eqn:E.
    - by rewrite (host_in_nonempty _ E).
    - by rewrite andb_false_r. }
  destruct (Soup.find page "div" _) as [card_div|];
    [destruct (Soup.find card_div "img" _) as [img|]|];
    cbv zeta;
    repeat match goal with
      | |- context [match Soup.find ?p ?n ?f with _ => _ end] =>
          destruct (Soup.find p n f)
      | |- context [match Soup.get ?m ?k with _ => _ end] =>
          destruct (Soup.get m k)
      end;
    rewrite ?Htruthy;
    repeat match goal with
      | |- context [if ?b then _ else _] => destruct b
      end; reflexivity.
Qed.

(** ** Trees *)

Lemma node_induction (P : Soup.node → Prop) :
  (∀ text, P (Soup.NavigableString text)) →
  (∀ name attrs contents, Forall P contents → P (Soup.Tag name attrs contents)) →
  ∀ n, P n.
Proof.
  intros Htext Htag. fix IH 1. intros [text | name attrs contents].
  - apply Htext.
  - apply Htag. induction contents as [| child rest IHrest].
    + constructor.
    + constructor; [apply IH | exact IHrest].
Qed.

Lemma descendants_tag name attrs contents :
  Soup.descendants (Soup.Tag name attrs contents)
  = flat_map (fun child => child :: Soup.descendants child) contents.
Proof.
  simpl. induction contents as [| child rest IH]; [reflexivity |].
  simpl. by rewrite IH.
Qed.

(** What lies below a descendant lies below the root. *)
Lemma descendants_transitive root :
  ∀ d n, In d (Soup.descendants root) → In n (Soup.descendants d) →
         In n (Soup.descendants root).
Proof.
  induction root as [text | name attrs contents IH] using node_induction;
    intros d n Hd Hn.
  - destruct Hd.
  - rewrite descendants_tag in *.
    apply in_flat_map in Hd as (child & Hchild & Hd).
    apply in_flat_map. exists child. split; [exact Hchild |].
    rewrite Forall_forall in IH.
    destruct Hd as [-> | Hd].
    + by right.
    + right. apply (IH child (proj2 (list_elem_of_In _ _) Hchild) d n Hd Hn).
Qed.

Lemma find_some root name fs n :
  Soup.find root name fs = Some n →
  In n (Soup.descendants root) ∧ Soup.selects name fs n = true.
Proof. unfold Soup.find. apply List.find_some. Qed.

Lemma selects_tag_name name fs n :
  Soup.selects name fs n = true → Soup.tag_name n = Some name.
Proof.
  unfold Soup.selects. destruct (Soup.tag_name n) as [name' |]; [| discriminate].
  intros H. apply andb_prop in H as [H _].
  apply String.eqb_eq in H. by subst.
Qed.

Lemma selects_equals name key value n :
  Soup.selects name [Soup.Equals key value] n = true →
  Soup.get n key = Some value.
Proof.
  unfold Soup.selects. destruct (Soup.tag_name n); [| discriminate].
  simpl. intros H. apply andb_prop in H as [_ H].
  rewrite andb_true_r in H. destruct (Soup.get n key); [| discriminate].
  apply String.eqb_eq in H. by subst.
Qed.

(** ** C1: the card region comes first *)




(** ** C2: nothing on the image host, no address *)

(** C2. On a detail page where no image source and no content of an
    [og:image] or [itemprop=image] meta tag names the image host,
    [get_card_image_url] returns none; and it returns none whenever none of
    the three tiers gives an address. *)
Theorem no_host_reference_gives_none
    (site : remote) (card_url pokemon_name : string) (st : State)
    (response : Response) :
  site (card_page_request card_url) = Success response →
  (∀ img, In img (Soup.descendants (soup response)) →
          Soup.tag_name img = Some "img" →
          Py.contains image_host (Soup.get_or img "src" "") = false) →
  (∀ meta content,
     In meta (Soup.descendants (soup response)) →
     Soup.tag_name meta = Some "meta" →
     Soup.get meta "property" = Some "og:image"
     ∨ Soup.get meta "itemprop" = Some "image" →
     Soup.get meta "content" = Some content →
     Py.contains image_host content = false) →
  fst (get_card_image_url site card_url pokemon_name st) = Returned None
  ∧ (Tiers.card_region (soup response) = None →
     Tiers.metadata (soup response) = None →
     Tiers.page_scan (soup response) = None →
     ∀ st', fst (get_card_image_url site card_url pokemon_name st')
            = Returned None).
Proof.
  intros Hsite Himgs Hmetas. split.
  2: { intros H1 H2 H3 st'.
       rewrite (get_card_image_url_success _ _ _ _ _ Hsite). simpl.
       rewrite image_url_of_tiers. unfold Tiers.in_order, Tiers.first_success.
       by rewrite H1, H2, H3. }
  rewrite (get_card_image_url_success _ _ _ _ _ Hsite). simpl.
  set (page := soup response) in *.
  assert (Hscan : Tiers.page_scan page = None).
  { unfold Tiers.page_scan.
    destruct (List.find _ _) as [src |] eqn:E; [| reflexivity].
    apply List.find_some in E as [Hin Hok].
    apply in_map_iff in Hin as (img & <- & Hin).
    apply filter_In in Hin as [Hin Hsel].
    apply selects_tag_name in Hsel.
    by rewrite (Himgs img Hin Hsel) in Hok. }
  assert (Hmeta : ∀ f, f = Soup.Equals "property" "og:image"
                       ∨ f = Soup.Equals "itemprop" "image" →
                       Tiers.meta_content page f = None).
  { intros f Hf. unfold Tiers.meta_content.
    destruct (Soup.find page "meta" [f]) as [meta |] eqn:E; [| reflexivity].
    apply find_some in E as [Hin Hsel].
    destruct (Soup.get meta "content") as [content |] eqn:Hc; [| reflexivity].
    rewrite (Hmetas meta content Hin (selects_tag_name _ _ _ Hsel)); auto.
    destruct Hf as [-> | ->]; [left | right]; by apply selects_equals in Hsel. }
  assert (Hregion : Tiers.card_region page = None).
  { unfold Tiers.card_region.
    destruct (Soup.find page "div" _) as [region |] eqn:Ed; [| reflexivity].
    destruct (Soup.find region "img" []) as [img |] eqn:Ei; [| reflexivity].
    apply find_some in Ed as [Hd _]. apply find_some in Ei as [Hi Hsel].
    cbv zeta.
    rewrite (Himgs img (descendants_transitive _ _ _ Hd Hi)
               (selects_tag_name _ _ _ Hsel)).
    reflexivity. }
  rewrite image_url_of_tiers. unfold Tiers.in_order, Tiers.first_success.
  rewrite Hregion. unfold Tiers.metadata.
  rewrite !Hmeta by auto. by rewrite Hscan.
Qed.

Lemma no_host_reference_gives_none_witness :
  fst (get_card_image_url Sample.foreign_site
         "https://www.pokellector.com/Base-Set-Expansion/Pikachu-Card-58"
         "Pikachu" (Sample.fresh []))
  = Returned None.
Proof.
  refine (proj1 (no_host_reference_gives_none Sample.foreign_site _ "Pikachu"
                   (Sample.fresh [])
                   {| soup := Sample.foreign_page; chunks := [];
                      broken := None |} _ _ _)).
  - reflexivity.
  - intros img Hin Hname. vm_compute in Hin.
    repeat (destruct Hin as [<- | Hin]; [try discriminate Hname; vm_compute; reflexivity |]).
    destruct Hin.
  - intros meta content Hin Hname _ Hcontent. vm_compute in Hin.
    repeat (destruct Hin as [<- | Hin];
            [try discriminate Hname; vm_compute in Hcontent;
             injection Hcontent as <-; vm_compute; reflexivity |]).
    destruct Hin.
Defined.

(** ** The matcher agrees with the words of a regex *)

Lemma append_empty (s1 s2 : string) :
  s1 +:+ s2 = "" → s1 = "" ∧ s2 = "".
Proof. destruct s1; [intros H; split; [reflexivity | exact H] | discriminate]. Qed.

Lemma append_string (c : ascii) (s t : string) :
  String c s +:+ t = String c (s +:+ t).
Proof. reflexivity. Qed.

Lemma append_empty_l (s : string) : "" +:+ s = s.
Proof. reflexivity. Qed.

Lemma append_empty_r (s : string) : s +:+ "" = s.
Proof.
  induction s as [| c s IH]; [reflexivity |].
  by rewrite append_string, IH.
Qed.

Lemma append_assoc (s1 s2 s3 : string) :
  (s1 +:+ s2) +:+ s3 = s1 +:+ (s2 +:+ s3).
Proof.
  induction s1 as [| c s1 IH]; [reflexivity |].
  by rewrite !append_string, IH.
Qed.

Lemma append_cons (c : ascii) (s s1 s2 : string) :
  String c s = s1 +:+ s2 →
  (s1 = "" ∧ s2 = String c s) ∨ (∃ s1', s1 = String c s1' ∧ s = s1' +:+ s2).
Proof.
  destruct s1 as [| c1 s1']; intros H.
  - left. split; [reflexivity | symmetry; exact H].
  - right. rewrite append_string in H. injection H as -> ->. eauto.
Qed.

Lemma nullable_lang r : Re.nullable r = true ↔ Re.lang r "".
Proof.
  split.
  - induction r; simpl; intros H; try discriminate.
    + constructor.
    + apply andb_prop in H as [H1 H2].
      change "" with ("" +:+ ""). constructor; auto.
    + apply orb_prop in H as [H | H];
        [apply Re.lang_alt_l | apply Re.lang_alt_r]; auto.
    + constructor.
  - induction r; simpl; intros H; inversion H; subst; auto.
    + match goal with E : _ +:+ _ = "" |- _ =>
        apply append_empty in E as [-> ->] end.
      rewrite IHr1, IHr2; auto.
    + rewrite IHr1; auto.
    + rewrite IHr2; auto with bool.
Qed.

Lemma star_cons_inv r c s :
  Re.lang (Re.Star r) (String c s) →
  ∃ s1 s2, s = s1 +:+ s2 ∧ Re.lang r (String c s1) ∧ Re.lang (Re.Star r) s2.
Proof.
  intros H. remember (Re.Star r) as star eqn:Estar.
  remember (String c s) as word eqn:Eword.
  revert s Eword.
  induction H as [| | | | | | r' s1 s2 H1 _ H2 IH2]; intros w Eword;
    try discriminate.
  injection Estar as ->. symmetry in Eword.
  destruct (append_cons _ _ _ _ Eword) as [[-> ->] | (s1' & -> & ->)].
  - apply IH2; auto.
  - eauto.
Qed.

Lemma deriv_lang c r : ∀ s, Re.lang (Re.deriv c r) s ↔ Re.lang r (String c s).
Proof.
  induction r as [| | p | r1 IH1 r2 IH2 | r1 IH1 r2 IH2 | r IH];
    intros s; simpl.
  - split; intros H; inversion H.
  - split; intros H; inversion H.
  - destruct (p c) eqn:Ep; split; intros H; inversion H; subst.
    + by constructor.
    + constructor.
    + congruence.
  - assert (Hleft : ∀ s, Re.lang (Re.Seq (Re.deriv c r1) r2) s →
                         Re.lang (Re.Seq r1 r2) (String c s)).
    { intros w H. inversion H; subst.
      change (String c (s1 +:+ s2)) with (String c s1 +:+ s2).
      constructor; [by apply IH1 | assumption]. }
    assert (Hback : ∀ s, Re.lang (Re.Seq r1 r2) (String c s) →
                         Re.lang (Re.Seq (Re.deriv c r1) r2) s
                         ∨ (Re.lang r1 "" ∧ Re.lang (Re.deriv c r2) s)).
    { intros w H. inversion H as [| | ? ? s1 s2 H1 H2 | | | |]; subst.
      match goal with E : _ +:+ _ = String _ _ |- _ =>
        symmetry in E;
        destruct (append_cons _ _ _ _ E) as [[-> ->] | (s1' & -> & ->)]
      end.
      - right. split; [assumption | by apply IH2].
      - left. constructor; [by apply IH1 | assumption]. }
    destruct (Re.nullable r1) eqn:En; split; intros H.
    + inversion H; subst; [by apply Hleft |].
      change (String c s) with ("" +:+ String c s).
      constructor; [by apply nullable_lang | by apply IH2].
    + destruct (Hback _ H) as [H' | [_ H']];
        [by apply Re.lang_alt_l | by apply Re.lang_alt_r].
    + by apply Hleft.
    + destruct (Hback _ H) as [H' | [H' _]]; [assumption |].
      apply nullable_lang in H'. congruence.
  - split; intros H; inversion H; subst.
    + apply Re.lang_alt_l. by apply IH1.
    + apply Re.lang_alt_r. by apply IH2.
    + apply Re.lang_alt_l. by apply IH1.
    + apply Re.lang_alt_r. by apply IH2.
  - split; intros H.
    + inversion H; subst.
      change (String c (s1 +:+ s2)) with (String c s1 +:+ s2).
      constructor; [by apply IH | assumption].
    + destruct (star_cons_inv _ _ _ H) as (s1 & s2 & -> & H1 & H2).
      constructor; [by apply IH | assumption].
Qed.

Lemma fullmatch_lang s : ∀ r, Re.fullmatch r s = true ↔ Re.lang r s.
Proof.
  induction s as [| c s IH]; intros r; simpl.
  - apply nullable_lang.
  - rewrite IH. apply deriv_lang.
Qed.

Lemma prefixmatch_lang s :
  ∀ r, Re.prefixmatch r s = true ↔ ∃ p q, s = p +:+ q ∧ Re.lang r p.
Proof.
  induction s as [| c s IH]; intros r; simpl.
  - rewrite orb_false_r, nullable_lang. split.
    + intros H. by exists "", "".
    + intros (p & q & E & H). symmetry in E.
      by apply append_empty in E as [-> _].
  - rewrite orb_true_iff, nullable_lang, IH. split.
    + intros [H | (p & q & -> & H)].
      * by exists "", (String c s).
      * exists (String c p), q. split; [reflexivity | by apply deriv_lang].
    + intros (p & q & E & H).
      destruct (append_cons _ _ _ _ E) as [[-> ->] | (p' & -> & ->)].
      * by left.
      * right. exists p', q. split; [reflexivity | by apply deriv_lang].
Qed.

Lemma match_to_end_lang s :
  ∀ r, Re.match_to_end r s = true
       ↔ Re.lang r s ∨ ∃ s0, s = s0 +:+ String "010" "" ∧ Re.lang r s0.
Proof.
  induction s as [| c s IH]; intros r; simpl.
  - rewrite nullable_lang. split; [auto |].
    intros [H | (s0 & E & _)]; [assumption |].
    symmetry in E. apply append_empty in E as [_ E]. discriminate.
  - rewrite orb_true_iff, !andb_true_iff, IH, nullable_lang, deriv_lang.
    rewrite Ascii.eqb_eq, String.eqb_eq. split.
    + intros [[[H ->] ->] | [H | (s0 & -> & H)]].
      * right. by exists "".
      * by left.
      * right. exists (String c s0). split; [reflexivity | by apply deriv_lang].
    + intros [H | (s0 & E & H)].
      * right. by left.
      * destruct s0 as [| c0 s0]; simpl in E.
        -- injection E as -> ->. by left.
        -- injection E as -> ->. right. right. exists s0.
           split; [reflexivity | by apply deriv_lang].
Qed.

(** Words of the shapes the three patterns are built from. *)

Lemma lang_lit w : ∀ s, Re.lang (Re.Lit w) s ↔ s = w.
Proof.
  induction w as [| c w IH]; intros s; simpl.
  - split; [intros H; by inversion H | intros ->; constructor].
  - split.
    + intros H. inversion H as [| | ? ? s1 s2 H1 H2 | | | |]; subst.
      inversion H1; subst. apply IH in H2 as ->.
      match goal with E : Ascii.eqb _ _ = true |- _ =>
        apply Ascii.eqb_eq in E as -> end.
      reflexivity.
    + intros ->. change (String c w) with (String c "" +:+ w).
      constructor; [constructor; apply Ascii.eqb_refl | by apply IH].
Qed.

Lemma lang_star_class p s :
  Re.lang (Re.Star (Re.Class p)) s ↔ all_chars p s = true.
Proof.
  split.
  - intros H. remember (Re.Star (Re.Class p)) as star eqn:E.
    induction H as [| | | | | | r s1 s2 H1 _ H2 IH2]; try discriminate.
    + reflexivity.
    + injection E as ->. inversion H1; subst.
      rewrite append_string, append_empty_l. simpl.
      rewrite IH2 by reflexivity. by rewrite andb_true_r.
  - induction s as [| c s IH]; simpl; intros H.
    + constructor.
    + apply andb_prop in H as [Hc Hs].
      change (String c s) with (String c "" +:+ s).
      constructor; [by constructor | by apply IH].
Qed.

Lemma lang_plus_class p s :
  Re.lang (Re.Plus (Re.Class p)) s ↔ s ≠ "" ∧ all_chars p s = true.
Proof.
  unfold Re.Plus. split.
  - intros H. inversion H as [| | ? ? s1 s2 H1 H2 | | | |]; subst.
    inversion H1; subst. apply lang_star_class in H2.
    rewrite append_string, append_empty_l. simpl.
    split; [discriminate | by rewrite H2, andb_true_r].
  - intros [Hne H]. destruct s as [| c s]; [congruence |].
    simpl in H. apply andb_prop in H as [Hc Hs].
    change (String c s) with (String c "" +:+ s).
    constructor; [by constructor | by apply lang_star_class].
Qed.

(** ** C3: the number of result pages *)

Lemma get_total_pages_failure site pokemon_name st reason :
  site (search_request pokemon_name 1) = Failure reason →
  get_total_pages site pokemon_name st
  = (Returned 0%Z,
     logged [Requested (search_request pokemon_name 1);
             Printed (NetworkErrorDuringPaginationCheck
                        (RequestException reason))] st).
Proof.
  intros H. unfold get_total_pages.
  rewrite (bind_returned _ _ _ _ _ (attempt_get_failure _ _ _ _ H)).
  unfold bind. rewrite print_logged. by rewrite logged_logged.
Qed.

Lemma get_total_pages_success site pokemon_name st response :
  site (search_request pokemon_name 1) = Success response →
  get_total_pages site pokemon_name st
  = (Returned (fold_left keep_max_page (hrefs (soup response)) 1%Z),
     logged [Requested (search_request pokemon_name 1)] st).
Proof.
  intros H. unfold get_total_pages.
  by rewrite (bind_returned _ _ _ _ _ (attempt_get_success _ _ _ _ H)).
Qed.

Lemma search_from_some r s matched :
  Re.search_from r s = Some matched →
  Re.prefixmatch r matched = true ∧ ∃ before, s = before +:+ matched.
Proof.
  induction s as [| c s IH]; simpl.
  - destruct (Re.nullable r || false) eqn:E; [| discriminate].
    intros [= <-]. split; [exact E | by exists ""].
  - destruct (Re.nullable r || Re.prefixmatch (Re.deriv c r) s) eqn:E.
    + intros [= <-]. split; [exact E | by exists ""].
    + intros H. destruct (IH H) as [Hm [before ->]].
      split; [exact Hm | by exists (String c before)].
Qed.

Lemma prefix_contains needle hay :
  String.prefix needle hay = true → Py.contains needle hay = true.
Proof.
  intros H. destruct hay as [| c hay]; cbn [Py.contains]; by rewrite H.
Qed.

Lemma contains_append needle before hay :
  Py.contains needle hay = true → Py.contains needle (before +:+ hay) = true.
Proof.
  intros H. induction before as [| c before IH]; [exact H |].
  rewrite append_string. simpl. rewrite IH. apply orb_true_r.
Qed.

Lemma one_of_two a b c :
  Re.one_of (String a (String b "")) c = true → c = a ∨ c = b.
Proof.
  unfold Re.one_of. simpl.
  destruct (ascii_dec c a) as [-> |]; [by left |].
  destruct (ascii_dec c b) as [-> |]; [by right |].
  discriminate.
Qed.

(** A match of the page pattern starts with [?p=] or with [&p=]. *)
Lemma page_pattern_start matched :
  Re.prefixmatch page_pattern matched = true →
  String.prefix "?p=" matched = true ∨ String.prefix "&p=" matched = true.
Proof.
  intros H. apply prefixmatch_lang in H as (p & q & -> & H).
  unfold page_pattern in H.
  inversion H as [| | ? ? s1 s2 H1 H2 | | | |]; subst.
  inversion H1 as [| ? c Hc | | | | |]; subst.
  inversion H2 as [| | ? ? s3 s4 H3 H4 | | | |]; subst.
  apply (lang_lit "p=") in H3 as ->.
  destruct (one_of_two _ _ _ Hc) as [-> | ->]; [left | right];
    repeat (rewrite ?append_string, ?append_empty_l);
    destruct (s4 +:+ q); reflexivity.
Qed.

(** The test before the search never hides a page number. *)
Lemma keep_max_page_page_number max_page href :
  keep_max_page max_page href
  = match page_number href with
    | Some page_num => Z.max max_page page_num
    | None => max_page
    end.
Proof.
  unfold keep_max_page.
  destruct (page_number href) as [n |] eqn:E;
    [| by destruct (Py.contains "?p=" href || Py.contains "&p=" href)].
  unfold page_number in E.
  destruct (Re.search_from page_pattern href) as [matched |] eqn:Es;
    [| discriminate].
  apply search_from_some in Es as [Hm [before ->]].
  destruct (page_pattern_start _ Hm) as [Hp | Hp];
    apply prefix_contains, (contains_append _ before) in Hp; rewrite Hp;
    [reflexivity | by rewrite orb_true_r].
Qed.

Lemma fold_keep_max_page links : ∀ max_page,
  fold_left keep_max_page links max_page
  = fold_left Z.max (omap page_number links) max_page.
Proof.
  induction links as [| href links IH]; intros max_page; [reflexivity |].
  simpl. rewrite IH, keep_max_page_page_number.
  by destruct (page_number href).
Qed.

Lemma fold_max_out numbers : ∀ a b,
  fold_left Z.max numbers (Z.max a b) = Z.max a (fold_left Z.max numbers b).
Proof.
  induction numbers as [| n numbers IH]; intros a b; [reflexivity |].
  simpl. by rewrite <- Z.max_assoc, IH.
Qed.

Lemma fold_max_from_one numbers :
  fold_left Z.max numbers 1%Z = Z.max 1 (maximum 1 numbers).
Proof.
  destruct numbers as [| n numbers]; [reflexivity |].
  simpl. apply fold_max_out.
Qed.

(** [maximum] is the largest member of a list that has one. *)
Lemma fold_max_bounds numbers : ∀ start,
  (start ≤ fold_left Z.max numbers start)%Z
  ∧ (∀ n, In n numbers → (n ≤ fold_left Z.max numbers start)%Z)
  ∧ (fold_left Z.max numbers start = start
     ∨ In (fold_left Z.max numbers start) numbers).
Proof.
  induction numbers as [| m numbers IH]; intros start; simpl.
  - split; [lia | split; [tauto | by left]].
  - destruct (IH (Z.max start m)) as (Hle & Hall & Hmem).
    split; [lia | split].
    + intros n [<- | Hn]; [lia | by apply Hall].
    + destruct Hmem as [Hmem | Hmem]; [| by right; right].
      rewrite Hmem. destruct (Z.max_spec start m) as [[_ ->] | [_ ->]];
        [right; by left | by left].
Qed.

Lemma maximum_is_largest fallback n numbers :
  In (maximum fallback (n :: numbers)) (n :: numbers)
  ∧ ∀ m, In m (n :: numbers) → (m ≤ maximum fallback (n :: numbers))%Z.
Proof.
  simpl. destruct (fold_max_bounds numbers n) as (Hle & Hall & Hmem).
  split.
  - destruct Hmem as [-> | Hmem]; [by left | by right].
  - intros m [<- | Hm]; [exact Hle | by apply Hall].
Qed.

(** C3, as the code has it. [get_total_pages] returns 0 when the fetch of
    page 1 fails; otherwise it returns the larger of 1 and the largest page
    number it reads from the links, so 1 when it reads none. The page number
    of a link is what [int] makes of the decimal digits, of any script, after
    the first [?p=] or [&p=] that a digit follows; from more than 4300 digits
    [int] makes nothing, and the link is passed over. *)
Theorem total_pages_is_largest_page_or_one
    (site : remote) (pokemon_name : string) (st : State) :
  fst (get_total_pages site pokemon_name st)
  = Returned
      match site (search_request pokemon_name 1) with
      | Failure _ => 0%Z
      | Success response =>
          Z.max 1 (maximum 1 (pages_observed (soup response)))
      end.
Proof.
  destruct (site (search_request pokemon_name 1)) as [reason | response] eqn:E.
  - by rewrite (get_total_pages_failure _ _ _ _ E).
  - rewrite (get_total_pages_success _ _ _ _ E). simpl.
    by rewrite fold_keep_max_page, fold_max_from_one.
Qed.

(** C3, as stated, fails: the only page number on this result page is 0, so
    0 is the largest page number observed, and the function returns 1. *)
Lemma total_pages_not_largest_page_observed :
  pages_observed Sample.page_zero = [0%Z]
  ∧ fst (get_total_pages Sample.page_zero_site "pikachu" (Sample.fresh []))
    = Returned 1%Z
  ∧ fst (get_total_pages Sample.page_zero_site "pikachu" (Sample.fresh []))
    ≠ Returned (maximum 1 (pages_observed Sample.page_zero)).
Proof. vm_compute. repeat split; discriminate. Qed.

(** The example of the specification: links to pages 3 and 7 give 7. *)
Example total_pages_three_and_seven :
  pages_observed Sample.three_and_seven = [3%Z; 7%Z]
  ∧ fst (get_total_pages Sample.three_and_seven_site "pikachu"
           (Sample.fresh []))
    = Returned 7%Z.
Proof. vm_compute. split; reflexivity. Qed.

(** Digits of another script count as well. *)
Example total_pages_in_other_digits :
  pages_observed Sample.page_twelve = [12%Z]
  ∧ fst (get_total_pages Sample.page_twelve_site "pikachu" (Sample.fresh []))
    = Returned 12%Z.
Proof. vm_compute. split; reflexivity. Qed.

(** ** The downloader *)

Lemma write_pieces path pieces : ∀ st,
  for_each pieces (fun chunk _ => write path chunk) tt st
  = (Returned tt,
     {| disk := written path pieces (disk st);
        stdin := stdin st;
        log := log st ++ map (Wrote path) pieces |}).
Proof.
  induction pieces as [| piece pieces IH]; intros st.
  - simpl. unfold ret. destruct st; simpl. by rewrite app_nil_r.
  - simpl. unfold bind at 1. unfold write at 1. rewrite IH. simpl.
    by rewrite <- app_assoc.
Qed.

Lemma download_image_failure site image_url output_path st reason :
  site (image_request image_url) = Failure reason →
  download_image site image_url output_path st
  = (Returned false,
     logged [Requested (image_request image_url);
             Printed (ErrorDownloadingImage (RequestException reason))] st).
Proof.
  intros H. unfold download_image.
  rewrite (bind_returned _ _ _ _ _ (attempt_get_failure _ _ _ _ H)).
  unfold bind. rewrite print_logged. by rewrite logged_logged.
Qed.

Lemma download_image_success site image_url output_path st response :
  site (image_request image_url) = Success response →
  download_image site image_url output_path st
  = (match broken response with
     | Some reason => Raised (RequestException reason)
     | None => Returned true
     end,
     {| disk := written output_path (chunks response)
                 (<[output_path := ""]> (disk st));
        stdin := stdin st;
        log := log st ++ Requested (image_request image_url)
                 :: Opened output_path
                 :: map (Wrote output_path) (chunks response) |}).
Proof.
  intros H. unfold download_image.
  rewrite (bind_returned _ _ _ _ _ (attempt_get_success _ _ _ _ H)).
  unfold bind at 1. unfold open_wb. unfold write_body.
  unfold bind at 1. unfold bind at 1. rewrite write_pieces. simpl.
  rewrite <- !app_assoc. simpl.
  by destruct (broken response).
Qed.

(** ** C10: the timeout of the image download *)

(** C10, as the code has it. The first thing [download_image] does is its
    one request, a streamed GET that carries an explicit timeout of 10
    seconds, the same as the requests for result pages and detail pages. *)
Theorem image_download_has_ten_second_timeout
    (site : remote) (image_url output_path : string) (st : State) :
  (∃ later,
     log (snd (download_image site image_url output_path st))
     = (log st ++ Requested (image_request image_url) :: later)%list
     ∧ requests later = [])
  ∧ stream (image_request image_url) = true
  ∧ timeout (image_request image_url) = Some 10%Z
  ∧ (∀ pokemon_name page,
       timeout (search_request pokemon_name page)
       = timeout (image_request image_url))
  ∧ (∀ card_url,
       timeout (card_page_request card_url)
       = timeout (image_request image_url)).
Proof.
  split; [| repeat split].
  destruct (site (image_request image_url)) as [reason | response] eqn:E.
  - rewrite (download_image_failure _ _ _ _ _ E). simpl. eauto.
  - rewrite (download_image_success _ _ _ _ _ E). simpl.
    eexists. split; [reflexivity |].
    unfold requests. simpl. induction (chunks response); [reflexivity | assumption].
Qed.

(** C10, as stated, fails: the streamed request of [download_image] does
    name a timeout. *)
Lemma image_download_timeout_is_not_left_out :
  requests (log (snd (download_image Sample.down Sample.pikachu_png
                        "./cards/Pikachu.BS.58.png" (Sample.fresh []))))
  = [image_request Sample.pikachu_png]
  ∧ stream (image_request Sample.pikachu_png) = true
  ∧ timeout (image_request Sample.pikachu_png) ≠ None.
Proof. repeat split. discriminate. Qed.

(** ** C4: the links of a result page *)

Lemma search_pokemon_cards_failure site pokemon_name page st reason :
  site (search_request pokemon_name page) = Failure reason →
  search_pokemon_cards site pokemon_name page st
  = (Returned [],
     logged [Requested (search_request pokemon_name page);
             Printed (NetworkErrorDuringSearch (RequestException reason))] st).
Proof.
  intros H. unfold search_pokemon_cards.
  rewrite (bind_returned _ _ _ _ _ (attempt_get_failure _ _ _ _ H)).
  unfold bind. rewrite print_logged. by rewrite logged_logged.
Qed.

Lemma search_pokemon_cards_success site pokemon_name page st response :
  site (search_request pokemon_name page) = Success response →
  search_pokemon_cards site pokemon_name page st
  = (Returned (fold_left keep_card_link (hrefs (soup response)) []),
     logged [Requested (search_request pokemon_name page)] st).
Proof.
  intros H. unfold search_pokemon_cards.
  by rewrite (bind_returned _ _ _ _ _ (attempt_get_success _ _ _ _ H)).
Qed.

(** The list of links never holds an address twice. *)
Lemma keep_card_link_NoDup links : ∀ card_links,
  NoDup card_links → NoDup (fold_left keep_card_link links card_links).
Proof.
  induction links as [| href links IH]; intros card_links Hnd; [exact Hnd |].
  simpl. apply IH. unfold keep_card_link.
  destruct (Re.prefixmatch card_link_pattern href); [| exact Hnd].
  case_bool_decide as Hin; [exact Hnd |].
  apply NoDup_app. split; [exact Hnd |].
  split; [| apply NoDup_singleton].
  intros x Hx Hx'. apply list_elem_of_singleton in Hx'. by subst.
Qed.

(** C4 at a link with [#] inside its card segment. The pattern accepts the
    link, the fragment is cut from the first [#], and the address returned
    has a path that is not of the shape of a detail link. *)
Theorem card_link_with_early_fragment :
  hrefs Sample.fragment_page = ["/Base-Set-Expansion/Pikachu#top-Card-58"]
  ∧ fst (search_pokemon_cards Sample.fragment_site "pikachu" 1
           (Sample.fresh []))
    = Returned ["https://www.pokellector.com/Base-Set-Expansion/Pikachu"]
  ∧ Re.prefixmatch card_link_pattern "/Base-Set-Expansion/Pikachu" = false.
Proof. vm_compute. repeat split. Qed.

(** ** The script computes the traces *)

Ltac same_state :=
  unfold logged; simpl; repeat rewrite <- app_assoc; simpl; try reflexivity.

(** Running the monad's plumbing. *)
Ltac run :=
  cbv beta iota zeta
      delta [bind print record sleep mkdir ret raise attempt is_Exception
             path_exists logged out_of_fuel];
  cbn [disk stdin log fst snd].

Lemma search_pokemon_cards_trace site pokemon_name page st :
  search_pokemon_cards site pokemon_name page st
  = (Returned (page_links site pokemon_name page),
     logged (Requested (search_request pokemon_name page)
             :: complaint site (search_request pokemon_name page)
                  NetworkErrorDuringSearch) st).
Proof.
  unfold page_links, complaint.
  destruct (site (search_request pokemon_name page)) as [reason | response] eqn:E.
  - apply (search_pokemon_cards_failure _ _ _ _ _ E).
  - apply (search_pokemon_cards_success _ _ _ _ _ E).
Qed.

Lemma scrape_page_trace site pokemon_name total_pages page urls st :
  scrape_page site pokemon_name total_pages page urls st
  = (Returned (urls ∪ list_to_set (page_links site pokemon_name page)),
     logged (page_events site pokemon_name total_pages page) st).
Proof.
  unfold scrape_page, bind at 1. rewrite print_logged.
  unfold bind at 1. rewrite search_pokemon_cards_trace.
  unfold bind, sleep, ret. rewrite record_logged.
  rewrite !logged_logged. reflexivity.
Qed.

Lemma page_loop_trace site pokemon_name total_pages pages : ∀ urls st,
  for_each pages (scrape_page site pokemon_name total_pages) urls st
  = (Returned (links_of_pages site pokemon_name pages urls),
     logged (concat (map (page_events site pokemon_name total_pages) pages))
            st).
Proof.
  induction pages as [| page pages IH]; intros urls st.
  - simpl. unfold ret. by rewrite logged_nil.
  - simpl. unfold bind. rewrite scrape_page_trace, IH.
    by rewrite logged_logged.
Qed.

Lemma get_card_image_url_trace site card_url pokemon_name st :
  get_card_image_url site card_url pokemon_name st
  = (Returned (image_of site card_url),
     logged (Requested (card_page_request card_url)
             :: complaint site (card_page_request card_url)
                  NetworkErrorFetchingCardPage) st).
Proof.
  unfold image_of, complaint.
  destruct (site (card_page_request card_url)) as [reason | response] eqn:E.
  - apply (get_card_image_url_failure _ _ _ _ _ E).
  - apply (get_card_image_url_success _ _ _ _ _ E).
Qed.

Lemma get_total_pages_trace site pokemon_name st :
  get_total_pages site pokemon_name st
  = (Returned (total_pages_of site pokemon_name),
     logged (Requested (search_request pokemon_name 1)
             :: complaint site (search_request pokemon_name 1)
                  NetworkErrorDuringPaginationCheck) st).
Proof.
  unfold total_pages_of, complaint.
  destruct (site (search_request pokemon_name 1)) as [reason | response] eqn:E.
  - apply (get_total_pages_failure _ _ _ _ E).
  - apply (get_total_pages_success _ _ _ _ E).
Qed.

(** The directories a log shows, part by part. *)
Lemma made_dirs_app events later :
  made_dirs (events ++ later) = made_dirs events ++ made_dirs later.
Proof. unfold made_dirs. apply omap_app. Qed.

Lemma made_dirs_cons e events :
  made_dirs (e :: events)
  = match e with
    | MadeDir path => path :: made_dirs events
    | _ => made_dirs events
    end.
Proof. by destruct e. Qed.

Lemma made_dirs_complaint site r m : made_dirs (complaint site r m) = [].
Proof. unfold complaint. by destruct (site r). Qed.

Lemma made_dirs_wrote path pieces : made_dirs (map (Wrote path) pieces) = [].
Proof. by induction pieces. Qed.

(** The card loop makes no directory. *)
Lemma made_dirs_card_events site made output_dir count item downloaded d :
  made_dirs (card_events site made output_dir count item downloaded d) = [].
Proof.
  unfold card_events.
  change (made_dirs (?a :: ?b :: ?l)) with (made_dirs l).
  rewrite !made_dirs_app, made_dirs_complaint. cbn [app].
  rewrite app_nil_r. unfold card_step.
  destruct (image_of site (snd item)) as [image_url |]; [| reflexivity].
  destruct (truthy image_url); [| reflexivity].
  cbv zeta. destruct (present _ _ _); [reflexivity |].
  destruct (site (image_request image_url)) as [reason | response];
    [reflexivity |].
  destruct (broken response); cbn [snd]; rewrite made_dirs_app;
    change (made_dirs (?a :: ?b :: ?l)) with (made_dirs l);
    by rewrite made_dirs_wrote.
Qed.

Lemma made_dirs_page_events site pokemon_name total_pages pages :
  made_dirs (concat (map (page_events site pokemon_name total_pages) pages))
  = [].
Proof.
  induction pages as [| page pages IH]; [reflexivity |].
  cbn [map concat]. rewrite made_dirs_app, IH, app_nil_r.
  unfold page_events.
  change (made_dirs (?a :: ?b :: ?l)) with (made_dirs l).
  by rewrite made_dirs_app, made_dirs_complaint.
Qed.

Lemma process_card_trace site pokemon_name output_dir count item downloaded st :
  process_card site pokemon_name output_dir count item downloaded st
  = (Returned (fst (fst (card_step site (made_dirs (log st)) output_dir
                           (snd item) downloaded (disk st)))),
     {| disk := snd (fst (card_step site (made_dirs (log st)) output_dir
                            (snd item) downloaded (disk st)));
        stdin := stdin st;
        log := log st
               ++ card_events site (made_dirs (log st)) output_dir count item
                    downloaded (disk st) |}).
Proof.
  destruct item as [idx card_url].
  unfold process_card, fetch_card, card_events. cbn [fst snd].
  unfold card_step, output_path_of, filename_of.
  run. rewrite get_card_image_url_trace. run.
  destruct (image_of site card_url) as [image_url |];
    [destruct (truthy image_url) |]; run.
  2, 3: f_equal; same_state.
  rewrite !made_dirs_app, !made_dirs_cons, made_dirs_complaint.
  change (made_dirs []) with (@nil string). rewrite !app_nil_r.
  match goal with
  | |- context [present ?m ?d ?q] => destruct (present m d q)
  end; run; [f_equal; same_state |].
  destruct (site (image_request image_url)) as [reason | response] eqn:E.
  { rewrite (download_image_failure _ _ _ _ _ E). run. f_equal. same_state. }
  rewrite (download_image_success _ _ _ _ _ E).
  destruct (broken response) as [reason |]; run; f_equal; same_state.
Qed.

Lemma card_loop_trace site pokemon_name output_dir count items :
  ∀ downloaded st,
  for_each items (process_card site pokemon_name output_dir count)
           downloaded st
  = (Returned (fst (fst (cards_run site (made_dirs (log st)) output_dir count
                           items downloaded (disk st)))),
     {| disk := snd (fst (cards_run site (made_dirs (log st)) output_dir count
                            items downloaded (disk st)));
        stdin := stdin st;
        log := log st
               ++ snd (cards_run site (made_dirs (log st)) output_dir count
                         items downloaded (disk st)) |}).
Proof.
  induction items as [| item items IH]; intros downloaded st.
  - simpl. unfold ret. destruct st; simpl. by rewrite app_nil_r.
  - cbn [for_each cards_run]. unfold bind. rewrite process_card_trace, IH.
    cbn [disk stdin log].
    rewrite made_dirs_app, made_dirs_card_events, app_nil_r.
    destruct (card_step site (made_dirs (log st)) output_dir (snd item)
                downloaded (disk st))
      as [[downloaded' d'] events] eqn:E.
    cbn [fst snd].
    destruct (cards_run site (made_dirs (log st)) output_dir count items
                downloaded' d')
      as [[final d''] later].
    cbn [fst snd]. by rewrite <- app_assoc.
Qed.

Lemma run_query_trace site pokemon_name output_dir st :
  run_query site pokemon_name output_dir st
  = (Returned (fst (fst (query_run site (made_dirs (log st)) pokemon_name
                           output_dir (disk st)))),
     {| disk := snd (fst (query_run site (made_dirs (log st)) pokemon_name
                            output_dir (disk st)));
        stdin := stdin st;
        log := log st
               ++ snd (query_run site (made_dirs (log st)) pokemon_name
                         output_dir (disk st)) |}).
Proof.
  unfold run_query, query_run. run. rewrite get_total_pages_trace. run.
  destruct (total_pages_of site pokemon_name =? 0)%Z; run;
    [f_equal; same_state |].
  rewrite page_loop_trace. run. rewrite card_loop_trace. cbn [disk stdin log].
  unfold cards_of.
  rewrite !made_dirs_app, !made_dirs_cons, made_dirs_complaint,
    made_dirs_page_events.
  change (made_dirs []) with (@nil string). rewrite !app_nil_r.
  destruct (cards_run _ _ _ _ _ _ _) as [[downloaded d'] card_log].
  cbn [fst snd]. f_equal. same_state.
Qed.

(** ** C5: a file that is there is not fetched again *)





(** Without a file and without a directory there is nothing. *)
Lemma present_none made d path :
  present made d path = false → d !! path = None.
Proof.
  unfold present. intros H. apply orb_false_elim in H as [H _].
  apply bool_decide_eq_false in H. by apply eq_None_not_Some.
Qed.











(** Every address the extractor returns names the image host. *)
Lemma image_url_of_names_host page image_url :
  image_url_of page = Some image_url →
  Py.contains image_host image_url = true.
Proof.
  rewrite image_url_of_tiers.
  unfold Tiers.in_order, Tiers.first_success, Tiers.card_region,
    Tiers.metadata, Tiers.meta_content, Tiers.page_scan.
  repeat match goal with
    | |- context [match Soup.find ?p ?n ?f with _ => _ end] =>
        destruct (Soup.find p n f)
    | |- context [match Soup.get ?m ?k with _ => _ end] =>
        destruct (Soup.get m k)
    end; cbv zeta;
  repeat match goal with
    | |- context [if ?b then _ else _] => destruct b eqn:?
    end;
  try (intros [= <-];
       repeat match goal with
         | H : _ && _ = true |- _ => apply andb_prop in H as [? ?]
         end; assumption);
  try discriminate;
  (destruct (List.find _ _) as [src |] eqn:E; [| discriminate];
   intros [= <-]; apply List.find_some in E as [_ E];
   by apply andb_prop in E as [? ?]).
Qed.






(** The output directory counts as something that is there: an image
    address that ends in a slash gives an empty file name, the path is that
    of the directory, and nothing is downloaded. *)
Example output_directory_is_there :
  let st := snd (mkdir "./cards" (Sample.fresh [])) in
  fetch_card Sample.slash_site "pikachu" "./cards"
    ("https://www.pokellector.com" +:+ Sample.card_1) 0 st
  = (Returned 0%Z,
     logged [Requested (card_page_request
                          ("https://www.pokellector.com" +:+ Sample.card_1));
             Printed (AlreadyDownloaded "")] st).
Proof. vm_compute. reflexivity. Qed.

(** ** The nested loop *)

(** White space of any script is stripped: a name between a no-break space
    and an ideographic space is accepted as it is without them, and a line
    that holds a no-break space and nothing else is blank. *)
Example strip_removes_white_space_of_any_script :
  Py.strip (Py.utf8 160 +:+ "pikachu" +:+ Py.utf8 12288) = "pikachu"
  ∧ accepted (Py.utf8 160 +:+ "pikachu" +:+ Py.utf8 12288)
  ∧ truthy (Py.strip (Py.utf8 160)) = false.
Proof. repeat split; vm_compute; reflexivity. Qed.

Lemma prompt_loop_end_of_input site argv dunder_main fuel st :
  stdin st = [] →
  prompt_loop site argv dunder_main (S fuel) st = (Raised EOFError, st).
Proof. intros H. cbn [prompt_loop]. unfold bind, input. by rewrite H. Qed.

(** A blank line ends the loop. *)
Lemma prompt_loop_blank site argv dunder_main fuel st line rest :
  stdin st = line :: rest →
  truthy (Py.strip line) = false →
  prompt_loop site argv dunder_main (S fuel) st
  = (Returned tt,
     {| disk := disk st; stdin := rest;
        log := log st ++ [Asked EnterNameOrQuit line; Printed Exiting] |}).
Proof.
  intros Hin Hblank. cbn [prompt_loop]. unfold bind, input.
  rewrite Hin, Hblank. run. f_equal. same_state.
Qed.

(** A name with a character that is not allowed is refused by the nested
    loop, which asks again without a request. *)
Lemma prompt_loop_invalid site argv dunder_main fuel st line rest :
  stdin st = line :: rest →
  truthy (Py.strip line) = true →
  is_valid_input (Py.strip line) = false →
  prompt_loop site argv dunder_main (S fuel) st
  = prompt_loop site argv dunder_main fuel
      {| disk := disk st; stdin := rest;
         log := log st ++ [Asked EnterNameOrQuit line; Printed InvalidInput] |}.
Proof.
  intros Hin Hname Hbad. cbn [prompt_loop]. unfold bind at 1. unfold input.
  rewrite Hin, Hname, Hbad. run. f_equal. same_state.
Qed.

(** An accepted name is handed to [download_pokemon_cards], and the loop
    goes on after it. *)
Lemma prompt_loop_valid site argv dunder_main fuel st line rest :
  stdin st = line :: rest →
  truthy (Py.strip line) = true →
  is_valid_input (Py.strip line) = true →
  prompt_loop site argv dunder_main (S fuel) st
  = bind (download_pokemon_cards site argv dunder_main fuel
            (Py.strip line) "./cards")
         (fun _ => prompt_loop site argv dunder_main fuel)
      {| disk := disk st; stdin := rest;
         log := log st ++ [Asked EnterNameOrQuit line] |}.
Proof.
  intros Hin Hname Hok. cbn [prompt_loop]. unfold bind at 1. unfold input.
  by rewrite Hin, Hname, Hok.
Qed.

(** ** C7: names are checked only by the nested loop *)

(** C7 at two names that are not valid. Given on the command line,
    "pika@chu" goes to [download_pokemon_cards] unchecked: the first thing on
    the network is the page count for it, eleven requests follow in all, and
    only then does the nested [main] refuse the same name. Typed at the first
    prompt, "pika/chu" is requested just the same. *)
Theorem invalid_name_reaches_the_network :
  is_valid_input "pika@chu" = false
  ∧ (let st := snd (script Sample.catalogue ["scraper.py"; "pika@chu"] true 4
                      (Sample.fresh [""])) in
     head (requests (log st)) = Some (search_request "pika@chu" 1)
     ∧ length (requests (log st)) = 11%nat
     ∧ In (Printed InvalidInput) (log st))
  ∧ is_valid_input "pika/chu" = false
  ∧ requests (log (snd (script Sample.down ["scraper.py"] true 4
                          (Sample.fresh ["pika/chu"]))))
    = [search_request "pika/chu" 1].
Proof.
  split; [reflexivity |]. split.
  - vm_compute. split; [reflexivity |]. split; [reflexivity |].
    repeat (try (left; reflexivity); right).
  - split; reflexivity.
Qed.

(** ** C8: the report of the count *)

(** C8 on the catalogue of the end-to-end scenario. The four cards are all
    downloaded and the count is reported four times, after each card, with
    the counts 1, 2, 3 and 4; on a catalogue without cards the count is
    never reported; and when the module runs as a script the report is not
    the last thing the call does. *)
Theorem count_is_reported_after_every_card :
  (let run := download_pokemon_cards Sample.catalogue ["scraper.py"] false 1
                "pikachu" "./cards" (Sample.fresh []) in
   fst run = Returned tt ∧ reports (log (snd run)) = [1; 2; 3; 4]%Z)
  ∧ (let run := download_pokemon_cards Sample.bare ["scraper.py"] false 1
                  "pikachu" "./cards" (Sample.fresh []) in
     fst run = Returned tt
     ∧ In (Printed (FoundUniqueCards 0)) (log (snd run))
     ∧ reports (log (snd run)) = [])
  ∧ (let run := script Sample.catalogue ["scraper.py"] true 4
                  (Sample.fresh ["pikachu"; ""]) in
     fst run = Returned tt
     ∧ reports (log (snd run)) = [1; 2; 3; 4]%Z
     ∧ last (log (snd run)) = Some (Printed Exiting)).
Proof.
  vm_compute. repeat split.
  repeat (try (left; reflexivity); right).
Qed.

(** ** C6: failures of the network *)

Lemma elem_links_of_pages site pokemon_name pages : ∀ start card_url,
  card_url ∈ links_of_pages site pokemon_name pages start
  ↔ card_url ∈ start
    ∨ ∃ page, In page pages ∧ In card_url (page_links site pokemon_name page).
Proof.
  unfold links_of_pages.
  induction pages as [| page pages IH]; intros start card_url.
  - simpl. split; [auto | intros [H | (? & [] & _)]; exact H].
  - cbn [fold_left].
    rewrite IH, elem_of_union, elem_of_list_to_set, list_elem_of_In. split.
    + intros [[H | H] | (p & Hp & H)]; [by left | right | right].
      * exists page. split; [by left | exact H].
      * exists p. split; [by right | exact H].
    + intros [H | (p & [<- | Hp] & H)].
      * left. by left.
      * left. by right.
      * right. eauto.
Qed.

Lemma in_sorted urls card_url : In card_url (sorted urls) ↔ card_url ∈ urls.
Proof.
  unfold sorted. rewrite <- list_elem_of_In, merge_sort_Permutation.
  apply elem_of_elements.
Qed.




Lemma total_pages_of_positive site pokemon_name :
  total_pages_of site pokemon_name ≠ 0%Z →
  (1 ≤ total_pages_of site pokemon_name)%Z.
Proof.
  unfold total_pages_of.
  destruct (site (search_request pokemon_name 1)); [done |].
  intros _. rewrite fold_keep_max_page.
  by destruct (fold_max_bounds (omap page_number (hrefs (soup response))) 1%Z)
    as [H _].
Qed.


Lemma bind_log {A B} (m : Run A) (k : A → Run B) st :
  (∃ more, log (snd (m st)) = log st ++ more) →
  (∀ a st', ∃ more, log (snd (k a st')) = log st' ++ more) →
  ∃ more, log (snd (bind m k st)) = log st ++ more.
Proof.
  intros [more Hm] Hk. unfold bind.
  destruct (m st) as [[a | e |] st']; cbn [snd] in *; [| eauto | eauto].
  destruct (Hk a st') as [more' Hk']. rewrite Hk', Hm.
  exists (more ++ more'). by rewrite app_assoc.
Qed.

Lemma bind_no_network_exception {A B} (m : Run A) (k : A → Run B) st reason :
  fst (m st) ≠ Raised (RequestException reason) →
  (∀ a st', fst (k a st') ≠ Raised (RequestException reason)) →
  fst (bind m k st) ≠ Raised (RequestException reason).
Proof.
  intros Hm Hk. unfold bind.
  destruct (m st) as [[a | e |] st']; cbn [fst] in *; [apply Hk | | ]; congruence.
Qed.

(** One step of each of the three functions that call each other. *)
Lemma download_pokemon_cards_step site argv dunder_main fuel
    pokemon_name output_dir :
  download_pokemon_cards site argv dunder_main (S fuel) pokemon_name output_dir
  = (finished <- run_query site pokemon_name output_dir ;;
     match finished with
     | None => ret tt
     | Some _ =>
         if dunder_main then main site argv dunder_main fuel else ret tt
     end).
Proof. reflexivity. Qed.

Lemma main_step site argv dunder_main fuel :
  main site argv dunder_main (S fuel)
  = ((if (1 <? length argv)%nat then
        if negb (is_valid_input (Py.strip (nth 1 argv ""))) then
          print InvalidInput
        else download_pokemon_cards site argv dunder_main fuel
               (Py.strip (nth 1 argv "")) "./cards"
      else ret tt) ;;;
     prompt_loop site argv dunder_main fuel).
Proof. reflexivity. Qed.

Lemma prompt_loop_step site argv dunder_main fuel :
  prompt_loop site argv dunder_main (S fuel)
  = (line <- input EnterNameOrQuit ;;
     if negb (truthy (Py.strip line)) then print Exiting
     else if negb (is_valid_input (Py.strip line)) then
       print InvalidInput ;;; prompt_loop site argv dunder_main fuel
     else
       download_pokemon_cards site argv dunder_main fuel
         (Py.strip line) "./cards" ;;;
       prompt_loop site argv dunder_main fuel).
Proof. reflexivity. Qed.

(** What the three functions that call each other never do: lose a line of
    the log, or let an exception of the network out. *)
Lemma nested_calls_behave site argv dunder_main fuel :
  (∀ pokemon_name output_dir st,
     (∃ more, log (snd (download_pokemon_cards site argv dunder_main fuel
                          pokemon_name output_dir st)) = log st ++ more)
     ∧ ∀ reason,
         fst (download_pokemon_cards site argv dunder_main fuel
                pokemon_name output_dir st)
         ≠ Raised (RequestException reason))
  ∧ (∀ st,
       (∃ more, log (snd (main site argv dunder_main fuel st))
                = log st ++ more)
       ∧ ∀ reason, fst (main site argv dunder_main fuel st)
                   ≠ Raised (RequestException reason))
  ∧ (∀ st,
       (∃ more, log (snd (prompt_loop site argv dunder_main fuel st))
                = log st ++ more)
       ∧ ∀ reason, fst (prompt_loop site argv dunder_main fuel st)
                   ≠ Raised (RequestException reason)).
Proof.
  induction fuel as [| fuel (IHd & IHm & IHp)].
  { repeat split; intros; cbn; try (exists []; by rewrite app_nil_r);
      discriminate. }
  assert (Hprint : ∀ m st,
            (∃ more, log (snd (print m st)) = log st ++ more)
            ∧ ∀ reason, fst (print m st) ≠ Raised (RequestException reason)).
  { intros m st. split; [by eexists | discriminate]. }
  assert (Hret : ∀ st,
            (∃ more, log (snd (ret tt st)) = log st ++ more)
            ∧ ∀ reason, fst (ret tt st) ≠ Raised (RequestException reason)).
  { intros st. split; [exists []; by rewrite app_nil_r | discriminate]. }
  split; [| split].
  - intros pokemon_name output_dir st. rewrite download_pokemon_cards_step.
    split.
    + apply bind_log.
      * rewrite run_query_trace. by eexists.
      * intros [n |] st'; [destruct dunder_main |];
          first [apply IHm | apply Hret].
    + intros reason. apply bind_no_network_exception.
      * by rewrite run_query_trace.
      * intros [n |] st'; [destruct dunder_main |];
          first [apply IHm | apply Hret].
  - intros st. rewrite main_step. split.
    + apply bind_log; [| intros; apply IHp].
      destruct (1 <? length argv)%nat; [| apply Hret].
      destruct (negb _); [apply Hprint | apply IHd].
    + intros reason. apply bind_no_network_exception; [| intros; apply IHp].
      destruct (1 <? length argv)%nat; [| apply Hret].
      destruct (negb _); [apply Hprint | apply IHd].
  - intros st. rewrite prompt_loop_step.
    assert (Hinput :
      (∃ more, log (snd (input EnterNameOrQuit st)) = log st ++ more)
      ∧ ∀ reason, fst (input EnterNameOrQuit st)
                  ≠ Raised (RequestException reason)).
    { unfold input. destruct (stdin st); cbn.
      - split; [exists []; by rewrite app_nil_r | discriminate].
      - split; [by eexists | discriminate]. }
    split.
    + apply bind_log; [apply Hinput |].
      intros line st'. destruct (negb (truthy _)); [apply Hprint |].
      destruct (negb (is_valid_input _)).
      * apply bind_log; [apply Hprint | intros; apply IHp].
      * apply bind_log; [apply IHd | intros; apply IHp].
    + intros reason. apply bind_no_network_exception; [apply Hinput |].
      intros line st'. destruct (negb (truthy _)); [apply Hprint |].
      destruct (negb (is_valid_input _)).
      * apply bind_no_network_exception; [apply Hprint | intros; apply IHp].
      * apply bind_no_network_exception; [apply IHd | intros; apply IHp].
Qed.






(** ** C9: the loop inside [download_pokemon_cards] *)

Lemma blank_answers_app a b :
  blank_answers (a ++ b) = (blank_answers a + blank_answers b)%nat.
Proof. unfold blank_answers. by rewrite List.filter_app, length_app. Qed.

Lemma queries_under_way_app a b :
  queries_under_way (a ++ b)
  = (queries_under_way a + queries_under_way b)%nat.
Proof. unfold queries_under_way. by rewrite List.filter_app, length_app. Qed.

Lemma plain_counts events :
  Forall (fun e => plain e = true) events →
  blank_answers events = 0%nat ∧ queries_under_way events = 0%nat.
Proof.
  induction 1 as [| e events He _ [IH1 IH2]]; [by split |].
  unfold blank_answers, queries_under_way in *. cbn [List.filter].
  destruct e as [| [] | | | | |]; try discriminate; by split.
Qed.

Lemma complaint_plain site r m :
  (∀ e, plain (Printed (m e)) = true) →
  Forall (fun e => plain e = true) (complaint site r m).
Proof.
  intros Hm. unfold complaint. destruct (site r); repeat constructor. apply Hm.
Qed.

Lemma wrote_plain path pieces :
  Forall (fun e => plain e = true) (map (Wrote path) pieces).
Proof. induction pieces; by constructor. Qed.

Ltac plain_list :=
  repeat first
    [ apply Forall_nil_2
    | apply Forall_cons_2; [reflexivity |]
    | apply Forall_app_2
    | apply wrote_plain
    | apply complaint_plain; reflexivity ].

Lemma card_step_plain site made output_dir card_url downloaded d :
  Forall (fun e => plain e = true)
    (snd (card_step site made output_dir card_url downloaded d)).
Proof.
  unfold card_step.
  destruct (image_of site card_url) as [image_url |]; [| plain_list].
  destruct (truthy image_url); [| plain_list].
  cbv zeta. destruct (present _ _ _); [plain_list |].
  destruct (site (image_request image_url)) as [| response];
    [| destruct (broken response)]; plain_list.
Qed.

Lemma cards_run_plain site made output_dir count items : ∀ downloaded d,
  Forall (fun e => plain e = true)
    (snd (cards_run site made output_dir count items downloaded d)).
Proof.
  induction items as [| item items IH]; intros downloaded d; [constructor |].
  cbn [cards_run]. unfold card_events.
  pose proof (card_step_plain site made output_dir (snd item) downloaded d) as Hstep.
  destruct (card_step site made output_dir (snd item) downloaded d)
    as [[downloaded' d'] events].
  specialize (IH downloaded' d').
  destruct (cards_run site made output_dir count items downloaded' d')
    as [[final d''] later].
  cbn [fst snd] in *. plain_list; assumption.
Qed.

Lemma page_events_plain site pokemon_name total_pages pages :
  Forall (fun e => plain e = true)
    (concat (map (page_events site pokemon_name total_pages) pages)).
Proof.
  induction pages as [| page pages IH]; [constructor |].
  cbn [map concat]. unfold page_events. plain_list. exact IH.
Qed.

(** A query asks nothing, and announces a page count exactly when it gets
    past the early return. *)
Lemma query_run_counts site made pokemon_name output_dir d :
  blank_answers (snd (query_run site made pokemon_name output_dir d)) = 0%nat
  ∧ queries_under_way (snd (query_run site made pokemon_name output_dir d))
    = match fst (fst (query_run site made pokemon_name output_dir d)) with
      | Some _ => 1%nat
      | None => 0%nat
      end.
Proof.
  unfold query_run.
  destruct (total_pages_of site pokemon_name =? 0)%Z.
  { cbn [fst snd]. apply plain_counts. plain_list. }
  set (count := Z.of_nat _).
  pose proof (cards_run_plain site (made ++ [output_dir]) output_dir count
                (cards_of site pokemon_name (total_pages_of site pokemon_name))
                0%Z d) as Hcards.
  destruct (cards_run site (made ++ [output_dir]) output_dir count _ 0%Z d)
    as [[downloaded d'] card_log].
  cbn [fst snd] in *.
  set (opening := MadeDir output_dir :: _).
  assert (Hopening : Forall (fun e => plain e = true) opening)
    by (subst opening; plain_list).
  assert (Hrest : Forall (fun e => plain e = true)
            (concat (map (page_events site pokemon_name
                            (total_pages_of site pokemon_name))
                         (seqZ 1 (total_pages_of site pokemon_name)))
             ++ Printed (FoundUniqueCards count) :: card_log)).
  { plain_list; [apply page_events_plain | exact Hcards]. }
  destruct (plain_counts _ Hopening) as [Ho1 Ho2].
  destruct (plain_counts _ Hrest) as [Hr1 Hr2].
  rewrite blank_answers_app, queries_under_way_app, Ho1, Ho2.
  change (Printed (FoundPages ?t) :: ?l) with ([Printed (FoundPages t)] ++ l).
  rewrite blank_answers_app, queries_under_way_app, Hr1, Hr2.
  split; reflexivity.
Qed.

Lemma query_run_announces site made pokemon_name output_dir d :
  In (Printed (SearchingFor pokemon_name))
     (snd (query_run site made pokemon_name output_dir d)).
Proof.
  unfold query_run. destruct (_ =? _)%Z.
  - cbn [snd]. right. by left.
  - destruct (cards_run _ _ _ _ _ _ _) as [[? ?] ?]. cbn [snd]. right.
    by left.
Qed.

Lemma bind_returned_inv {A B} (m : Run A) (k : A → Run B) st b st' :
  bind m k st = (Returned b, st') →
  ∃ a st1, m st = (Returned a, st1) ∧ k a st1 = (Returned b, st').
Proof.
  unfold bind. destruct (m st) as [[a | e |] st1]; [eauto | |]; discriminate.
Qed.

Lemma input_returned p st line st1 :
  input p st = (Returned line, st1) →
  log st1 = log st ++ [Asked p line].
Proof.
  unfold input. destruct (stdin st); [discriminate |].
  by intros [= <- <-].
Qed.

Lemma blank_answers_asked p line :
  blank_answers [Asked p line]
  = if negb (truthy (Py.strip line)) then 1%nat else 0%nat.
Proof. unfold blank_answers. cbn. by destruct (negb _). Qed.

(** When the module runs as a script, a call that returns has read one blank
    line for each query that got past its page count; the loop itself reads
    one more, the one that ends it. *)
Lemma calls_return_after_blank_lines site argv fuel :
  (∀ pokemon_name output_dir st st',
     download_pokemon_cards site argv true fuel pokemon_name output_dir st
     = (Returned tt, st') →
     ∃ new, log st' = log st ++ new
            ∧ blank_answers new = queries_under_way new)
  ∧ (∀ st st',
       main site argv true fuel st = (Returned tt, st') →
       ∃ new, log st' = log st ++ new
              ∧ blank_answers new = S (queries_under_way new))
  ∧ (∀ st st',
       prompt_loop site argv true fuel st = (Returned tt, st') →
       ∃ new, log st' = log st ++ new
              ∧ blank_answers new = S (queries_under_way new)).
Proof.
  induction fuel as [| fuel (IHd & IHm & IHp)];
    [repeat split; intros; discriminate |].
  split; [| split].
  - intros pokemon_name output_dir st st' H.
    rewrite download_pokemon_cards_step in H.
    apply bind_returned_inv in H as (finished & st1 & Hq & H).
    rewrite run_query_trace in Hq. injection Hq as Hfinished Hst1.
    destruct (query_run_counts site (made_dirs (log st)) pokemon_name
                output_dir (disk st))
      as [Hblank Hqueries].
    rewrite Hfinished in Hqueries.
    destruct finished as [n |].
    + apply IHm in H as (new & Hlog & Hcount).
      eexists. split.
      * rewrite Hlog, <- Hst1. cbn [log]. by rewrite <- app_assoc.
      * rewrite blank_answers_app, queries_under_way_app. lia.
    + injection H as <-. eexists. split.
      * rewrite <- Hst1. reflexivity.
      * lia.
  - intros st st' H. rewrite main_step in H.
    apply bind_returned_inv in H as ([] & st1 & Hfirst & H).
    apply IHp in H as (new & Hlog & Hcount).
    assert (Hbefore : ∃ before, log st1 = log st ++ before
              ∧ blank_answers before = queries_under_way before).
    { destruct (1 <? length argv)%nat.
      - destruct (negb _).
        + injection Hfirst as <-. by exists [Printed InvalidInput].
        + by apply IHd in Hfirst.
      - injection Hfirst as <-. exists []. by rewrite app_nil_r. }
    destruct Hbefore as (before & Hlog1 & Hcount1).
    exists (before ++ new). split.
    + by rewrite Hlog, Hlog1, <- app_assoc.
    + rewrite blank_answers_app, queries_under_way_app. lia.
  - intros st st' H. rewrite prompt_loop_step in H.
    apply bind_returned_inv in H as (line & st1 & Hin & H).
    apply input_returned in Hin.
    pose proof (blank_answers_asked EnterNameOrQuit line) as Hasked.
    destruct (negb (truthy (Py.strip line))).
    { injection H as <-. exists [Asked EnterNameOrQuit line; Printed Exiting].
      split; [cbn [print record log]; by rewrite Hin, <- app_assoc |].
      change [Asked EnterNameOrQuit line; Printed Exiting]
        with ([Asked EnterNameOrQuit line] ++ [Printed Exiting]).
      rewrite blank_answers_app, queries_under_way_app, Hasked.
      reflexivity. }
    assert (Hafter : ∃ after, log st' = log st1 ++ after
              ∧ blank_answers after = S (queries_under_way after)).
    { destruct (negb (is_valid_input _)).
      - apply bind_returned_inv in H as (a & st2 & Hp & H).
        injection Hp as _ <-.
        apply IHp in H as (new & Hlog & Hcount).
        exists ([Printed InvalidInput] ++ new). split.
        + rewrite Hlog. cbn [log]. by rewrite <- app_assoc.
        + rewrite blank_answers_app, queries_under_way_app.
          change (blank_answers [Printed InvalidInput]) with 0%nat.
          change (queries_under_way [Printed InvalidInput]) with 0%nat. lia.
      - apply bind_returned_inv in H as ([] & st2 & Hd & H).
        apply IHd in Hd as (new1 & Hlog1 & Hcount1).
        apply IHp in H as (new2 & Hlog2 & Hcount2).
        exists (new1 ++ new2). split.
        + by rewrite Hlog2, Hlog1, <- app_assoc.
        + rewrite blank_answers_app, queries_under_way_app. lia. }
    destruct Hafter as (after & Hlog & Hcount).
    exists ([Asked EnterNameOrQuit line] ++ after). split.
    + by rewrite Hlog, Hin, <- app_assoc.
    + rewrite blank_answers_app, queries_under_way_app, Hasked.
      change (queries_under_way [Asked EnterNameOrQuit line]) with 0%nat. lia.
Qed.

(** Without a valid name on the command line, the nested [main] is its
    loop, after a word on the name when there is one. *)
Lemma main_without_valid_name site argv dunder_main fuel st :
  (1 <? length argv)%nat && is_valid_input (Py.strip (nth 1 argv "")) = false →
  main site argv dunder_main (S fuel) st
  = prompt_loop site argv dunder_main fuel
      (logged (if (1 <? length argv)%nat then [Printed InvalidInput] else [])
              st).
Proof.
  intros H. rewrite main_step. destruct (1 <? length argv)%nat; cbn in H.
  - rewrite H. cbn [negb]. unfold bind. by rewrite print_logged.
  - unfold bind, ret. by rewrite logged_nil.
Qed.

(** Without a valid name on the command line, the nested loop works through
    every accepted name that is typed, however many, and the blank lines
    after them end every loop that was entered on the way. *)
Lemma loop_takes_every_name site argv :
  (1 <? length argv)%nat && is_valid_input (Py.strip (nth 1 argv "")) = false →
  ∀ names, Forall accepted names →
  ∀ fuel blanks st,
    (3 * length names + 1 ≤ fuel)%nat →
    (length names + 1 ≤ blanks)%nat →
    stdin st = names ++ repeat "" blanks →
    ∃ st' unread more,
      prompt_loop site argv true fuel st = (Returned tt, st')
      ∧ stdin st' = repeat "" unread
      ∧ (blanks ≤ unread + length names + 1)%nat
      ∧ log st' = log st ++ more
      ∧ ∀ name, In name names →
                In (Printed (SearchingFor (Py.strip name))) more.
Proof.
  intros Hargv names Hnames.
  assert (Hlast : ∀ fuel unread st,
            stdin st = repeat "" (S unread) →
            prompt_loop site argv true (S fuel) st
            = (Returned tt,
               {| disk := disk st; stdin := repeat "" unread;
                  log := log st ++ [Asked EnterNameOrQuit ""; Printed Exiting] |})).
  { intros fuel unread st Hin. by apply prompt_loop_blank. }
  induction Hnames as [| name names [Htruthy Hvalid] _ IH];
    intros fuel blanks st Hfuel Hblanks Hin; cbn [length] in *.
  - destruct fuel as [| fuel]; [lia |]. destruct blanks as [| blanks]; [lia |].
    eexists _, blanks, _. split; [by apply Hlast |].
    cbn [stdin log]. repeat split; [lia | intros ? []].
  - destruct fuel as [| [| [| fuel]]]; try lia.
    cbn [app] in Hin.
    rewrite (prompt_loop_valid _ _ _ _ _ _ _ Hin Htruthy Hvalid).
    set (st_in := {| disk := disk st; stdin := names ++ repeat "" blanks;
                     log := log st ++ [Asked EnterNameOrQuit name] |}).
    rewrite download_pokemon_cards_step.
    unfold bind at 1. unfold bind at 1. rewrite run_query_trace.
    pose proof (query_run_announces site (made_dirs (log st_in))
                  (Py.strip name) "./cards" (disk st_in))
      as Hannounce.
    set (events := snd (query_run site (made_dirs (log st_in)) (Py.strip name)
                          "./cards" (disk st_in)))
      in *.
    set (st1 := {| disk := _; stdin := stdin st_in; log := log st_in ++ events |}).
    destruct (fst (fst (query_run site (made_dirs (log st_in)) (Py.strip name)
                          "./cards" (disk st_in))))
      as [downloaded |].
    + rewrite (main_without_valid_name _ _ _ _ _ Hargv).
      set (said := if (1 <? length argv)%nat then _ else _).
      destruct (IH fuel blanks (logged said st1)) as
        (st2 & unread & more & Hrun & Hstdin & Hunread & Hlog & Hall);
        [lia | lia | reflexivity |].
      rewrite Hrun.
      destruct unread as [| unread]; [lia |].
      rewrite (Hlast _ unread st2 Hstdin).
      eexists _, unread, _. split; [reflexivity |].
      cbn [stdin log]. split; [reflexivity |]. split; [lia |].
      split.
      * rewrite Hlog. subst st1 st_in. cbn [log logged].
        rewrite <- !app_assoc. reflexivity.
      * intros n [<- | Hn]; apply in_or_app; right; apply in_or_app.
        -- by left.
        -- right. apply in_or_app. right. apply in_or_app. left.
           by apply Hall.
    + unfold ret at 1.
      destruct (IH (S (S fuel)) blanks st1) as
        (st2 & unread & more & Hrun & Hstdin & Hunread & Hlog & Hall);
        [lia | lia | reflexivity |].
      rewrite Hrun.
      eexists _, unread, _. split; [reflexivity |].
      split; [exact Hstdin |]. split; [lia |].
      split.
      * rewrite Hlog. subst st1 st_in. cbn [log].
        rewrite <- !app_assoc. reflexivity.
      * intros n [<- | Hn]; apply in_or_app; right; apply in_or_app.
        -- by left.
        -- right. by apply Hall.
Qed.


(** What a query logs first. *)
Lemma query_run_opening site made pokemon_name output_dir d :
  ∃ later,
    snd (query_run site made pokemon_name output_dir d)
    = MadeDir output_dir
      :: Printed (SearchingFor pokemon_name)
      :: Requested (search_request pokemon_name 1)
      :: later.
Proof.
  unfold query_run. destruct (_ =? _)%Z.
  - cbn [snd]. eexists. reflexivity.
  - destruct (cards_run _ _ _ _ _ _ _) as [[? ?] ?]. cbn [snd].
    eexists. reflexivity.
Qed.

Lemma bind_log_prefix {A B} (m : Run A) (k : A → Run B) st events :
  (∃ later, log (snd (m st)) = log st ++ events ++ later) →
  (∀ a st', ∃ more, log (snd (k a st')) = log st' ++ more) →
  ∃ later, log (snd (bind m k st)) = log st ++ events ++ later.
Proof.
  intros [later Hm] Hk. unfold bind.
  destruct (m st) as [[a | e |] st']; cbn [snd] in *; [| eauto | eauto].
  destruct (Hk a st') as [more Hk']. rewrite Hk', Hm.
  exists (later ++ more). by rewrite <- !app_assoc.
Qed.

(** A call starts with its query. *)
Lemma download_pokemon_cards_opening site argv dunder_main fuel
    pokemon_name output_dir st :
  ∃ later,
    log (snd (download_pokemon_cards site argv dunder_main (S fuel)
                pokemon_name output_dir st))
    = log st
      ++ [MadeDir output_dir;
          Printed (SearchingFor pokemon_name);
          Requested (search_request pokemon_name 1)]
      ++ later.
Proof.
  rewrite download_pokemon_cards_step. apply bind_log_prefix.
  - rewrite run_query_trace. cbn [snd log].
    destruct (query_run_opening site (made_dirs (log st)) pokemon_name
                output_dir (disk st)) as [later ->].
    by exists later.
  - intros [n |] st'; [destruct dunder_main |];
      first [apply nested_calls_behave | exists []; by rewrite app_nil_r].
Qed.

(** With a valid name on the command line, the nested [main] starts with a
    query for that name. *)
Lemma main_takes_valid_name site argv dunder_main fuel st :
  (1 < length argv)%nat →
  is_valid_input (Py.strip (nth 1 argv "")) = true →
  ∃ later,
    log (snd (main site argv dunder_main (S (S fuel)) st))
    = log st
      ++ [MadeDir "./cards";
          Printed (SearchingFor (Py.strip (nth 1 argv "")));
          Requested (search_request (Py.strip (nth 1 argv "")) 1)]
      ++ later.
Proof.
  intros Hargv Hvalid. apply Nat.ltb_lt in Hargv.
  rewrite main_step, Hargv, Hvalid. cbn [negb].
  apply bind_log_prefix.
  - apply download_pokemon_cards_opening.
  - intros. apply nested_calls_behave.
Qed.

(** The nested loop starts with its question. *)
Lemma prompt_loop_asks site argv dunder_main fuel st line rest :
  stdin st = line :: rest →
  ∃ later,
    log (snd (prompt_loop site argv dunder_main (S fuel) st))
    = log st ++ [Asked EnterNameOrQuit line] ++ later.
Proof.
  intros Hin. rewrite prompt_loop_step. apply bind_log_prefix.
  - unfold input. rewrite Hin. cbn [snd log]. exists []. reflexivity.
  - intros answer st'.
    destruct (negb (truthy _)); [by eexists |].
    destruct (negb (is_valid_input _)); apply bind_log;
      first [by eexists | apply nested_calls_behave
            | intros; apply nested_calls_behave].
Qed.

Lemma run_query_stdin site pokemon_name output_dir st :
  stdin (snd (run_query site pokemon_name output_dir st)) = stdin st.
Proof. by rewrite run_query_trace. Qed.

(** C9, as the code has it. When the module runs as a script, a call of
    [download_pokemon_cards] that has gone through its card loop (lines 128
    to 163 returned a count) goes on as the [main] it defines. That [main]
    first takes up the command line again: with a name there that passes
    [is_valid_input], the next thing the call does is a query for that name,
    before any prompt; with a name that does not pass, it says so and
    prompts; without a name it prompts at once. The prompts check each name
    with [is_valid_input] and call [download_pokemon_cards] for each one
    they accept. If the call returns, it has read as many blank lines as
    there were queries that got past their page count, its own included, so
    at least one. And without a valid name on the command line it works
    through any number of accepted names typed after it, given one blank
    line more than there are names. *)
Theorem nested_loop_follows_every_query
    (site : remote) (argv : list string) (fuel : nat)
    (pokemon_name output_dir : string) (st st1 : State) (downloaded : Z) :
  run_query site pokemon_name output_dir st = (Returned (Some downloaded), st1) →
  download_pokemon_cards site argv true (S fuel) pokemon_name output_dir st
  = main site argv true fuel st1
  ∧ ((1 < length argv)%nat →
     is_valid_input (Py.strip (nth 1 argv "")) = true →
     (2 ≤ fuel)%nat →
     ∃ later,
       log (snd (download_pokemon_cards site argv true (S fuel) pokemon_name
                   output_dir st))
       = log st1
         ++ MadeDir "./cards"
         :: Printed (SearchingFor (Py.strip (nth 1 argv "")))
         :: Requested (search_request (Py.strip (nth 1 argv "")) 1)
         :: later)
  ∧ ((length argv ≤ 1)%nat
     ∨ is_valid_input (Py.strip (nth 1 argv "")) = false →
     (2 ≤ fuel)%nat →
     ∀ line rest,
       stdin st = line :: rest →
       ∃ later,
         log (snd (download_pokemon_cards site argv true (S fuel)
                     pokemon_name output_dir st))
         = log st1
           ++ (if (1 <? length argv)%nat then [Printed InvalidInput] else [])
           ++ Asked EnterNameOrQuit line :: later)
  ∧ (∀ st',
       download_pokemon_cards site argv true (S fuel) pokemon_name output_dir st
       = (Returned tt, st') →
       ∃ new, log st' = log st ++ new
              ∧ blank_answers new = queries_under_way new
              ∧ (1 ≤ blank_answers new)%nat)
  ∧ (∀ names,
       (length argv ≤ 1)%nat
       ∨ is_valid_input (Py.strip (nth 1 argv "")) = false →
       Forall accepted names →
       stdin st = names ++ repeat "" (length names + 1) →
       (3 * length names + 2 ≤ fuel)%nat →
       ∃ st',
         download_pokemon_cards site argv true (S fuel) pokemon_name
           output_dir st
         = (Returned tt, st')
         ∧ ∀ name, In name names →
                   In (Printed (SearchingFor (Py.strip name))) (log st')).
Proof.
  intros Hquery.
  assert (Hmain :
    download_pokemon_cards site argv true (S fuel) pokemon_name output_dir st
    = main site argv true fuel st1).
  { rewrite download_pokemon_cards_step. unfold bind. by rewrite Hquery. }
  assert (Hstdin : stdin st1 = stdin st).
  { rewrite <- (run_query_stdin site pokemon_name output_dir st).
    by rewrite Hquery. }
  assert (Hnone : (length argv ≤ 1)%nat
                  ∨ is_valid_input (Py.strip (nth 1 argv "")) = false →
                  (1 <? length argv)%nat
                  && is_valid_input (Py.strip (nth 1 argv "")) = false).
  { intros [H | H]; [| by rewrite H, andb_false_r].
    replace (1 <? length argv)%nat with false
      by (symmetry; apply Nat.ltb_ge; lia). reflexivity. }
  rewrite run_query_trace in Hquery. injection Hquery as Hsome Hst1.
  split; [exact Hmain |]. rewrite Hmain.
  split; [| split; [| split]].
  - intros Hargv Hvalid Hfuel.
    destruct fuel as [| [| fuel]]; [lia | lia |].
    apply (main_takes_valid_name _ _ _ _ _ Hargv Hvalid).
  - intros Hargv Hfuel line rest Hin.
    destruct fuel as [| [| fuel]]; [lia | lia |].
    rewrite (main_without_valid_name _ _ _ _ _ (Hnone Hargv)).
    set (said := if (1 <? length argv)%nat then _ else _).
    destruct (prompt_loop_asks site argv true fuel (logged said st1) line rest)
      as [later Hlater]; [cbn [logged stdin]; congruence |].
    exists later. rewrite Hlater. cbn [logged log].
    by rewrite <- app_assoc.
  - intros st' Hreturn.
    destruct (calls_return_after_blank_lines site argv fuel) as (_ & Hm & _).
    apply Hm in Hreturn as (new & Hlog & Hcount).
    destruct (query_run_counts site (made_dirs (log st)) pokemon_name
                output_dir (disk st))
      as [Hblank Hqueries].
    rewrite Hsome in Hqueries.
    eexists. split; [| split].
    + rewrite Hlog, <- Hst1. cbn [log]. by rewrite <- app_assoc.
    + rewrite blank_answers_app, queries_under_way_app. lia.
    + rewrite blank_answers_app. lia.
  - intros names Hargv Hnames Hin Hfuel.
    destruct fuel as [| fuel]; [lia |].
    rewrite (main_without_valid_name _ _ _ _ _ (Hnone Hargv)).
    set (said := if (1 <? length argv)%nat then _ else _).
    destruct (loop_takes_every_name site argv (Hnone Hargv) names Hnames fuel
                (length names + 1) (logged said st1))
      as (st' & unread & more & Hrun & _ & _ & Hlog & Hall);
      [lia | lia | cbn [logged stdin]; congruence |].
    exists st'. split; [exact Hrun |].
    intros name Hname. rewrite Hlog. apply in_or_app. right. by apply Hall.
Qed.

Lemma nested_loop_follows_every_query_witness :
  ∃ st',
    download_pokemon_cards Sample.catalogue ["scraper.py"] true 6
      "pikachu" "./cards" (Sample.fresh ["Raichu "; ""; ""])
    = (Returned tt, st')
    ∧ ∀ name, In name ["Raichu "] →
              In (Printed (SearchingFor (Py.strip name))) (log st').
Proof.
  refine (proj2 (proj2 (proj2 (proj2
            (nested_loop_follows_every_query Sample.catalogue ["scraper.py"] 5
               "pikachu" "./cards" (Sample.fresh ["Raichu "; ""; ""])
               (snd (run_query Sample.catalogue "pikachu" "./cards"
                       (Sample.fresh ["Raichu "; ""; ""])))
               4%Z _))))
            ["Raichu "] _ _ _ _).
  - vm_compute. reflexivity.
  - left. cbn. lia.
  - repeat constructor; vm_compute; reflexivity.
  - reflexivity.
  - cbn. lia.
Defined.

(** C9, as stated, fails with a valid name on the command line: the call for
    that name goes through its card loop, reporting four downloads, and then
    does not prompt. It queries the same name once more, through a second
    card loop that finds the four files there, and no line has been asked
    for or read by then. *)
Lemma valid_argument_is_queried_again_before_any_prompt :
  let st :=
    snd (download_pokemon_cards Sample.catalogue ["scraper.py"; "pikachu"]
           true 3 "pikachu" "./cards" (Sample.fresh ["raichu"; ""])) in
  is_valid_input (Py.strip "pikachu") = true
  ∧ reports (log st) = [1; 2; 3; 4; 0; 0; 0; 0]%Z
  ∧ queries_under_way (log st) = 2%nat
  ∧ (∀ p answer, ¬ In (Asked p answer) (log st))
  ∧ stdin st = ["raichu"; ""].
Proof.
  cbv zeta. split; [vm_compute; reflexivity |].
  split; [vm_compute; reflexivity |].
  split; [vm_compute; reflexivity |].
  split; [| vm_compute; reflexivity].
  intros p answer H. vm_compute in H.
  repeat (destruct H as [H | H]; [discriminate |]). exact H.
Qed.

(** * Further properties *)

(** ** Strings, once more *)

Lemma all_chars_app p (a b : string) :
  all_chars p (a +:+ b) = all_chars p a && all_chars p b.
Proof.
  induction a as [| c a IH]; [reflexivity |].
  rewrite append_string. cbn [all_chars]. by rewrite IH, andb_assoc.
Qed.

Lemma none_of_char sep c :
  Re.none_of (String sep "") c = negb (Ascii.eqb c sep).
Proof.
  unfold Re.none_of, Re.one_of. cbn.
  destruct (ascii_dec c sep) as [-> | Hne].
  - by rewrite Ascii.eqb_refl.
  - apply Ascii.eqb_neq in Hne. by rewrite Hne.
Qed.

Lemma split_nonempty sep s : Py.split sep s ≠ [].
Proof.
  induction s as [| c s IH]; cbn [Py.split]; [discriminate |].
  destruct (Ascii.eqb c sep); [discriminate |].
  destruct (Py.split sep s); [congruence | discriminate].
Qed.

Lemma first_split sep c s :
  Py.first (Py.split sep (String c s))
  = if Ascii.eqb c sep then "" else String c (Py.first (Py.split sep s)).
Proof.
  unfold Py.first. cbn [Py.split].
  destruct (Ascii.eqb c sep); [reflexivity |].
  pose proof (split_nonempty sep s).
  destruct (Py.split sep s); [congruence | reflexivity].
Qed.

(** What stands before the first separator holds none. *)
Lemma first_split_clean sep s :
  all_chars (Re.none_of (String sep "")) (Py.first (Py.split sep s)) = true.
Proof.
  induction s as [| c s IH]; [reflexivity |].
  rewrite first_split. destruct (Ascii.eqb c sep) eqn:E; [reflexivity |].
  cbn [all_chars]. by rewrite IH, none_of_char, E.
Qed.

Lemma split_sep_free sep s :
  all_chars (Re.none_of (String sep "")) s = true → Py.split sep s = [s].
Proof.
  induction s as [| c s IH]; [reflexivity |].
  cbn [all_chars Py.split]. rewrite none_of_char. intros H.
  apply andb_prop in H as [Hc Hs]. apply negb_true_iff in Hc.
  by rewrite Hc, (IH Hs).
Qed.

Lemma split_app_sep sep a b :
  Py.split sep (a +:+ String sep b) = Py.split sep a ++ Py.split sep b.
Proof.
  induction a as [| c a IH].
  - rewrite append_empty_l. cbn [Py.split]. by rewrite Ascii.eqb_refl.
  - rewrite append_string. cbn [Py.split]. rewrite IH.
    destruct (Ascii.eqb c sep); [reflexivity |].
    pose proof (split_nonempty sep a).
    destruct (Py.split sep a); [congruence | reflexivity].
Qed.

Lemma final_app (l1 l2 : list string) :
  l2 ≠ [] → Py.final (l1 ++ l2) = Py.final l2.
Proof.
  intros H. unfold Py.final. induction l1 as [| x l1 IH]; [reflexivity |].
  cbn [app List.last]. rewrite IH.
  destruct (l1 ++ l2) eqn:E; [| reflexivity].
  apply app_eq_nil in E as [_ E]. congruence.
Qed.

(** A string has no separator, or it has a last one. *)
Lemma last_sep sep s :
  all_chars (Re.none_of (String sep "")) s = true
  ∨ ∃ a b, s = a +:+ String sep b
           ∧ all_chars (Re.none_of (String sep "")) b = true.
Proof.
  induction s as [| c s [IH | (a & b & -> & Hb)]].
  - by left.
  - cbn [all_chars]. rewrite none_of_char.
    destruct (Ascii.eqb c sep) eqn:E.
    + right. apply Ascii.eqb_eq in E as ->. by exists "", s.
    + left. by rewrite IH.
  - right. by exists (String c a), b.
Qed.

Lemma final_split_sep_free sep s :
  all_chars (Re.none_of (String sep "")) s = true →
  Py.final (Py.split sep s) = s.
Proof. intros H. by rewrite (split_sep_free _ _ H). Qed.

Lemma final_split_after sep a b :
  all_chars (Re.none_of (String sep "")) b = true →
  Py.final (Py.split sep (a +:+ String sep b)) = b.
Proof.
  intros H. rewrite split_app_sep, final_app by apply split_nonempty.
  by apply final_split_sep_free.
Qed.

(** What stands after the last separator holds none. *)
Lemma final_split_clean sep s :
  all_chars (Re.none_of (String sep "")) (Py.final (Py.split sep s)) = true.
Proof.
  destruct (last_sep sep s) as [H | (a & b & -> & H)].
  - by rewrite final_split_sep_free.
  - by rewrite final_split_after.
Qed.

Lemma string_prefix_append (a b : string) : String.prefix a (a +:+ b) = true.
Proof.
  induction a as [| c a IH]; [by destruct b |].
  rewrite append_string. cbn. by destruct (ascii_dec c c).
Qed.

(** ** The words of a sequence *)

Lemma lang_seq_inv r1 r2 s :
  Re.lang (Re.Seq r1 r2) s
  ↔ ∃ s1 s2, s = s1 +:+ s2 ∧ Re.lang r1 s1 ∧ Re.lang r2 s2.
Proof.
  split.
  - intros H. inversion H; subst. eauto.
  - intros (s1 & s2 & -> & H1 & H2). by constructor.
Qed.

(** ** The links of a result page *)

Lemma in_fold_keep_card_link links : ∀ card_links full_url,
  In full_url (fold_left keep_card_link links card_links)
  ↔ In full_url card_links
    ∨ ∃ href, In href links
              ∧ Re.prefixmatch card_link_pattern href = true
              ∧ full_url = "https://www.pokellector.com"
                           +:+ Py.first (Py.split "#" href).
Proof.
  induction links as [| href links IH]; intros card_links full_url.
  - simpl. split; [auto | intros [H | (? & [] & _)]; exact H].
  - cbn [fold_left]. rewrite IH. unfold keep_card_link.
    destruct (Re.prefixmatch card_link_pattern href) eqn:Ematch.
    + cbv zeta. case_bool_decide as Hin.
      * split.
        -- intros [H | (h & Hh & Hm & ->)]; [by left | right].
           exists h. split; [by right | done].
        -- intros [H | (h & [<- | Hh] & Hm & ->)]; [by left | |].
           ++ left. by apply list_elem_of_In.
           ++ right. exists h. done.
      * rewrite in_app_iff. split.
        -- intros [[H | [<- | []]] | (h & Hh & Hm & ->)]; [by left | |].
           ++ right. exists href. split; [by left | done].
           ++ right. exists h. split; [by right | done].
        -- intros [H | (h & [<- | Hh] & Hm & ->)].
           ++ left. by left.
           ++ left. right. by left.
           ++ right. exists h. done.
    + split.
      * intros [H | (h & Hh & Hm & ->)]; [by left | right].
        exists h. split; [by right | done].
      * intros [H | (h & [<- | Hh] & Hm & ->)]; [by left | congruence |].
        right. exists h. done.
Qed.

(** The shape of the links the pattern accepts. *)
Lemma card_link_pattern_words p :
  Re.lang card_link_pattern p
  ↔ ∃ expansion card rest,
      p = "/" +:+ expansion +:+ "-Expansion/" +:+ card +:+ "-Card-" +:+ rest
      ∧ (expansion ≠ "" ∧ all_chars (Re.none_of "/") expansion = true)
      ∧ (card ≠ "" ∧ all_chars (Re.none_of "/") card = true)
      ∧ (rest ≠ "" ∧ all_chars (Re.none_of "#") rest = true).
Proof.
  unfold card_link_pattern. split.
  - intros H.
    apply lang_seq_inv in H as (s1 & t1 & -> & H1 & H).
    apply lang_seq_inv in H as (s2 & t2 & -> & H2 & H).
    apply lang_seq_inv in H as (s3 & t3 & -> & H3 & H).
    apply lang_seq_inv in H as (s4 & t4 & -> & H4 & H).
    apply lang_seq_inv in H as (s5 & t5 & -> & H5 & H6).
    apply lang_lit in H1 as ->. apply lang_lit in H3 as ->.
    apply lang_lit in H5 as ->.
    apply lang_plus_class in H2, H4, H6.
    exists s2, s4, t5. done.
  - intros (expansion & card & rest & -> & H2 & H4 & H6).
    apply lang_plus_class in H2, H4, H6.
    repeat (constructor; [by apply lang_lit || assumption |]).
    assumption.
Qed.

(** X3. [re.match] with the pattern of line 28 accepts a link exactly when
    it starts with a slash, a non-empty expansion segment without slash,
    [-Expansion/], a non-empty card segment without slash, [-Card-] and one
    character that is not [#]; what follows is free. *)
Theorem card_link_pattern_accepts (href : string) :
  Re.prefixmatch card_link_pattern href = true
  ↔ ∃ expansion card c tail,
      href = "/" +:+ expansion +:+ "-Expansion/" +:+ card +:+ "-Card-"
             +:+ String c tail
      ∧ expansion ≠ "" ∧ all_chars (Re.none_of "/") expansion = true
      ∧ card ≠ "" ∧ all_chars (Re.none_of "/") card = true
      ∧ c ≠ "#"%char.
Proof.
  rewrite prefixmatch_lang. split.
  - intros (p & q & -> & H).
    apply card_link_pattern_words in H
      as (expansion & card & rest & -> & [He1 He2] & [Hc1 Hc2] & [Hr1 Hr2]).
    destruct rest as [| c rest]; [done |].
    exists expansion, card, c, (rest +:+ q).
    split; [| repeat split; try assumption].
    + rewrite !append_assoc. by rewrite append_string.
    + cbn [all_chars] in Hr2. apply andb_prop in Hr2 as [Hr2 _].
      rewrite none_of_char in Hr2. apply negb_true_iff in Hr2.
      by apply Ascii.eqb_neq.
  - intros (expansion & card & c & tail & -> & He1 & He2 & Hc1 & Hc2 & Hc).
    exists ("/" +:+ expansion +:+ "-Expansion/" +:+ card +:+ "-Card-"
            +:+ String c ""), tail.
    split.
    + rewrite !append_assoc. by rewrite append_string.
    + apply card_link_pattern_words. exists expansion, card, (String c "").
      repeat split; try assumption; [discriminate |].
      cbn [all_chars]. rewrite none_of_char.
      apply Ascii.eqb_neq in Hc. by rewrite Hc.
Qed.

Lemma matching_link_starts_with_slash href :
  Re.prefixmatch card_link_pattern href = true →
  ∃ rest, Py.first (Py.split "#" href) = String "/" rest.
Proof.
  intros H. apply prefixmatch_lang in H as (p & q & -> & H).
  apply card_link_pattern_words in H as (e & k & r & -> & _).
  rewrite !append_string, append_empty_l.
  rewrite first_split. cbn. eauto.
Qed.

(** X1. In a list that [search_pokemon_cards] returns, whatever the site
    has answered, no address is there twice, every address starts with the
    address of the site followed by a slash, and none holds a [#]. *)
Theorem search_results_are_distinct_addresses
    (site : remote) (pokemon_name : string) (page : Z) (st : State)
    (card_links : list string) :
  fst (search_pokemon_cards site pokemon_name page st) = Returned card_links →
  NoDup card_links
  ∧ ∀ full_url, In full_url card_links →
      String.prefix "https://www.pokellector.com/" full_url = true
      ∧ all_chars (Re.none_of "#") full_url = true.
Proof.
  rewrite search_pokemon_cards_trace. cbn [fst]. intros [= <-].
  unfold page_links.
  destruct (site (search_request pokemon_name page)) as [reason | response].
  { split; [constructor | intros ? []]. }
  split; [apply keep_card_link_NoDup; constructor |].
  intros full_url Hin.
  apply in_fold_keep_card_link in Hin as [[] | (href & _ & Hmatch & ->)].
  destruct (matching_link_starts_with_slash _ Hmatch) as [rest Hrest].
  split.
  - rewrite Hrest. vm_compute. by destruct rest.
  - rewrite all_chars_app, first_split_clean. reflexivity.
Qed.

Lemma search_results_are_distinct_addresses_witness :
  NoDup ["https://www.pokellector.com/Base-Set-2-Expansion/Pikachu-Card-87";
         "https://www.pokellector.com/Neo-Genesis-Expansion/Pikachu-Card-70"].
Proof.
  refine (proj1 (search_results_are_distinct_addresses Sample.catalogue
                   "pikachu" 2 (Sample.fresh []) _ _)).
  vm_compute. reflexivity.
Defined.

(** X2. After a successful request the addresses [search_pokemon_cards]
    returns are those of the links of the page that the pattern accepts,
    each cut at its first [#] and put after the address of the site; after a
    failed request the list is empty. *)
Theorem search_results_are_the_matching_links
    (site : remote) (pokemon_name : string) (page : Z) (st : State) :
  match site (search_request pokemon_name page) with
  | Failure _ =>
      fst (search_pokemon_cards site pokemon_name page st) = Returned []
  | Success response =>
      ∃ card_links,
        fst (search_pokemon_cards site pokemon_name page st)
        = Returned card_links
        ∧ ∀ full_url,
            In full_url card_links
            ↔ ∃ href, In href (hrefs (soup response))
                      ∧ Re.prefixmatch card_link_pattern href = true
                      ∧ full_url = "https://www.pokellector.com"
                                   +:+ Py.first (Py.split "#" href)
  end.
Proof.
  rewrite search_pokemon_cards_trace. cbn [fst]. unfold page_links.
  destruct (site (search_request pokemon_name page)) as [reason | response];
    [reflexivity |].
  eexists. split; [reflexivity |].
  intros full_url. rewrite in_fold_keep_card_link. split.
  - intros [[] | H]. exact H.
  - intros H. by right.
Qed.

(** ** The extension of an image address *)

(** X4. The extension test of lines 57 and 75 looks at what follows the
    last dot of the address, or at the whole address when it has no dot: that
    text, in lower case, has to be one of png, jpg, jpeg, webp. *)
Theorem image_extension_is_text_after_last_dot (src : string) :
  has_image_extension src = true
  ↔ ∃ extension,
      (src = extension ∨ ∃ stem, src = stem +:+ "." +:+ extension)
      ∧ all_chars (Re.none_of ".") extension = true
      ∧ In (Py.lower extension) ["png"; "jpg"; "jpeg"; "webp"].
Proof.
  unfold has_image_extension. cbv zeta.
  rewrite existsb_exists. split.
  - intros (known & Hknown & E). apply String.eqb_eq in E.
    exists (Py.final (Py.split "." src)).
    split; [| split; [apply final_split_clean | by rewrite E]].
    destruct (last_sep "." src) as [H | (a & b & -> & H)].
    + left. by rewrite final_split_sep_free.
    + right. exists a. by rewrite final_split_after.
  - intros (extension & Hsrc & Hfree & Hknown).
    exists (Py.lower extension). split; [exact Hknown |].
    apply String.eqb_eq.
    destruct Hsrc as [-> | [stem ->]].
    + by rewrite final_split_sep_free.
    + change (stem +:+ "." +:+ extension)
        with (stem +:+ String "." extension).
      by rewrite final_split_after.
Qed.

(** ** Where an image address comes from *)

Lemma get_or_src img image_url :
  Soup.get_or img "src" "" = image_url → image_url ≠ "" →
  Soup.get img "src" = Some image_url.
Proof.
  unfold Soup.get_or. destruct (Soup.get img "src"); [congruence |].
  intros <-. done.
Qed.

Lemma card_region_read_from page image_url :
  Tiers.card_region page = Some image_url →
  image_url ≠ "" → read_from page image_url.
Proof.
  unfold Tiers.card_region.
  destruct (Soup.find page "div" _) as [region |] eqn:Ed; [| discriminate].
  destruct (Soup.find region "img" []) as [img |] eqn:Ei; [| discriminate].
  cbv zeta.
  destruct (Py.contains image_host _ && has_image_extension _) eqn:E;
    [| discriminate].
  intros [= H] Hne. apply andb_prop in E as [_ Hext].
  apply find_some in Ed as [Hd _]. apply find_some in Ei as [Hi Hsel].
  exists img. split; [by apply (descendants_transitive _ _ _ Hd) |].
  left. split; [by apply selects_tag_name in Hsel |].
  split; [by apply get_or_src | by rewrite <- H].
Qed.

Lemma meta_content_read_from page f image_url :
  Tiers.meta_content page f = Some image_url → read_from page image_url.
Proof.
  unfold Tiers.meta_content.
  destruct (Soup.find page "meta" [f]) as [meta |] eqn:E; [| discriminate].
  destruct (Soup.get meta "content") as [content |] eqn:Ec; [| discriminate].
  destruct (Py.contains image_host content); [| discriminate].
  intros [= <-]. apply find_some in E as [Hin Hsel].
  exists meta. split; [exact Hin |]. right.
  split; [by apply selects_tag_name in Hsel | exact Ec].
Qed.

Lemma page_scan_read_from page image_url :
  Tiers.page_scan page = Some image_url →
  image_url ≠ "" → read_from page image_url.
Proof.
  unfold Tiers.page_scan. intros H Hne.
  apply List.find_some in H as [Hin Hok].
  apply in_map_iff in Hin as (img & Hsrc & Hin).
  apply filter_In in Hin as [Hin Hsel].
  apply andb_prop in Hok as [_ Hext].
  exists img. split; [exact Hin |]. left.
  split; [by apply selects_tag_name in Hsel |].
  split; [by apply get_or_src | exact Hext].
Qed.

Lemma image_url_of_read_from page image_url :
  image_url_of page = Some image_url → read_from page image_url.
Proof.
  intros H.
  assert (Hne : image_url ≠ "").
  { apply image_url_of_names_host in H. by destruct image_url. }
  rewrite image_url_of_tiers in H.
  unfold Tiers.in_order, Tiers.first_success, Tiers.metadata in H.
  destruct (Tiers.card_region page) as [u |] eqn:E1.
  { injection H as ->. by apply card_region_read_from. }
  destruct (Tiers.meta_content page (Soup.Equals "property" "og:image"))
    as [u |] eqn:E2.
  { injection H as ->. by apply meta_content_read_from in E2. }
  destruct (Tiers.meta_content page (Soup.Equals "itemprop" "image"))
    as [u |] eqn:E3.
  { injection H as ->. by apply meta_content_read_from in E3. }
  destruct (Tiers.page_scan page) as [u |] eqn:E4; [| discriminate].
  injection H as ->. by apply page_scan_read_from.
Qed.

(** X5. An address that [get_card_image_url] returns is never empty, holds
    the name of the image host, and stands on the page the site sent for the
    card: as the [src] of an [img] tag, with a recognised extension, or as
    the [content] of a [meta] tag. *)
Theorem image_address_is_read_from_the_page
    (site : remote) (card_url pokemon_name image_url : string) (st : State) :
  fst (get_card_image_url site card_url pokemon_name st)
  = Returned (Some image_url) →
  image_url ≠ ""
  ∧ Py.contains image_host image_url = true
  ∧ ∃ response,
      site (card_page_request card_url) = Success response
      ∧ ∃ tag, In tag (Soup.descendants (soup response))
               ∧ ((Soup.tag_name tag = Some "img"
                   ∧ Soup.get tag "src" = Some image_url
                   ∧ has_image_extension image_url = true)
                  ∨ (Soup.tag_name tag = Some "meta"
                     ∧ Soup.get tag "content" = Some image_url)).
Proof.
  rewrite get_card_image_url_trace. cbn [fst]. intros [= H].
  unfold image_of in H.
  destruct (site (card_page_request card_url)) as [| response];
    [discriminate |].
  pose proof (image_url_of_names_host _ _ H) as Hhost.
  split; [by destruct image_url |]. split; [exact Hhost |].
  exists response. split; [reflexivity |].
  by apply image_url_of_read_from.
Qed.

Lemma image_address_is_read_from_the_page_witness :
  Sample.pikachu_png ≠ ""
  ∧ Py.contains image_host Sample.pikachu_png = true.
Proof.
  destruct (image_address_is_read_from_the_page Sample.catalogue
              ("https://www.pokellector.com" +:+ Sample.card_1) "pikachu"
              Sample.pikachu_png (Sample.fresh []))
    as (H1 & H2 & _); [vm_compute; reflexivity |].
  split; assumption.
Defined.

(** ** What a download leaves on the disk *)

Lemma written_lookup path pieces : ∀ d content,
  d !! path = Some content →
  written path pieces d
  = <[path := content +:+ String.concat "" pieces]> d.
Proof.
  unfold written.
  induction pieces as [| piece pieces IH]; intros d content Hd.
  - cbn. rewrite append_empty_r. symmetry. by apply insert_id.
  - cbn [fold_left]. rewrite (IH _ (content +:+ piece)).
    + rewrite insert_insert_eq. f_equal.
      rewrite append_assoc. f_equal.
      destruct pieces; [by rewrite append_empty_r | reflexivity].
    + rewrite Hd. cbn. by rewrite lookup_insert_eq.
Qed.

(** Opening a file and writing the chunks of a body to it leaves the file
    with the chunks put together. *)
Lemma written_body path pieces d :
  written path pieces (<[path := ""]> d)
  = <[path := String.concat "" pieces]> d.
Proof.
  rewrite (written_lookup _ _ _ "") by apply lookup_insert_eq.
  by rewrite insert_insert_eq.
Qed.


(** ** The page number of a link *)

Lemma string_prefix_cons a s1 b s2 :
  String.prefix (String a s1) (String b s2)
  = Ascii.eqb a b && String.prefix s1 s2.
Proof.
  cbn [String.prefix]. destruct (ascii_dec a b) as [-> | H].
  - by rewrite Ascii.eqb_refl.
  - apply Ascii.eqb_neq in H. by rewrite H.
Qed.

Lemma string_prefix_empty s : String.prefix "" s = true.
Proof. by destruct s. Qed.

(** A [?p=] or [&p=] that starts before a [?] or [&] ends before it. *)
Lemma prefix_before x sep b tail :
  sep = "?"%char ∨ sep = "&"%char →
  b ≠ "" →
  String.prefix (String x "p=") (b +:+ String sep tail) = true →
  String.prefix (String x "p=") b = true.
Proof.
  intros Hsep Hb H.
  destruct b as [| c1 [| c2 [| c3 b]]]; [done | | |];
    rewrite ?append_string, ?append_empty_l in H;
    rewrite ?string_prefix_cons, ?string_prefix_empty in *;
    repeat match goal with
      | E : _ && _ = true |- _ => apply andb_prop in E as [? ?]
      end.
  - destruct Hsep as [-> | ->]; discriminate.
  - destruct Hsep as [-> | ->]; discriminate.
  - by repeat (apply andb_true_intro; split).
Qed.

(** The text after a prefix. *)
Lemma after_some w : ∀ s rest, Py.after w s = Some rest ↔ s = w +:+ rest.
Proof.
  induction w as [| a w IH]; intros s rest.
  - cbn [Py.after]. rewrite append_empty_l. split; [by intros [= ->] | by intros ->].
  - destruct s as [| b s]; cbn [Py.after].
    + split; [discriminate | rewrite append_string; discriminate].
    + rewrite append_string. destruct (Ascii.eqb a b) eqn:E.
      * apply Ascii.eqb_eq in E as ->. rewrite IH.
        split; [by intros -> | by intros [= ->]].
      * apply Ascii.eqb_neq in E. split; [discriminate | intros [= ? _]; congruence].
Qed.

(** A decimal digit at the front of a string is one of the table. *)
Lemma decimal_at_some s v rest :
  Py.decimal_at s = Some (v, rest) →
  ∃ w, In (w, v) Py.decimals ∧ s = w +:+ rest.
Proof.
  unfold Py.decimal_at. generalize Py.decimals.
  induction l as [| [w v'] l IH]; [discriminate |].
  cbn -[Py.after].
  destruct (Py.after w s) as [rest' |] eqn:E.
  - cbn [head]. intros [= <- <-]. exists w. split; [by left |].
    by apply after_some.
  - intros H. destruct (IH H) as (w' & Hin & Hs). exists w'.
    split; [by right | exact Hs].
Qed.

Lemma lang_any_of rs r w : In r rs → Re.lang r w → Re.lang (Re.any_of rs) w.
Proof.
  induction rs as [| r' rs IH]; [intros [] |].
  intros [-> | Hin] H; cbn [Re.any_of fold_right].
  - by apply Re.lang_alt_l.
  - apply Re.lang_alt_r. by apply IH.
Qed.

Lemma lang_any_of_inv rs w :
  Re.lang (Re.any_of rs) w → ∃ r, In r rs ∧ Re.lang r w.
Proof.
  induction rs as [| r' rs IH]; cbn [Re.any_of fold_right]; intros H.
  - inversion H.
  - inversion H as [| | | ? ? ? H1 | ? ? ? H1 | |]; subst.
    + exists r'. split; [by left | exact H1].
    + destruct (IH H1) as (r & Hin & Hr). exists r. split; [by right | exact Hr].
Qed.

(** The class [\d] holds the digits of the table and nothing else. *)
Lemma lang_decimal w : Re.lang Re.decimal w ↔ ∃ v, In (w, v) Py.decimals.
Proof.
  unfold Re.decimal. split.
  - intros H. apply lang_any_of_inv in H as (r & Hin & Hr).
    apply in_map_iff in Hin as ([w' v] & <- & Hin). cbn [fst] in Hr.
    apply lang_lit in Hr as ->. by exists v.
  - intros [v Hin]. apply (lang_any_of _ (Re.Lit w)); [| by apply lang_lit].
    apply in_map_iff. by exists (w, v).
Qed.

(** The digits 0 to 9 are decimal digits, with their values. *)
Lemma decimal_at_ascii c rest :
  Py.is_digit c = true →
  Py.decimal_at (String c rest)
  = Some ((Z.of_nat (nat_of_ascii c) - 48)%Z, rest).
Proof.
  destruct c as [[] [] [] [] [] [] [] []]; try discriminate;
    intros _; vm_compute; reflexivity.
Qed.

Lemma lang_decimal_ascii c :
  Py.is_digit c = true → Re.lang Re.decimal (String c "").
Proof.
  intros Hc. apply lang_decimal.
  destruct (decimal_at_some _ _ _ (decimal_at_ascii c "" Hc)) as (w & Hin & Hw).
  rewrite append_empty_r in Hw. subst w. eauto.
Qed.

Lemma lang_star_digits digits :
  all_chars Py.is_digit digits = true → Re.lang (Re.Star Re.decimal) digits.
Proof.
  induction digits as [| c digits IH]; [constructor |].
  cbn [all_chars]. intros H. apply andb_prop in H as [Hc Hd].
  change (String c digits) with (String c "" +:+ digits).
  constructor; [by apply lang_decimal_ascii | by apply IH].
Qed.

Lemma page_pattern_here sep digits rest :
  sep = "?"%char ∨ sep = "&"%char →
  digits ≠ "" → all_chars Py.is_digit digits = true →
  Re.prefixmatch page_pattern (String sep ("p=" +:+ digits +:+ rest)) = true.
Proof.
  intros Hsep Hne Hd. apply prefixmatch_lang.
  exists (String sep "" +:+ "p=" +:+ digits), rest. split.
  - rewrite !append_assoc. reflexivity.
  - unfold page_pattern. constructor.
    + constructor. destruct Hsep as [-> | ->]; reflexivity.
    + constructor; [by apply lang_lit |].
      destruct digits as [| c digits]; [done |].
      cbn [all_chars] in Hd. apply andb_prop in Hd as [Hc Hd].
      change (String c digits) with (String c "" +:+ digits).
      constructor; [by apply lang_decimal_ascii | by apply lang_star_digits].
Qed.

(** The group of the pattern on digits 0 to 9 that no decimal digit
    follows: their values, all of them. *)
Lemma decimals_upto_ascii digits rest : ∀ n,
  all_chars Py.is_digit digits = true →
  Py.decimal_at rest = None →
  (String.length digits ≤ n)%nat →
  Py.decimals_upto n (digits +:+ rest) = digit_values digits.
Proof.
  induction digits as [| c digits IH]; intros n Hd Hr Hn.
  - rewrite append_empty_l. destruct n; [reflexivity |].
    cbn [Py.decimals_upto]. by rewrite Hr.
  - cbn [all_chars] in Hd. apply andb_prop in Hd as [Hc Hd].
    cbn [String.length] in Hn. destruct n as [| n]; [lia |].
    rewrite append_string. cbn [Py.decimals_upto digit_values].
    rewrite (decimal_at_ascii _ _ Hc). f_equal. apply IH; [done | done | lia].
Qed.

Lemma length_append s : ∀ t,
  String.length (s +:+ t) = (String.length s + String.length t)%nat.
Proof.
  induction s as [| c s IH]; intros t.
  - by rewrite append_empty_l.
  - rewrite append_string. cbn [String.length]. by rewrite IH.
Qed.

Lemma leading_decimals_ascii digits rest :
  all_chars Py.is_digit digits = true →
  Py.decimal_at rest = None →
  Py.leading_decimals (digits +:+ rest) = digit_values digits.
Proof.
  intros Hd Hr. unfold Py.leading_decimals.
  apply decimals_upto_ascii; [done | done |]. rewrite length_append. lia.
Qed.

Lemma length_digit_values digits :
  length (digit_values digits) = String.length digits.
Proof. induction digits as [| c digits IH]; [reflexivity |]. cbn. by rewrite IH. Qed.

Lemma int_from_digit_values digits : ∀ acc,
  Py.int_from acc (digit_values digits) = number_from acc digits.
Proof.
  unfold Py.int_from.
  induction digits as [| c digits IH]; intros acc; [reflexivity |].
  cbn [digit_values fold_left number_from]. apply IH.
Qed.

Lemma number_from_nonnegative digits : ∀ acc,
  all_chars Py.is_digit digits = true →
  (0 ≤ acc)%Z → (0 ≤ number_from acc digits)%Z.
Proof.
  induction digits as [| c digits IH]; intros acc Hd Hacc; [exact Hacc |].
  cbn [all_chars] in Hd. apply andb_prop in Hd as [Hc Hd].
  cbn [number_from]. apply IH; [exact Hd |].
  unfold Py.is_digit, Py.between in Hc. apply andb_prop in Hc as [Hlo _].
  apply Nat.leb_le in Hlo. lia.
Qed.

Lemma page_number_after before : ∀ sep digits rest,
  Py.contains "?p=" before = false →
  Py.contains "&p=" before = false →
  sep = "?"%char ∨ sep = "&"%char →
  digits ≠ "" → all_chars Py.is_digit digits = true →
  Py.decimal_at rest = None →
  page_number (before +:+ String sep ("p=" +:+ digits +:+ rest))
  = Py.int (digit_values digits).
Proof.
  induction before as [| c before IH];
    intros sep digits rest Hq Ha Hsep Hne Hd Hr.
  - rewrite append_empty_l. unfold page_number.
    destruct (String sep ("p=" +:+ digits +:+ rest)) eqn:E; [discriminate |].
    cbn [Re.search_from]. rewrite <- E.
    rewrite (page_pattern_here _ _ _ Hsep Hne Hd).
    rewrite !append_string, append_empty_l. cbn [Re.skip].
    by rewrite leading_decimals_ascii.
  - cbn [Py.contains] in Hq, Ha.
    apply orb_false_elim in Hq as [Hq1 Hq2].
    apply orb_false_elim in Ha as [Ha1 Ha2].
    unfold page_number. rewrite append_string. cbn [Re.search_from].
    destruct (Re.prefixmatch page_pattern _) eqn:Em.
    + exfalso.
      change (String c (before +:+ String sep ("p=" +:+ digits +:+ rest)))
        with (String c before +:+ String sep ("p=" +:+ digits +:+ rest)) in Em.
      destruct (page_pattern_start _ Em) as [H | H];
        apply (prefix_before _ _ _ _ Hsep) in H; try discriminate; congruence.
    + apply (IH sep digits rest); assumption.
Qed.

(** X7. When no [?p=] and no [&p=] stands before a [?p=] or [&p=] of a
    link that digits 0 to 9 follow, and no decimal digit of any script comes
    after those digits, [re.search] finds the parameter there, its group is
    the whole run of digits, and the page number of the link is the number
    they write, which is not negative. A run of more than 4300 digits gives
    no number: [int] raises, and the loop passes the link over. *)
Theorem page_number_reads_first_parameter
    (before digits rest : string) (sep : ascii) :
  Py.contains "?p=" before = false →
  Py.contains "&p=" before = false →
  sep = "?"%char ∨ sep = "&"%char →
  digits ≠ "" →
  all_chars Py.is_digit digits = true →
  Py.decimal_at rest = None →
  page_number (before +:+ String sep ("p=" +:+ digits +:+ rest))
  = (if (4300 <? String.length digits)%nat then None
     else Some (number digits))
  ∧ (0 ≤ number digits)%Z.
Proof.
  intros Hq Ha Hsep Hne Hd Hr. split.
  - rewrite page_number_after by assumption.
    unfold Py.int, number.
    by rewrite length_digit_values, int_from_digit_values.
  - by apply number_from_nonnegative.
Qed.

Lemma page_number_reads_first_parameter_witness :
  page_number "/search?criteria=pikachu&p=12&sort=name" = Some 12%Z.
Proof.
  refine (proj1 (page_number_reads_first_parameter
                   "/search?criteria=pikachu" "12" "&sort=name" "&"
                   _ _ _ _ _ _)).
  - reflexivity.
  - reflexivity.
  - by right.
  - discriminate.
  - reflexivity.
  - vm_compute. reflexivity.
Defined.

(** ** The check of a name *)

(** X8. [is_valid_input] accepts a name exactly when it is one or more
    characters of the class (letters, digits, dash, space, apostrophe, dot),
    with at most one line feed after them: the [$] of the pattern also holds
    before a line feed that ends the name. *)
Theorem is_valid_input_accepts_class_and_line_feed (pokemon_name : string) :
  is_valid_input pokemon_name = true
  ↔ ∃ core, core ≠ "" ∧ all_chars name_char core = true
            ∧ (pokemon_name = core
               ∨ pokemon_name = core +:+ String "010" "").
Proof.
  unfold is_valid_input. rewrite match_to_end_lang. split.
  - intros [H | (core & -> & H)]; apply lang_plus_class in H as [Hne Hall].
    + exists pokemon_name. auto.
    + exists core. auto.
  - intros (core & Hne & Hall & [-> | ->]).
    + left. by apply lang_plus_class.
    + right. exists core. split; [reflexivity | by apply lang_plus_class].
Qed.

(** A string read from its end, and read from its end again. *)
Lemma reverse_onto_append s : ∀ acc,
  Py.reverse_onto s acc = Py.reverse s +:+ acc.
Proof.
  unfold Py.reverse. induction s as [| c s IH]; intros acc.
  - by rewrite append_empty_l.
  - cbn [Py.reverse_onto]. rewrite IH, (IH (String c "")), append_assoc.
    by rewrite append_string, append_empty_l.
Qed.

Lemma reverse_append s t :
  Py.reverse (s +:+ t) = Py.reverse t +:+ Py.reverse s.
Proof.
  induction s as [| c s IH].
  - by rewrite append_empty_l, append_empty_r.
  - rewrite append_string. unfold Py.reverse at 1 3. cbn [Py.reverse_onto].
    rewrite !reverse_onto_append, IH, append_assoc. reflexivity.
Qed.

Lemma reverse_involutive s : Py.reverse (Py.reverse s) = s.
Proof.
  induction s as [| c s IH]; [reflexivity |].
  unfold Py.reverse at 2. cbn [Py.reverse_onto].
  rewrite reverse_onto_append, reverse_append, IH. reflexivity.
Qed.

Lemma lstrip_with_cons space a rest1 :
  Py.lstrip_with space (String a rest1)
  = if space (String a "") then Py.lstrip_with space rest1
    else
      match rest1 with
      | EmptyString => String a rest1
      | String b rest2 =>
          if space (String a (String b "")) then Py.lstrip_with space rest2
          else
            match rest2 with
            | EmptyString => String a rest1
            | String c rest3 =>
                if space (String a (String b (String c "")))
                then Py.lstrip_with space rest3
                else String a rest1
            end
      end.
Proof. reflexivity. Qed.

(** What [lstrip_with] leaves does not start with a character of one byte
    that it removes. *)
Lemma lstrip_with_stop space n : ∀ s a rest,
  (String.length s ≤ n)%nat →
  Py.lstrip_with space s = String a rest →
  space (String a "") = false.
Proof.
  induction n as [| n IH]; intros s a rest Hn.
  { destruct s; [discriminate | cbn in Hn; lia]. }
  destruct s as [| x s1]; [discriminate |].
  rewrite lstrip_with_cons. cbn [String.length] in Hn.
  destruct (space (String x "")) eqn:E1; [apply IH; lia |].
  destruct s1 as [| y s2]; [by intros [= <- _] |].
  cbn [String.length] in Hn.
  destruct (space (String x (String y ""))) eqn:E2; [apply IH; lia |].
  destruct s2 as [| z s3]; [by intros [= <- _] |].
  cbn [String.length] in Hn.
  destruct (space (String x (String y (String z "")))) eqn:E3;
    [apply IH; lia |].
  by intros [= <- _].
Qed.

(** What [rstrip] leaves does not end with a character of one byte that it
    removes, such as the line feed. *)
Lemma rstrip_end s kept c :
  Py.rstrip s = kept +:+ String c "" → Py.is_space (String c "") = false.
Proof.
  unfold Py.rstrip. intros H.
  apply (f_equal Py.reverse) in H.
  rewrite reverse_involutive, reverse_append in H.
  change (Py.reverse (String c "")) with (String c "") in H.
  rewrite append_string, append_empty_l in H.
  by apply (lstrip_with_stop _ _ _ _ _ (Nat.le_refl _)) in H.
Qed.

(** X9. On a name that went through [strip], as every name the nested
    [main] checks has, [is_valid_input] holds exactly when the name is not
    empty and all its characters are of the class: the line feed the pattern
    lets pass cannot be there. *)
Theorem stripped_name_is_checked_in_full (line : string) :
  is_valid_input (Py.strip line) = true
  ↔ Py.strip line ≠ "" ∧ all_chars name_char (Py.strip line) = true.
Proof.
  unfold is_valid_input. rewrite match_to_end_lang, lang_plus_class. split.
  - intros [H | (core & E & _)]; [exact H |].
    unfold Py.strip in E. by apply rstrip_end in E.
  - intros H. by left.
Qed.

(** ** One turn of the card loop, case by case *)

Lemma cards_run_cons site made output_dir count item items downloaded d :
  cards_run site made output_dir count (item :: items) downloaded d
  = let step := card_step site made output_dir (snd item) downloaded d in
    let rest := cards_run site made output_dir count items
                  (fst (fst step)) (snd (fst step)) in
    (fst (fst rest), snd (fst rest),
     card_events site made output_dir count item downloaded d ++ snd rest).
Proof.
  cbn [cards_run].
  destruct (card_step site made output_dir (snd item) downloaded d)
    as [[downloaded' d'] events].
  cbn [fst snd].
  by destruct (cards_run site made output_dir count items downloaded' d')
    as [[final d''] later].
Qed.

(** The four ways a turn of the card loop can go: no image, something that
    is there at the path, a download whose request fails, and a download
    that opens the file, which it completes or breaks off. *)
Lemma card_step_cases site made output_dir card_url downloaded d :
  card_step site made output_dir card_url downloaded d
  = (downloaded, d, [Printed NoImageFound])
  ∨ (∃ image_url,
       image_of site card_url = Some image_url
       ∧ present made d (output_path_of output_dir image_url) = true
       ∧ card_step site made output_dir card_url downloaded d
         = (downloaded, d,
            [Printed (AlreadyDownloaded (filename_of image_url))]))
  ∨ (∃ image_url reason,
       image_of site card_url = Some image_url
       ∧ card_step site made output_dir card_url downloaded d
         = (downloaded, d,
            [Requested (image_request image_url);
             Printed (ErrorDownloadingImage (RequestException reason));
             Printed (FailedToDownload (filename_of image_url))]))
  ∨ (∃ image_url response,
       image_of site card_url = Some image_url
       ∧ d !! output_path_of output_dir image_url = None
       ∧ card_step site made output_dir card_url downloaded d
         = (match broken response with
            | Some _ => downloaded
            | None => (downloaded + 1)%Z
            end,
            <[output_path_of output_dir image_url
              := String.concat "" (chunks response)]> d,
            Requested (image_request image_url)
            :: Opened (output_path_of output_dir image_url)
            :: map (Wrote (output_path_of output_dir image_url))
                   (chunks response)
            ++ [Printed
                  match broken response with
                  | Some reason => Error (RequestException reason)
                  | None => Downloaded (filename_of image_url)
                  end])).
Proof.
  unfold card_step.
  destruct (image_of site card_url) as [image_url |]; [| by left].
  destruct (truthy image_url); [| by left].
  cbv zeta. destruct (present _ _ _) eqn:Hthere.
  { right. left. by exists image_url. }
  destruct (site (image_request image_url)) as [reason | response].
  { right. right. left. by exists image_url, reason. }
  right. right. right. exists image_url, response.
  split; [reflexivity |]. split; [by apply (present_none made) |].
  rewrite written_body. by destruct (broken response).
Qed.

(** ** What a log shows *)

Lemma requests_app a b : requests (a ++ b) = requests a ++ requests b.
Proof. apply omap_app. Qed.

Lemma searches_app a b : searches (a ++ b) = searches a ++ searches b.
Proof. unfold searches. by rewrite requests_app, List.filter_app. Qed.

Lemma processed_app a b : processed (a ++ b) = processed a ++ processed b.
Proof. apply omap_app. Qed.

Lemma opened_app a b : opened (a ++ b) = opened a ++ opened b.
Proof. apply omap_app. Qed.

Lemma downloads_app a b : downloads (a ++ b) = downloads a ++ downloads b.
Proof. apply omap_app. Qed.

Lemma failures_app a b : failures (a ++ b) = failures a ++ failures b.
Proof. apply omap_app. Qed.

Lemma slept_app a b : slept (a ++ b) = (slept a + slept b)%Z.
Proof.
  unfold slept. rewrite omap_app.
  induction (omap _ a) as [| n l IH]; cbn; [reflexivity | lia].
Qed.

Lemma omap_complaint {B} (f : event → option B) site r m :
  (∀ e, f (Printed (m e)) = None) → omap f (complaint site r m) = [].
Proof.
  intros H. unfold complaint. destruct (site r); [| reflexivity].
  cbn. by rewrite H.
Qed.

Lemma omap_wrote {B} (f : event → option B) path pieces :
  (∀ chunk, f (Wrote path chunk) = None) →
  omap f (map (Wrote path) pieces) = [].
Proof.
  intros H. induction pieces as [| piece pieces IH]; [reflexivity |].
  cbn. by rewrite H.
Qed.

(** Unfolding a measure of a log over its parts. *)
Ltac measure :=
  unfold searches, requests, processed, opened, slept, downloads, failures;
  repeat first
    [ rewrite omap_app
    | rewrite omap_complaint by reflexivity
    | rewrite omap_wrote by reflexivity
    | progress cbn ].

Lemma measures_of_card_step site made output_dir card_url downloaded d :
  searches (snd (card_step site made output_dir card_url downloaded d)) = []
  ∧ processed (snd (card_step site made output_dir card_url downloaded d)) = []
  ∧ slept (snd (card_step site made output_dir card_url downloaded d)) = 0%Z.
Proof.
  destruct (card_step_cases site made output_dir card_url downloaded d)
    as [-> | [(u & _ & _ & ->) | [(u & reason & _ & ->)
                                 | (u & response & _ & _ & ->)]]];
    cbn [snd]; repeat split; measure; try reflexivity;
    by destruct (broken response).
Qed.

Lemma measures_of_card_events site made output_dir count item downloaded d :
  searches (card_events site made output_dir count item downloaded d) = []
  ∧ processed (card_events site made output_dir count item downloaded d)
    = [(fst item, count, snd item)]
  ∧ slept (card_events site made output_dir count item downloaded d) = 500%Z
  ∧ opened (card_events site made output_dir count item downloaded d)
    = opened (snd (card_step site made output_dir (snd item) downloaded d)).
Proof.
  destruct (measures_of_card_step site made output_dir (snd item) downloaded d)
    as (H1 & H2 & H3).
  unfold card_events.
  change (?a :: ?b :: ?c ++ ?s ++ ?t) with ([a; b] ++ c ++ s ++ t).
  rewrite !searches_app, !processed_app, !slept_app, !opened_app.
  rewrite H1, H2, H3.
  repeat split; measure; try reflexivity.
  by rewrite app_nil_r.
Qed.

Lemma measures_of_cards_run site made output_dir count items : ∀ downloaded d,
  searches (snd (cards_run site made output_dir count items downloaded d)) = []
  ∧ processed (snd (cards_run site made output_dir count items downloaded d))
    = map (fun item => (fst item, count, snd item)) items
  ∧ slept (snd (cards_run site made output_dir count items downloaded d))
    = (500 * Z.of_nat (length items))%Z.
Proof.
  induction items as [| item items IH]; intros downloaded d.
  - by repeat split.
  - rewrite cards_run_cons. cbv zeta. cbn [snd].
    destruct (measures_of_card_events site made output_dir count item downloaded d)
      as (H1 & H2 & H3 & _).
    destruct (IH (fst (fst (card_step site made output_dir (snd item)
                                 downloaded d)))
                 (snd (fst (card_step site made output_dir (snd item)
                              downloaded d))))
      as (I1 & I2 & I3).
    rewrite searches_app, processed_app, slept_app, H1, H2, H3, I1, I2, I3.
    repeat split. cbn [length]. lia.
Qed.

Lemma measures_of_page_events site pokemon_name total_pages pages :
  searches (concat (map (page_events site pokemon_name total_pages) pages))
  = map (search_request pokemon_name) pages
  ∧ processed (concat (map (page_events site pokemon_name total_pages) pages))
    = []
  ∧ slept (concat (map (page_events site pokemon_name total_pages) pages))
    = (1000 * Z.of_nat (length pages))%Z
  ∧ opened (concat (map (page_events site pokemon_name total_pages) pages))
    = [].
Proof.
  induction pages as [| page pages (I1 & I2 & I3 & I4)]; [by repeat split |].
  cbn [map concat].
  rewrite searches_app, processed_app, slept_app, opened_app, I1, I2, I3, I4.
  unfold page_events.
  repeat split; measure; try reflexivity. cbn [length]. lia.
Qed.


(** ** The parts of a query *)

Lemma length_sorted urls : length (sorted urls) = size urls.
Proof. unfold sorted. by rewrite merge_sort_Permutation. Qed.

Lemma sorted_empty : sorted ∅ = [].
Proof. unfold sorted. by rewrite elements_empty. Qed.

(** The cards a query takes up, and what its card loop gives. *)
Lemma query_run_parts site made pokemon_name output_dir d :
  let total_pages := total_pages_of site pokemon_name in
  let card_urls :=
    sorted (links_of_pages site pokemon_name (seqZ 1 total_pages) ∅) in
  let count := Z.of_nat (length card_urls) in
  let cards :=
    cards_run site (made ++ [output_dir]) output_dir count
      (enumerate 1 card_urls) 0%Z d in
  snd (query_run site made pokemon_name output_dir d)
  = (MadeDir output_dir
     :: Printed (SearchingFor pokemon_name)
     :: Requested (search_request pokemon_name 1)
     :: complaint site (search_request pokemon_name 1)
          NetworkErrorDuringPaginationCheck
     ++ [Printed (if (total_pages =? 0)%Z then NoResultsFound pokemon_name
                  else FoundPages total_pages)])
    ++ concat (map (page_events site pokemon_name total_pages)
                   (seqZ 1 total_pages))
    ++ (if (total_pages =? 0)%Z then []
        else [Printed (FoundUniqueCards count)])
    ++ snd cards
  ∧ snd (fst (query_run site made pokemon_name output_dir d)) = snd (fst cards)
  ∧ fst (fst (query_run site made pokemon_name output_dir d))
    = if (total_pages =? 0)%Z then None else Some (fst (fst cards)).
Proof.
  cbv zeta. unfold query_run, cards_of. rewrite length_sorted.
  destruct (total_pages_of site pokemon_name =? 0)%Z eqn:E.
  - apply Z.eqb_eq in E. rewrite E.
    change (seqZ 1 0) with (@nil Z). cbn [links_of_pages fold_left].
    rewrite sorted_empty. cbn. by rewrite !app_nil_r.
  - destruct (cards_run _ _ _ _ _ _ _) as [[downloaded d'] card_log].
    cbn [fst snd]. split; [| done].
    cbn [app]. rewrite <- ?app_assoc. reflexivity.
Qed.

Lemma measures_of_opening site pokemon_name output_dir (m : message) :
  searches (MadeDir output_dir
            :: Printed (SearchingFor pokemon_name)
            :: Requested (search_request pokemon_name 1)
            :: complaint site (search_request pokemon_name 1)
                 NetworkErrorDuringPaginationCheck
            ++ [Printed m])
  = [search_request pokemon_name 1]
  ∧ (processed (MadeDir output_dir
                :: Printed (SearchingFor pokemon_name)
                :: Requested (search_request pokemon_name 1)
                :: complaint site (search_request pokemon_name 1)
                     NetworkErrorDuringPaginationCheck
                ++ [Printed m])
     = match m with
       | ProcessingCard idx count card_url => [(idx, count, card_url)]
       | _ => []
       end)
  ∧ slept (MadeDir output_dir
           :: Printed (SearchingFor pokemon_name)
           :: Requested (search_request pokemon_name 1)
           :: complaint site (search_request pokemon_name 1)
                NetworkErrorDuringPaginationCheck
           ++ [Printed m]) = 0%Z
  ∧ opened (MadeDir output_dir
            :: Printed (SearchingFor pokemon_name)
            :: Requested (search_request pokemon_name 1)
            :: complaint site (search_request pokemon_name 1)
                 NetworkErrorDuringPaginationCheck
            ++ [Printed m]) = [].
Proof.
  repeat split; measure; try reflexivity. by destruct m.
Qed.

(** What the log of a query shows, measure by measure. *)
Lemma measures_of_query_run site made pokemon_name output_dir d :
  let total_pages := total_pages_of site pokemon_name in
  let card_urls :=
    sorted (links_of_pages site pokemon_name (seqZ 1 total_pages) ∅) in
  let new := snd (query_run site made pokemon_name output_dir d) in
  searches new
  = search_request pokemon_name 1
    :: map (search_request pokemon_name) (seqZ 1 total_pages)
  ∧ processed new
    = map (fun item => (fst item, Z.of_nat (length card_urls), snd item))
          (enumerate 1 card_urls)
  ∧ slept new
    = (1000 * Z.of_nat (length (seqZ 1 total_pages))
       + 500 * Z.of_nat (length (enumerate 1 card_urls)))%Z.
Proof.
  cbv zeta.
  destruct (query_run_parts site made pokemon_name output_dir d) as (-> & _ & _).
  set (total_pages := total_pages_of site pokemon_name).
  set (card_urls := sorted _).
  set (count := Z.of_nat (length card_urls)).
  destruct (measures_of_cards_run site (made ++ [output_dir]) output_dir count
              (enumerate 1 card_urls) 0%Z d) as (C1 & C2 & C3).
  destruct (measures_of_page_events site pokemon_name total_pages
              (seqZ 1 total_pages)) as (P1 & P2 & P3 & _).
  assert (Hclosing :
    searches (if (total_pages =? 0)%Z then []
              else [Printed (FoundUniqueCards count)]) = []
    ∧ processed (if (total_pages =? 0)%Z then []
                 else [Printed (FoundUniqueCards count)]) = []
    ∧ slept (if (total_pages =? 0)%Z then []
             else [Printed (FoundUniqueCards count)]) = 0%Z).
  { by destruct (total_pages =? 0)%Z. }
  destruct Hclosing as (K1 & K2 & K3).
  destruct (measures_of_opening site pokemon_name output_dir
              (if (total_pages =? 0)%Z then NoResultsFound pokemon_name
               else FoundPages total_pages)) as (O1 & O2 & O3 & _).
  rewrite !searches_app, !processed_app, !slept_app.
  rewrite O1, O2, O3, P1, P2, P3, K1, K2, K3, C1, C2, C3.
  repeat split; rewrite ?app_nil_r; try lia; try reflexivity.
  all: by destruct (total_pages =? 0)%Z.
Qed.

Lemma length_enumerate {A} (items : list A) : ∀ start,
  length (enumerate start items) = length items.
Proof.
  induction items as [| item items IH]; intros start; [reflexivity |].
  cbn. by rewrite IH.
Qed.

Lemma string_le_total : Total string_le.
Proof. intros a b. apply String.leb_total. Qed.

(** X10. A query asks for result pages in this order: page 1 for the page
    count, then pages 1 to the count, one request each, so page 1 is
    fetched twice; no other request of the query carries parameters. *)
Theorem result_pages_are_requested_in_order
    (site : remote) (pokemon_name output_dir : string) (st : State) :
  ∃ total_pages new,
    fst (get_total_pages site pokemon_name st) = Returned total_pages
    ∧ log (snd (run_query site pokemon_name output_dir st)) = log st ++ new
    ∧ searches new
      = search_request pokemon_name 1
        :: map (search_request pokemon_name) (seqZ 1 total_pages).
Proof.
  rewrite get_total_pages_trace, run_query_trace. cbn [fst snd log].
  eexists _, _. split; [reflexivity |]. split; [reflexivity |].
  apply measures_of_query_run.
Qed.

(** X11. A query takes up the cards in the order of their addresses,
    numbered from 1, each once, and announces with each the number of cards
    there are; the cards are the addresses [search_pokemon_cards] returns
    for the pages from 1 to the page count, and no others. *)
Theorem cards_are_processed_in_sorted_order
    (site : remote) (pokemon_name output_dir : string) (st : State) :
  ∃ total_pages card_urls new,
    fst (get_total_pages site pokemon_name st) = Returned total_pages
    ∧ log (snd (run_query site pokemon_name output_dir st)) = log st ++ new
    ∧ processed new
      = map (fun item => (fst item, Z.of_nat (length card_urls), snd item))
            (enumerate 1 card_urls)
    ∧ Sorted string_le card_urls
    ∧ NoDup card_urls
    ∧ ∀ card_url,
        In card_url card_urls
        ↔ ∃ page card_links,
            (1 ≤ page ≤ total_pages)%Z
            ∧ fst (search_pokemon_cards site pokemon_name page st)
              = Returned card_links
            ∧ In card_url card_links.
Proof.
  rewrite get_total_pages_trace, run_query_trace. cbn [fst snd log].
  eexists _, _, _. split; [reflexivity |]. split; [reflexivity |].
  split; [apply measures_of_query_run |].
  split; [apply Sorted_merge_sort, string_le_total |].
  split.
  { unfold sorted. rewrite merge_sort_Permutation. apply NoDup_elements. }
  intros card_url. rewrite in_sorted, elem_links_of_pages. split.
  - intros [H | (page & Hpage & Hin)]; [by apply elem_of_empty in H |].
    apply list_elem_of_In, elem_of_seqZ in Hpage.
    exists page, (page_links site pokemon_name page).
    split; [lia |]. split; [by rewrite search_pokemon_cards_trace | exact Hin].
  - intros (page & card_links & Hpage & Hlinks & Hin). right.
    rewrite search_pokemon_cards_trace in Hlinks. injection Hlinks as <-.
    exists page. split; [| exact Hin].
    apply list_elem_of_In, elem_of_seqZ. lia.
Qed.

(** X12. A query sleeps one second for every result page and half a second
    for every card it takes up, whether their requests fail or not, and not
    at all when the page count is 0. *)
Theorem query_sleeps_for_every_page_and_card
    (site : remote) (pokemon_name output_dir : string) (st : State) :
  ∃ total_pages new,
    fst (get_total_pages site pokemon_name st) = Returned total_pages
    ∧ (0 ≤ total_pages)%Z
    ∧ log (snd (run_query site pokemon_name output_dir st)) = log st ++ new
    ∧ slept new
      = (1000 * total_pages + 500 * Z.of_nat (length (processed new)))%Z.
Proof.
  rewrite get_total_pages_trace, run_query_trace. cbn [fst snd log].
  eexists _, _. split; [reflexivity |].
  assert (Hpages : (0 ≤ total_pages_of site pokemon_name)%Z).
  { destruct (Z.eq_dec (total_pages_of site pokemon_name) 0%Z) as [-> | Hne];
      [done |].
    pose proof (total_pages_of_positive site pokemon_name Hne). lia. }
  split; [exact Hpages |]. split; [reflexivity |].
  destruct (measures_of_query_run site (made_dirs (log st)) pokemon_name
              output_dir (disk st))
    as (_ & -> & ->).
  rewrite length_map, length_seqZ, length_enumerate. lia.
Qed.

(** X13. When the request for the page count fails, [download_pokemon_cards]
    makes the output directory, says that there are no results and returns:
    it asks for no other page, and it does not go on into the nested [main]
    even when the module runs as a script. That failure is the only way to
    the early return. *)
Theorem failed_page_count_ends_the_call
    (site : remote) (argv : list string) (dunder_main : bool) (fuel : nat)
    (pokemon_name output_dir : string) (st : State) :
  (∀ reason,
     site (search_request pokemon_name 1) = Failure reason →
     download_pokemon_cards site argv dunder_main (S fuel)
       pokemon_name output_dir st
     = (Returned tt,
        logged [MadeDir output_dir;
                Printed (SearchingFor pokemon_name);
                Requested (search_request pokemon_name 1);
                Printed (NetworkErrorDuringPaginationCheck
                           (RequestException reason));
                Printed (NoResultsFound pokemon_name)] st))
  ∧ (fst (run_query site pokemon_name output_dir st) = Returned None →
     ∃ reason, site (search_request pokemon_name 1) = Failure reason).
Proof.
  split.
  - intros reason H. rewrite download_pokemon_cards_step. unfold bind.
    rewrite run_query_trace. unfold query_run, total_pages_of, complaint.
    rewrite H. cbn. reflexivity.
  - rewrite run_query_trace. cbn [fst].
    destruct (query_run_parts site (made_dirs (log st)) pokemon_name
                output_dir (disk st))
      as (_ & _ & ->).
    destruct (total_pages_of site pokemon_name =? 0)%Z eqn:E; [| discriminate].
    intros _. apply Z.eqb_eq in E. unfold total_pages_of in E.
    destruct (site (search_request pokemon_name 1)) as [reason | response];
      [by exists reason |].
    rewrite fold_keep_max_page in E.
    destruct (fold_max_bounds (omap page_number (hrefs (soup response))) 1%Z)
      as [H _]. lia.
Qed.

Lemma failed_page_count_ends_the_call_witness :
  download_pokemon_cards Sample.down ["scraper.py"] true 1
    "pikachu" "./cards" (Sample.fresh [])
  = (Returned tt,
     logged [MadeDir "./cards";
             Printed (SearchingFor "pikachu");
             Requested (search_request "pikachu" 1);
             Printed (NetworkErrorDuringPaginationCheck
                        (RequestException "connection refused"));
             Printed (NoResultsFound "pikachu")] (Sample.fresh []))
  ∧ ∃ reason, Sample.down (search_request "pikachu" 1) = Failure reason.
Proof.
  destruct (failed_page_count_ends_the_call Sample.down ["scraper.py"] true 0
              "pikachu" "./cards" (Sample.fresh [])) as [H1 H2].
  split; [apply H1; reflexivity | apply H2; reflexivity].
Defined.

(** ** The files of a query *)


(** A turn of the card loop leaves the disk alone, or adds one file that was
    not there. *)
Lemma card_step_files site made output_dir card_url downloaded d :
  (snd (fst (card_step site made output_dir card_url downloaded d)) = d
   ∧ opened (snd (card_step site made output_dir card_url downloaded d)) = [])
  ∨ (∃ image_url content,
       image_of site card_url = Some image_url
       ∧ d !! output_path_of output_dir image_url = None
       ∧ snd (fst (card_step site made output_dir card_url downloaded d))
         = <[output_path_of output_dir image_url := content]> d
       ∧ opened (snd (card_step site made output_dir card_url downloaded d))
         = [output_path_of output_dir image_url]
       ∧ In (Requested (image_request image_url))
            (snd (card_step site made output_dir card_url downloaded d))).
Proof.
  destruct (card_step_cases site made output_dir card_url downloaded d)
    as [-> | [(u & _ & _ & ->) | [(u & reason & _ & ->)
                                 | (u & response & Hu & Hd & ->)]]];
    [by left | by left | by left |].
  right. exists u, (String.concat "" (chunks response)).
  split; [exact Hu |]. split; [exact Hd |]. split; [reflexivity |].
  split; [measure; reflexivity | by left].
Qed.


Lemma cards_run_files site made output_dir count items : ∀ downloaded d,
  let run := cards_run site made output_dir count items downloaded d in
  NoDup (opened (snd run))
  ∧ (∀ path, In path (opened (snd run)) →
       d !! path = None ∧ is_Some (snd (fst run) !! path))
  ∧ size (snd (fst run)) = (size d + length (opened (snd run)))%nat
  ∧ d ⊆ snd (fst run)
  ∧ (∀ path, In path (opened (snd run)) →
       ∃ item image_url,
         In item items
         ∧ image_of site (snd item) = Some image_url
         ∧ path = output_path_of output_dir image_url
         ∧ In (Requested (image_request image_url)) (snd run)).
Proof.
  induction items as [| item items IH]; intros downloaded d; cbv zeta.
  { cbn. repeat split; try done. constructor. }
  rewrite cards_run_cons. cbv zeta. cbn [fst snd].
  rewrite opened_app.
  destruct (measures_of_card_events site made output_dir count item downloaded d)
    as (_ & _ & _ & ->).
  assert (Hevents : ∀ e,
            In e (snd (card_step site made output_dir (snd item) downloaded d)) →
            In e (card_events site made output_dir count item downloaded d)).
  { intros e He. unfold card_events. do 2 right.
    apply in_or_app. right. apply in_or_app. by left. }
  destruct (card_step_files site made output_dir (snd item) downloaded d)
    as [[Hstep Hopened]
       | (u & content & Hu & Hd & Hstep & Hopened & Hreq)];
    rewrite Hopened;
    destruct (card_step site made output_dir (snd item) downloaded d)
      as [[downloaded' d'] events];
    cbn [fst snd] in *; subst d';
    match goal with
    | |- context [cards_run site made output_dir count items ?n ?m] =>
        destruct (IH n m) as (I2 & I3 & I4 & I5 & I6)
    end; cbv zeta in *; cbn [app length].
  - repeat split; try assumption.
    + by apply I3.
    + by apply I3.
    + intros path Hpath. destruct (I6 path Hpath) as (it & v & ? & ? & ? & ?).
      exists it, v. repeat split; try assumption; [by right |].
      apply in_or_app. by right.
  - set (p := output_path_of output_dir u) in *.
    assert (Hp : snd (fst (cards_run site made output_dir count items
                             downloaded' (<[p := content]> d))) !! p
                 = Some content).
    { eapply lookup_weaken; [| exact I5]. apply lookup_insert_eq. }
    repeat split.
    + constructor; [| exact I2].
      intros Hin%list_elem_of_In. apply I3 in Hin as [Hin _].
      by rewrite lookup_insert_eq in Hin.
    + destruct H as [<- | H]; [exact Hd |].
      apply I3 in H as [H _]. by apply lookup_insert_None in H as [H _].
    + destruct H as [<- | H]; [by rewrite Hp | by apply I3].
    + rewrite I4, map_size_insert_None by exact Hd. lia.
    + etrans; [| exact I5]. by apply insert_subseteq.
    + intros path [<- | Hpath].
      * exists item, u. repeat split; try assumption; [by left |].
        apply in_or_app. left. by apply Hevents.
      * destruct (I6 path Hpath) as (it & v & ? & ? & ? & ?).
        exists it, v. repeat split; try assumption; [by right |].
        apply in_or_app. by right.
Qed.

Lemma downloads_of_page_events site pokemon_name total_pages pages :
  downloads (concat (map (page_events site pokemon_name total_pages) pages))
  = [].
Proof.
  induction pages as [| page pages IH]; [reflexivity |].
  cbn [map concat]. rewrite downloads_app, IH. unfold page_events.
  measure. reflexivity.
Qed.

Lemma failures_of_page_events site pokemon_name total_pages pages :
  failures (concat (map (page_events site pokemon_name total_pages) pages))
  = [].
Proof.
  induction pages as [| page pages IH]; [reflexivity |].
  cbn [map concat]. rewrite failures_app, IH. unfold page_events.
  measure. reflexivity.
Qed.

(** What the log of a query shows to have been opened, downloaded and
    reported as an error is what its card loop shows. *)
Lemma opened_of_query_run site made pokemon_name output_dir d :
  let total_pages := total_pages_of site pokemon_name in
  let card_urls :=
    sorted (links_of_pages site pokemon_name (seqZ 1 total_pages) ∅) in
  let cards :=
    snd (cards_run site (made ++ [output_dir]) output_dir
           (Z.of_nat (length card_urls)) (enumerate 1 card_urls) 0%Z d) in
  opened (snd (query_run site made pokemon_name output_dir d)) = opened cards
  ∧ downloads (snd (query_run site made pokemon_name output_dir d))
    = downloads cards
  ∧ failures (snd (query_run site made pokemon_name output_dir d))
    = failures cards
  ∧ ∀ e, In e cards →
         In e (snd (query_run site made pokemon_name output_dir d)).
Proof.
  cbv zeta.
  destruct (query_run_parts site made pokemon_name output_dir d) as (-> & _ & _).
  split; [| split; [| split]].
  - rewrite !opened_app.
    destruct (measures_of_opening site pokemon_name output_dir
                (if (total_pages_of site pokemon_name =? 0)%Z
                 then NoResultsFound pokemon_name
                 else FoundPages (total_pages_of site pokemon_name)))
      as (_ & _ & _ & ->).
    destruct (measures_of_page_events site pokemon_name
                (total_pages_of site pokemon_name)
                (seqZ 1 (total_pages_of site pokemon_name)))
      as (_ & _ & _ & ->).
    by destruct (total_pages_of site pokemon_name =? 0)%Z.
  - rewrite !downloads_app.
    rewrite (downloads_of_page_events site), app_nil_l.
    measure. by destruct (total_pages_of site pokemon_name =? 0)%Z.
  - rewrite !failures_app.
    rewrite (failures_of_page_events site), app_nil_l.
    measure. by destruct (total_pages_of site pokemon_name =? 0)%Z.
  - intros e He. apply in_or_app. right. apply in_or_app. right.
    apply in_or_app. by right.
Qed.



Lemma path_join_inside output_dir filename :
  all_chars (Re.none_of "/") filename = true →
  String.prefix output_dir (Py.path_join output_dir filename) = true.
Proof.
  intros H. unfold Py.path_join.
  assert (Hfirst : String.prefix "/" filename = false).
  { destruct filename as [| c filename]; [reflexivity |].
    cbn [all_chars] in H. apply andb_prop in H as [H _].
    rewrite none_of_char in H. apply negb_true_iff in H.
    rewrite string_prefix_cons. rewrite Ascii.eqb_sym. by rewrite H. }
  rewrite Hfirst.
  destruct (String.eqb output_dir "") eqn:E.
  - apply String.eqb_eq in E as ->. apply string_prefix_empty.
  - destruct (Py.ends_with_slash output_dir); apply string_prefix_append.
Qed.

(** X15. Every file a query opens for writing is the output directory
    joined with the text after the last slash of an image address the query
    asked for; that text holds no slash, so the path starts with the output
    directory. *)
Theorem files_are_opened_inside_the_output_directory
    (site : remote) (pokemon_name output_dir : string) (st : State) :
  ∃ new,
    log (snd (run_query site pokemon_name output_dir st)) = log st ++ new
    ∧ ∀ path, In path (opened new) →
        ∃ image_url,
          In (Requested (image_request image_url)) new
          ∧ path = Py.path_join output_dir (Py.final (Py.split "/" image_url))
          ∧ all_chars (Re.none_of "/") (Py.final (Py.split "/" image_url))
            = true
          ∧ String.prefix output_dir path = true.
Proof.
  rewrite run_query_trace. cbn [snd log].
  eexists. split; [reflexivity |].
  destruct (opened_of_query_run site (made_dirs (log st)) pokemon_name
              output_dir (disk st))
    as (Hopened & _ & _ & Hevents).
  cbv zeta in *. rewrite Hopened. intros path Hpath.
  match goal with
  | H : In path (opened (snd (cards_run site ?m output_dir ?c ?items ?n ?d)))
    |- _ =>
      destruct (cards_run_files site m output_dir c items n d)
        as (_ & _ & _ & _ & I6)
  end.
  destruct (I6 path Hpath) as (item & image_url & _ & _ & -> & Hreq).
  exists image_url. split; [by apply Hevents |].
  split; [reflexivity |].
  split; [apply final_split_clean |].
  apply path_join_inside, final_split_clean.
Qed.

(** ** What holds from one state of a run to the next *)

Section Invariant.

Variable site : remote.
Variable argv : list string.
Variable dunder_main : bool.

(** A relation between a state and a later one that every step of the
    script keeps. *)
Variable keeps : State → State → Prop.
Hypothesis keeps_refl : ∀ st, keeps st st.
Hypothesis keeps_trans : ∀ a b c, keeps a b → keeps b c → keeps a c.
Hypothesis keeps_query :
  ∀ pokemon_name output_dir st,
    keeps st (snd (run_query site pokemon_name output_dir st)).
Hypothesis keeps_print : ∀ m st, keeps st (snd (print m st)).
Hypothesis keeps_input : ∀ p st, keeps st (snd (input p st)).

Lemma bind_invariant {A B} (m : Run A) (k : A → Run B) st :
  keeps st (snd (m st)) → (∀ a st', keeps st' (snd (k a st'))) →
  keeps st (snd (bind m k st)).
Proof.
  intros Hm Hk. unfold bind.
  destruct (m st) as [[a | e |] st']; cbn [snd] in *; try assumption.
  eapply keeps_trans; [exact Hm | apply Hk].
Qed.

Lemma nested_calls_invariant fuel :
  (∀ pokemon_name output_dir st,
     keeps st (snd (download_pokemon_cards site argv dunder_main fuel
                  pokemon_name output_dir st)))
  ∧ (∀ st, keeps st (snd (main site argv dunder_main fuel st)))
  ∧ (∀ st, keeps st (snd (prompt_loop site argv dunder_main fuel st))).
Proof.
  induction fuel as [| fuel (IHd & IHm & IHp)].
  { repeat split; intros; apply keeps_refl. }
  split; [| split].
  - intros pokemon_name output_dir st. rewrite download_pokemon_cards_step.
    apply bind_invariant; [apply keeps_query |].
    intros [n |] st'; [destruct dunder_main |];
      first [apply IHm | apply keeps_refl].
  - intros st. rewrite main_step.
    apply bind_invariant; [| intros; apply IHp].
    destruct (1 <? length argv)%nat; [| apply keeps_refl].
    destruct (negb _); [apply keeps_print | apply IHd].
  - intros st. rewrite prompt_loop_step.
    apply bind_invariant; [apply keeps_input |].
    intros line st'. destruct (negb (truthy _)); [apply keeps_print |].
    destruct (negb (is_valid_input _)).
    + apply bind_invariant; [apply keeps_print | intros; apply IHp].
    + apply bind_invariant; [apply IHd | intros; apply IHp].
Qed.

Lemma script_invariant fuel st :
  keeps st (snd (script site argv dunder_main fuel st)).
Proof.
  unfold script. destruct dunder_main eqn:E; [| apply keeps_refl].
  apply bind_invariant.
  - destruct (length argv <? 2)%nat; [| apply keeps_refl].
    apply bind_invariant; [apply keeps_input |].
    intros line st'. destruct (negb (truthy _)); [| apply keeps_refl].
    apply bind_invariant; [apply keeps_print | intros; apply keeps_refl].
  - intros pokemon_name st'. rewrite <- E. apply nested_calls_invariant.
Qed.

End Invariant.

(** ** Files that are there stay as they are *)

Lemma run_query_keeps_files site pokemon_name output_dir st :
  disk st ⊆ disk (snd (run_query site pokemon_name output_dir st)).
Proof.
  rewrite run_query_trace. cbn [snd disk].
  destruct (query_run_parts site (made_dirs (log st)) pokemon_name output_dir (disk st))
    as (_ & -> & _).
  apply cards_run_files.
Qed.

(** X16. No run changes or removes a file that is on the disk: whatever
    the site answers, whatever is typed and however long the run goes on, a
    file that was there before [download_pokemon_cards] or the whole script
    is there afterwards with the same content. *)
Theorem files_on_disk_are_never_changed
    (site : remote) (argv : list string) (dunder_main : bool) (fuel : nat)
    (st : State) (path content : string) :
  disk st !! path = Some content →
  disk (snd (script site argv dunder_main fuel st)) !! path = Some content
  ∧ ∀ pokemon_name output_dir,
      disk (snd (download_pokemon_cards site argv dunder_main fuel
                   pokemon_name output_dir st)) !! path
      = Some content.
Proof.
  intros Hfile.
  set (keeps := fun a b : State => disk a ⊆ disk b).
  assert (Hrefl : ∀ a, keeps a a) by (intros a; by unfold keeps).
  assert (Htrans : ∀ a b c, keeps a b → keeps b c → keeps a c)
    by (unfold keeps; intros a b c Hab Hbc; by etrans).
  assert (Hquery : ∀ pokemon_name output_dir a,
            keeps a (snd (run_query site pokemon_name output_dir a)))
    by (intros; apply run_query_keeps_files).
  assert (Hprint : ∀ m a, keeps a (snd (print m a)))
    by (intros; by unfold keeps).
  assert (Hinput : ∀ p a, keeps a (snd (input p a))).
  { intros p a. unfold keeps, input. by destruct (stdin a). }
  split.
  - eapply lookup_weaken; [exact Hfile |].
    apply (script_invariant site argv dunder_main keeps
             Hrefl Htrans Hquery Hprint Hinput).
  - intros pokemon_name output_dir.
    eapply lookup_weaken; [exact Hfile |].
    apply (nested_calls_invariant site argv dunder_main keeps
             Hrefl Htrans Hquery Hprint Hinput).
Qed.

Lemma files_on_disk_are_never_changed_witness :
  disk (snd (script Sample.catalogue ["scraper.py"; "pikachu"] true 6
               Sample.stocked)) !! "./cards/Pikachu.BS.58.png"
  = Some "PNGIDAT".
Proof.
  refine (proj1 (files_on_disk_are_never_changed Sample.catalogue
                   ["scraper.py"; "pikachu"] true 6 Sample.stocked
                   "./cards/Pikachu.BS.58.png" "PNGIDAT" _)).
  vm_compute. reflexivity.
Defined.

(** ** Every request is one of three *)

Lemma expected_search pokemon_name page :
  expected (search_request pokemon_name page).
Proof. repeat split. by left. Qed.

Lemma expected_card_page card_url :
  String.prefix "https://www.pokellector.com/" card_url = true →
  expected (card_page_request card_url).
Proof. intros H. repeat split. right. by left. Qed.

Lemma expected_image image_url :
  Py.contains image_host image_url = true →
  expected (image_request image_url).
Proof. intros H. repeat split. right. by right. Qed.

Lemma image_of_names_host site card_url image_url :
  image_of site card_url = Some image_url →
  Py.contains image_host image_url = true.
Proof.
  unfold image_of. destruct (site (card_page_request card_url));
    [discriminate | apply image_url_of_names_host].
Qed.

Lemma page_links_start site pokemon_name page card_url :
  In card_url (page_links site pokemon_name page) →
  String.prefix "https://www.pokellector.com/" card_url = true.
Proof.
  unfold page_links.
  destruct (site (search_request pokemon_name page)); [intros [] |].
  intros Hin.
  apply in_fold_keep_card_link in Hin as [[] | (href & _ & Hmatch & ->)].
  destruct (matching_link_starts_with_slash _ Hmatch) as [rest ->].
  vm_compute. by destruct rest.
Qed.

Lemma complaint_requests site r m : requests (complaint site r m) = [].
Proof. unfold complaint. by destruct (site r). Qed.

Lemma wrote_requests path pieces : requests (map (Wrote path) pieces) = [].
Proof. by apply omap_wrote. Qed.

Lemma card_step_requests site made output_dir card_url downloaded d :
  Forall expected
    (requests (snd (card_step site made output_dir card_url downloaded d))).
Proof.
  destruct (card_step_cases site made output_dir card_url downloaded d)
    as [-> | [(u & _ & _ & ->) | [(u & reason & Hu & ->)
                                 | (u & response & Hu & _ & ->)]]];
    cbn [snd].
  - constructor.
  - constructor.
  - apply Forall_cons_2; [| constructor].
    by apply expected_image, (image_of_names_host site card_url).
  - change (Requested ?r :: Opened ?p :: ?l ++ ?t)
      with ([Requested r; Opened p] ++ l ++ t).
    rewrite !requests_app, wrote_requests.
    apply Forall_cons_2; [| constructor].
    by apply expected_image, (image_of_names_host site card_url).
Qed.

Lemma cards_run_requests site made output_dir count items : ∀ downloaded d,
  (∀ item, In item items →
     String.prefix "https://www.pokellector.com/" (snd item) = true) →
  Forall expected
    (requests (snd (cards_run site made output_dir count items downloaded d))).
Proof.
  induction items as [| item items IH]; intros downloaded d Hitems;
    [constructor |].
  rewrite cards_run_cons. cbv zeta. cbn [snd]. rewrite requests_app.
  apply Forall_app_2; [| apply IH; intros it Hit; apply Hitems; by right].
  unfold card_events.
  change (?a :: ?b :: ?c ++ ?s ++ ?t) with ([a; b] ++ c ++ s ++ t).
  rewrite !requests_app, complaint_requests.
  apply Forall_app_2; [| apply Forall_app_2; [constructor |]].
  - apply Forall_cons_2; [| constructor].
    apply expected_card_page, Hitems. by left.
  - apply Forall_app_2; [apply card_step_requests | constructor].
Qed.

Lemma page_events_requests site pokemon_name total_pages pages :
  Forall expected
    (requests (concat (map (page_events site pokemon_name total_pages)
                           pages))).
Proof.
  induction pages as [| page pages IH]; [constructor |].
  cbn [map concat]. rewrite requests_app.
  apply Forall_app_2; [| exact IH]. unfold page_events.
  change (?a :: ?b :: ?c ++ ?t) with ([a; b] ++ c ++ t).
  rewrite !requests_app, complaint_requests.
  apply Forall_cons_2; [apply expected_search | constructor].
Qed.

Lemma in_enumerate_inv {A} (items : list A) : ∀ start item,
  In item (enumerate start items) → In (snd item) items.
Proof.
  induction items as [| x items IH]; intros start item; [intros [] |].
  intros [<- | H]; [by left | right; by apply (IH (start + 1)%Z)].
Qed.

Lemma query_run_requests site made pokemon_name output_dir d :
  Forall expected (requests (snd (query_run site made pokemon_name output_dir d))).
Proof.
  destruct (query_run_parts site made pokemon_name output_dir d) as (-> & _ & _).
  change (?a :: ?b :: ?c :: ?l ++ ?t) with ([a; b; c] ++ l ++ t).
  rewrite !requests_app, complaint_requests.
  repeat apply Forall_app_2.
  - apply Forall_cons_2; [apply expected_search | constructor].
  - constructor.
  - constructor.
  - apply page_events_requests.
  - destruct (_ =? _)%Z; constructor.
  - apply cards_run_requests. intros item Hitem.
    apply in_enumerate_inv, in_sorted, elem_links_of_pages in Hitem
      as [H | (page & _ & H)]; [by apply elem_of_empty in H |].
    by apply (page_links_start site pokemon_name page).
Qed.

(** X17. Every request of a run of the script carries the fixed
    [User-Agent] and a timeout of ten seconds, and is one of three: a search
    with parameters, a request without parameters for an address that
    starts with the address of the site, or a streamed request without
    parameters for an address that holds the name of the image host. *)
Theorem every_request_is_one_of_three
    (site : remote) (argv : list string) (dunder_main : bool) (fuel : nat)
    (st : State) :
  ∃ new,
    log (snd (script site argv dunder_main fuel st)) = log st ++ new
    ∧ ∀ r, In r (requests new) →
        headers r = [("User-Agent", user_agent)]
        ∧ timeout r = Some 10%Z
        ∧ ((url r = "https://www.pokellector.com/search" ∧ stream r = false)
           ∨ (String.prefix "https://www.pokellector.com/" (url r) = true
              ∧ params r = [] ∧ stream r = false)
           ∨ (Py.contains image_host (url r) = true
              ∧ params r = [] ∧ stream r = true)).
Proof.
  set (keeps := fun a b : State =>
              ∃ new, log b = log a ++ new ∧ Forall expected (requests new)).
  assert (Hrefl : ∀ a, keeps a a).
  { intros a. exists []. split; [by rewrite app_nil_r | constructor]. }
  assert (Htrans : ∀ a b c, keeps a b → keeps b c → keeps a c).
  { intros a b c (n1 & H1 & F1) (n2 & H2 & F2). exists (n1 ++ n2). split.
    - by rewrite H2, H1, app_assoc.
    - rewrite requests_app. by apply Forall_app_2. }
  assert (Hquery : ∀ pokemon_name output_dir a,
            keeps a (snd (run_query site pokemon_name output_dir a))).
  { intros pokemon_name output_dir a. rewrite run_query_trace. cbn [snd].
    eexists. split; [reflexivity | apply query_run_requests]. }
  assert (Hprint : ∀ m a, keeps a (snd (print m a))).
  { intros m a. exists [Printed m]. split; [reflexivity | constructor]. }
  assert (Hinput : ∀ p a, keeps a (snd (input p a))).
  { intros p a. unfold input. destruct (stdin a) as [| line rest];
      [apply Hrefl |].
    exists [Asked p line]. split; [reflexivity | constructor]. }
  destruct (script_invariant site argv dunder_main keeps
              Hrefl Htrans Hquery Hprint Hinput fuel st) as (new & Hlog & Hall).
  exists new. split; [exact Hlog |].
  intros r Hr. rewrite Forall_forall in Hall.
  by apply (Hall r), list_elem_of_In.
Qed.

(** ** Names the nested loop refuses *)

Lemma prompt_loop_refuses site argv dunder_main lines :
  Forall refused lines →
  ∀ blank rest fuel st,
    truthy (Py.strip blank) = false →
    stdin st = lines ++ blank :: rest →
    (length lines < fuel)%nat →
    prompt_loop site argv dunder_main fuel st
    = (Returned tt,
       {| disk := disk st;
          stdin := rest;
          log := log st ++ flat_map refusal lines
                 ++ [Asked EnterNameOrQuit blank; Printed Exiting] |}).
Proof.
  induction 1 as [| line lines [Hname Hbad] _ IH];
    intros blank rest fuel st Hblank Hin Hfuel;
    (destruct fuel as [| fuel]; [cbn in Hfuel; lia |]).
  - by apply prompt_loop_blank.
  - rewrite (prompt_loop_invalid _ _ _ _ _ _ _ Hin Hname Hbad).
    rewrite (IH blank rest); [| exact Hblank | reflexivity | cbn in Hfuel; lia].
    cbn [disk log stdin flat_map refusal]. f_equal. f_equal.
    by rewrite <- !app_assoc.
Qed.

(** X18. The nested loop refuses every line that, stripped, is not empty
    and fails [is_valid_input]: it says so and asks again, without a request,
    a file or a directory, until a blank line ends it. *)
Theorem refused_names_cause_no_request
    (site : remote) (argv : list string) (dunder_main : bool)
    (lines : list string) (blank : string) (rest : list string)
    (fuel : nat) (st : State) :
  Forall refused lines →
  truthy (Py.strip blank) = false →
  stdin st = lines ++ blank :: rest →
  (length lines < fuel)%nat →
  ∃ new,
    prompt_loop site argv dunder_main fuel st
    = (Returned tt,
       {| disk := disk st; stdin := rest; log := log st ++ new |})
    ∧ new = flat_map refusal lines
            ++ [Asked EnterNameOrQuit blank; Printed Exiting]
    ∧ requests new = []
    ∧ opened new = []
    ∧ ∀ path, ¬ In (MadeDir path) new.
Proof.
  intros Hlines Hblank Hin Hfuel. eexists.
  split; [by apply prompt_loop_refuses |]. split; [reflexivity |].
  clear. induction lines as [| line lines (IH1 & IH2 & IH3)].
  - repeat split. intros path [H | [H | []]]; discriminate.
  - cbn [flat_map refusal app]. repeat split; try assumption.
    intros path [H | [H | H]]; [discriminate | discriminate |].
    by apply (IH3 path).
Qed.

Lemma refused_names_cause_no_request_witness :
  ∃ new,
    prompt_loop Sample.catalogue ["scraper.py"] true 3
      (Sample.fresh ["pika@chu"; " a/b "; "  "; "pikachu"])
    = (Returned tt,
       {| disk := ∅; stdin := ["pikachu"]; log := [] ++ new |})
    ∧ requests new = [].
Proof.
  destruct (refused_names_cause_no_request Sample.catalogue ["scraper.py"]
              true ["pika@chu"; " a/b "] "  " ["pikachu"] 3
              (Sample.fresh ["pika@chu"; " a/b "; "  "; "pikachu"]))
    as (new & H1 & _ & H2 & _).
  - repeat constructor.
  - reflexivity.
  - reflexivity.
  - cbn. lia.
  - exists new. split; assumption.
Defined.

(** ** The script without a name *)

(** X19. Run as a script without an argument, the last block of the file
    asks for a name once: on a line that is blank after [strip] it says that
    no name was given and exits with status 1, and at the end of the input
    [input] raises [EOFError]; in both cases nothing else has happened, no
    directory, no request, no file. *)
Theorem script_without_a_name_stops_at_once
    (site : remote) (argv : list string) (fuel : nat) (st : State) :
  (length argv < 2)%nat →
  match stdin st with
  | [] => script site argv true fuel st = (Raised EOFError, st)
  | line :: rest =>
      truthy (Py.strip line) = false →
      script site argv true fuel st
      = (Raised (SystemExit 1),
         {| disk := disk st;
            stdin := rest;
            log := log st ++ [Asked EnterName line; Printed NoNameProvided] |})
  end.
Proof.
  intros Hargv. apply Nat.ltb_lt in Hargv.
  destruct (stdin st) as [| line rest] eqn:E.
  - unfold script, bind, input. by rewrite Hargv, E.
  - intros Hblank. unfold script, bind, input. rewrite Hargv, E, Hblank.
    cbn. by rewrite <- app_assoc.
Qed.

Lemma script_without_a_name_stops_at_once_witness :
  script Sample.catalogue ["scraper.py"] true 4 (Sample.fresh [" "; "pikachu"])
  = (Raised (SystemExit 1),
     {| disk := ∅;
        stdin := ["pikachu"];
        log := [Asked EnterName " "; Printed NoNameProvided] |}).
Proof.
  refine (script_without_a_name_stops_at_once Sample.catalogue ["scraper.py"]
            4 (Sample.fresh [" "; "pikachu"]) _ _).
  - cbn. lia.
  - reflexivity.
Defined.

(** ** The reports of the count *)

Lemma reports_app a b : reports (a ++ b) = reports a ++ reports b.
Proof. apply omap_app. Qed.

Lemma reports_complaint site r m :
  (∀ e, reports [Printed (m e)] = []) → reports (complaint site r m) = [].
Proof.
  intros H. unfold complaint. destruct (site r); [apply H | reflexivity].
Qed.

Lemma reports_wrote path pieces : reports (map (Wrote path) pieces) = [].
Proof. by apply omap_wrote. Qed.

Lemma list_last_cons {A} (l : list A) : ∀ x d,
  List.last (x :: l) d = List.last l x.
Proof.
  induction l as [| y l IH]; intros x d; [reflexivity |].
  change (List.last (x :: y :: l) d) with (List.last (y :: l) d).
  by rewrite !IH.
Qed.

Lemma reports_of_card_events site made output_dir count item downloaded d :
  reports (card_events site made output_dir count item downloaded d)
  = [fst (fst (card_step site made output_dir (snd item) downloaded d))]
  ∧ (fst (fst (card_step site made output_dir (snd item) downloaded d))
     = downloaded
     ∨ fst (fst (card_step site made output_dir (snd item) downloaded d))
       = (downloaded + 1)%Z)
  ∧ (1 ≤ length (requests
                   (card_events site made output_dir count item downloaded d))
     ≤ 2)%nat.
Proof.
  unfold card_events.
  change (?a :: ?b :: ?c ++ ?s ++ ?t) with ([a; b] ++ c ++ s ++ t).
  rewrite !reports_app, !requests_app, complaint_requests.
  rewrite reports_complaint by reflexivity.
  destruct (card_step_cases site made output_dir (snd item) downloaded d)
    as [-> | [(u & _ & _ & ->) | [(u & reason & _ & ->)
                                 | (u & response & _ & _ & ->)]]];
    cbn [fst snd].
  1-3: split; [reflexivity | split; [by left | cbn; lia]].
  split; [| split; [destruct (broken response); [by left | by right] |]].
  - change (Requested ?r :: Opened ?p :: ?l ++ ?t)
      with ([Requested r; Opened p] ++ l ++ t).
    rewrite !reports_app, reports_wrote. by destruct (broken response).
  - change (Requested ?r :: Opened ?p :: ?l ++ ?t)
      with ([Requested r; Opened p] ++ l ++ t).
    rewrite !requests_app, wrote_requests. cbn. lia.
Qed.

Lemma reports_of_cards_run site made output_dir count items : ∀ downloaded d,
  let run := cards_run site made output_dir count items downloaded d in
  running downloaded (reports (snd run))
  ∧ length (reports (snd run)) = length items
  ∧ List.last (reports (snd run)) downloaded = fst (fst run)
  ∧ (length items ≤ length (requests (snd run)) ≤ 2 * length items)%nat.
Proof.
  induction items as [| item items IH]; intros downloaded d; cbv zeta.
  { cbn. repeat split; lia. }
  rewrite cards_run_cons. cbv zeta. cbn [fst snd].
  rewrite reports_app, requests_app, length_app.
  destruct (reports_of_card_events site made output_dir count item downloaded d)
    as (-> & Hstep & Hrequests).
  destruct (IH (fst (fst (card_step site made output_dir (snd item) downloaded d)))
               (snd (fst (card_step site made output_dir (snd item) downloaded d))))
    as (I1 & I2 & I3 & I4).
  cbv zeta in *. cbn [app running length]. rewrite ?length_app.
  repeat split; try assumption; try lia.
  by rewrite list_last_cons.
Qed.

Lemma reports_of_query_run site made pokemon_name output_dir d :
  let total_pages := total_pages_of site pokemon_name in
  let card_urls :=
    sorted (links_of_pages site pokemon_name (seqZ 1 total_pages) ∅) in
  let cards :=
    cards_run site (made ++ [output_dir]) output_dir
      (Z.of_nat (length card_urls)) (enumerate 1 card_urls) 0%Z d in
  reports (snd (query_run site made pokemon_name output_dir d))
  = reports (snd cards)
  ∧ length (requests (snd (query_run site made pokemon_name output_dir d)))
    = (1 + length (seqZ 1 total_pages) + length (requests (snd cards)))%nat.
Proof.
  cbv zeta.
  destruct (query_run_parts site made pokemon_name output_dir d) as (-> & _ & _).
  set (total_pages := total_pages_of site pokemon_name).
  assert (Hpages : ∀ pages,
    reports (concat (map (page_events site pokemon_name total_pages) pages))
    = []
    ∧ length (requests
                (concat (map (page_events site pokemon_name total_pages)
                             pages)))
      = length pages).
  { induction pages as [| page pages [IH1 IH2]]; [by split |].
    cbn [map concat]. rewrite reports_app, requests_app, length_app, IH1, IH2.
    unfold page_events.
    change (?a :: ?b :: ?c ++ ?t) with ([a; b] ++ c ++ t).
    rewrite !reports_app, !requests_app, complaint_requests.
    rewrite reports_complaint by reflexivity.
    split; reflexivity. }
  destruct (Hpages (seqZ 1 total_pages)) as [P1 P2].
  change (?a :: ?b :: ?c :: ?l ++ ?t) with ([a; b; c] ++ l ++ t).
  rewrite !reports_app, !requests_app, !length_app, complaint_requests, P1, P2.
  rewrite reports_complaint by reflexivity.
  destruct (total_pages =? 0)%Z; split; cbn; try reflexivity; lia.
Qed.

(** X20. A query reports the count once after every card it takes up, and
    at no other time; each report shows the count of the one before it or
    one more, starting from 0, and the last report shows the count the query
    ends with. *)
Theorem reports_are_running_counts
    (site : remote) (pokemon_name output_dir : string) (st : State) :
  ∃ new,
    log (snd (run_query site pokemon_name output_dir st)) = log st ++ new
    ∧ length (reports new) = length (processed new)
    ∧ running 0 (reports new)
    ∧ ∀ downloaded,
        fst (run_query site pokemon_name output_dir st)
        = Returned (Some downloaded) →
        List.last (reports new) 0%Z = downloaded.
Proof.
  rewrite run_query_trace. cbn [fst snd log].
  eexists. split; [reflexivity |].
  destruct (reports_of_query_run site (made_dirs (log st)) pokemon_name output_dir (disk st))
    as [-> _].
  destruct (measures_of_query_run site (made_dirs (log st)) pokemon_name output_dir (disk st))
    as (_ & -> & _).
  destruct (query_run_parts site (made_dirs (log st)) pokemon_name output_dir (disk st))
    as (_ & _ & ->).
  cbv zeta.
  match goal with
  | |- context [cards_run site ?m output_dir ?c ?items ?n ?d] =>
      destruct (reports_of_cards_run site m output_dir c items n d)
        as (I1 & I2 & I3 & _)
  end.
  cbv zeta in *. rewrite length_map.
  repeat split; try assumption.
  intros downloaded. destruct (_ =? _)%Z; [discriminate |].
  intros [= <-]. exact I3.
Qed.

(** X21. A query makes one request for the page count, one for every
    result page, one for every card it takes up and at most one more for
    that card's image: nothing is asked for a second time after a failure. *)
Theorem query_asks_at_most_twice_for_a_card
    (site : remote) (pokemon_name output_dir : string) (st : State) :
  ∃ total_pages new,
    fst (get_total_pages site pokemon_name st) = Returned total_pages
    ∧ log (snd (run_query site pokemon_name output_dir st)) = log st ++ new
    ∧ (1 + total_pages + Z.of_nat (length (processed new))
       ≤ Z.of_nat (length (requests new))
       ≤ 1 + total_pages + 2 * Z.of_nat (length (processed new)))%Z.
Proof.
  rewrite get_total_pages_trace, run_query_trace. cbn [fst snd log].
  eexists _, _. split; [reflexivity |]. split; [reflexivity |].
  destruct (reports_of_query_run site (made_dirs (log st)) pokemon_name output_dir (disk st))
    as [_ ->].
  destruct (measures_of_query_run site (made_dirs (log st)) pokemon_name output_dir (disk st))
    as (_ & -> & _).
  cbv zeta.
  match goal with
  | |- context [cards_run site ?m output_dir ?c ?items ?n ?d] =>
      destruct (reports_of_cards_run site m output_dir c items n d)
        as (_ & _ & _ & I4)
  end.
  cbv zeta in *. rewrite length_map, length_seqZ.
  assert (Hpages : (0 ≤ total_pages_of site pokemon_name)%Z).
  { destruct (Z.eq_dec (total_pages_of site pokemon_name) 0%Z) as [-> | Hne];
      [done |].
    pose proof (total_pages_of_positive site pokemon_name Hne). lia. }
  lia.
Qed.
